(** * AudioMuse-AI: task lifecycle and cancellation orchestrator

    A shallow embedding of the task bookkeeping of [app.py]: the durable
    task table ([task_status]), the status write path ([save_task_status]),
    the archival sweep ([clean_up_previous_main_tasks]), the read paths
    ([get_task_info_from_db], [get_task_status_endpoint],
    [get_last_overall_task_status_endpoint], [get_active_tasks_endpoint])
    and the recursive cancellation
    ([cancel_job_and_children_recursive], [cancel_task_endpoint],
    [cancel_all_tasks_by_type_endpoint]); further the track tables
    ([track_exists], [save_track_analysis_and_embedding],
    [get_score_data_by_ids]), the playlist table ([update_playlist_table],
    [get_playlists_endpoint]), the index reload listener
    ([listen_for_index_reloads]) and, of [app_sonic_fingerprint.py],
    [generate_sonic_fingerprint_endpoint].

    Conventions of the embedding.
    - Python values that travel through JSON are terms of [json]; a Python
      [dict] is an association list in insertion order.
    - The TEXT column [details] is kept up to decoding: [Encoded j] is the
      text [json.dumps] produces for [j] (and [json.loads] gives [j] back),
      [Garbled raw] is a text on which [json.loads] raises.
    - Unix timestamps ([time.time()], DOUBLE PRECISION columns) are rationals.
    - A Python exception is a [Raise] result; the wall clock is an argument,
      read once per request.
    - The table is the list of its rows in heap order. *)

From Stdlib Require Import List String Ascii ZArith QArith Bool Lia Arith DecimalString.
Import ListNotations.
Open Scope nat_scope.
Open Scope string_scope.
Open Scope list_scope.

(** ** Python values *)

#[local] Unset Elimination Schemes.
Inductive json : Type :=
| JNull
| JBool (b : bool)
| JInt (z : Z)
| JFloat (q : Q)
| JStr (s : string)
| JList (l : list json)
| JDict (d : list (string * json)).
#[local] Set Elimination Schemes.

Definition dict : Type := list (string * json).

Inductive exn : Type :=
| JSONDecodeError
| TypeError
| AttributeError
| KeyError
| InvalidJobOperation.

Inductive res (A : Type) : Type :=
| Ok (a : A)
| Raise (e : exn).
Arguments Ok {A} a.
Arguments Raise {A} e.

(** [d.get(k)] *)
Fixpoint dict_get (d : dict) (k : string) : option json :=
  match d with
  | [] => None
  | (k', v) :: d' => if String.eqb k k' then Some v else dict_get d' k
  end.

(** [k in d] *)
Definition dict_has (d : dict) (k : string) : bool :=
  match dict_get d k with Some _ => true | None => false end.

(** [d[k] = v]: an existing key keeps its position, a new key goes last. *)
Fixpoint dict_set (d : dict) (k : string) (v : json) : dict :=
  match d with
  | [] => [(k, v)]
  | (k', v') :: d' =>
      if String.eqb k k' then (k, v) :: d' else (k', v') :: dict_set d' k v
  end.

(** [d.pop(k, None)] *)
Fixpoint dict_pop (d : dict) (k : string) : dict :=
  match d with
  | [] => []
  | (k', v') :: d' =>
      if String.eqb k k' then dict_pop d' k else (k', v') :: dict_pop d' k
  end.

(** [{**a, **b}] *)
Definition dict_merge (a b : dict) : dict :=
  fold_left (fun acc kv => dict_set acc (fst kv) (snd kv)) b a.

(** [l[-n:]] for [n > 0] *)
Definition last_n {A : Type} (n : nat) (l : list A) : list A :=
  skipn (List.length l - n) l.

(** [str(n)] for a length *)
Definition nat_to_str (n : nat) : string :=
  NilZero.string_of_uint (Nat.to_uint n).

(** [s1 in s2] on strings *)
Definition str_contains (needle hay : string) : bool :=
  match String.index 0 needle hay with Some _ => true | None => false end.

(** ** Constants of [app.py] *)

Definition MAX_LOG_ENTRIES_STORED : nat := 10.

Definition TASK_STATUS_PENDING : string := "PENDING".
Definition TASK_STATUS_STARTED : string := "STARTED".
Definition TASK_STATUS_PROGRESS : string := "PROGRESS".
Definition TASK_STATUS_SUCCESS : string := "SUCCESS".
Definition TASK_STATUS_FAILURE : string := "FAILURE".
Definition TASK_STATUS_REVOKED : string := "REVOKED".

(** ** The durable task table *)

(** The persisted text of the [details] column, up to decoding. *)
Inductive json_text : Type :=
| Encoded (j : json)
| Garbled (raw : string).

Definition json_dumps (j : json) : json_text := Encoded j.

Definition json_loads (t : json_text) : res json :=
  match t with
  | Encoded j => Ok j
  | Garbled _ => Raise JSONDecodeError
  end.

(** Truth value of a text: only the empty string is false; an encoding is
    never empty. *)
Definition text_truthy (t : json_text) : bool :=
  match t with
  | Encoded _ => true
  | Garbled raw => negb (String.eqb raw "")
  end.

Record Row : Type := mkRow {
  task_id : string;
  parent_task_id : option string;
  task_type : string;
  sub_type_identifier : option string;
  status : option string;
  progress : option Z;
  details : option json_text;
  timestamp : option Q;
  start_time : option Q;
  end_time : option Q
}.

Definition Store : Type := list Row.

(** [status IN ('SUCCESS', 'FAILURE', 'REVOKED')] on a value *)
Definition is_terminal (s : string) : bool :=
  String.eqb s TASK_STATUS_SUCCESS || String.eqb s TASK_STATUS_FAILURE
  || String.eqb s TASK_STATUS_REVOKED.

(** [x in [SUCCESS, FAILURE, REVOKED]] on a nullable column: NULL is not in
    the list. *)
Definition status_terminal (s : option string) : bool :=
  match s with Some v => is_terminal v | None => false end.

(** [SELECT ... WHERE task_id = %s] followed by [fetchone()] *)
Fixpoint find_row (s : Store) (id : string) : option Row :=
  match s with
  | [] => None
  | r :: s' => if String.eqb (task_id r) id then Some r else find_row s' id
  end.

Definition has_row (s : Store) (id : string) : bool :=
  match find_row s id with Some _ => true | None => false end.

(** The [INSERT] arm of the upsert of [save_task_status]. *)
Definition insert_row (id : string) (parent : option string) (ttype : string)
    (sub : option string) (st : string) (prog : Z) (dj : option json_text)
    (now sql_now : Q) : Row :=
  {| task_id := id;
     parent_task_id := parent;
     task_type := ttype;
     sub_type_identifier := sub;
     status := Some st;
     progress := Some prog;
     details := dj;
     timestamp := Some sql_now;
     start_time := Some now;
     end_time := if is_terminal st then Some now else None |}.

(** The [ON CONFLICT (task_id) DO UPDATE SET] arm; [task_type] is not in
    the SET list. *)
Definition update_row (parent : option string) (sub : option string)
    (st : string) (prog : Z) (dj : option json_text) (now sql_now : Q)
    (old : Row) : Row :=
  {| task_id := task_id old;
     parent_task_id := parent;
     task_type := task_type old;
     sub_type_identifier := sub;
     status := Some st;
     progress := Some prog;
     details := dj;
     timestamp := Some sql_now;
     start_time := match start_time old with
                   | Some t => Some t
                   | None => Some now
                   end;
     end_time := match end_time old with
                 | None => if is_terminal st then Some now else None
                 | Some e => Some e
                 end |}.

(** [INSERT ... ON CONFLICT (task_id) DO UPDATE]: the row holding the key
    is rewritten in place, a new key is appended. *)
Fixpoint upsert (new : Row) (upd : Row -> Row) (s : Store) : Store :=
  match s with
  | [] => [new]
  | r :: s' =>
      if String.eqb (task_id r) (task_id new) then upd r :: s'
      else r :: upsert new upd s'
  end.

(** ** [save_task_status] *)

Definition truncation_note (original_log_length : nat) : string :=
  ("Log in DB truncated to last " ++ nat_to_str MAX_LOG_ENTRIES_STORED
   ++ " entries. Original length: " ++ nat_to_str original_log_length
   ++ ".")%string.

(** Lines 322-335: what the function does to [details] before encoding. *)
Definition trim_details (st : string) (details : option json) : option json :=
  match details with
  | Some (JDict d) =>
      match negb (String.eqb st TASK_STATUS_SUCCESS), dict_get d "log" with
      | true, Some (JList log_list) =>
          if Nat.ltb MAX_LOG_ENTRIES_STORED (List.length log_list) then
            Some (JDict (dict_set
                           (dict_set d "log"
                              (JList (last_n MAX_LOG_ENTRIES_STORED log_list)))
                           "log_storage_info"
                           (JStr (truncation_note (List.length log_list)))))
          else Some (JDict (dict_pop d "log_storage_info"))
      | _, _ =>
          if String.eqb st TASK_STATUS_SUCCESS then
            let d1 := dict_pop d "log_storage_info" in
            match dict_get d1 "log" with
            | Some (JList (_ :: _)) => Some (JDict d1)
            | _ => Some (JDict (dict_set d1 "log"
                                  (JList [JStr "Task completed successfully."])))
            end
          else Some (JDict d)
      end
  | other => other
  end.

(** Line 337 *)
Definition details_json (st : string) (details : option json)
  : option json_text :=
  match trim_details st details with
  | Some j => Some (json_dumps j)
  | None => None
  end.

(** What the store does to the statement of one call. *)
Inductive db_fault : Type :=
| NoFault
| ExecuteFails (rollback_fails : bool)
| CommitFails (rollback_fails : bool).

Inductive log_line : Type :=
| LogError (msg : string)
| LogWarning (msg : string)
| LogInfo (msg : string).

Record SaveArgs : Type := mkSave {
  a_task_type : string;
  a_status : string;
  a_parent_task_id : option string;
  a_sub_type_identifier : option string;
  a_progress : Z;
  a_details : option json
}.

(** The SQL statement of lines 341-357 on the table. *)
Definition save_statement (id : string) (a : SaveArgs) (now sql_now : Q)
    (s : Store) : Store :=
  let dj := details_json (a_status a) (a_details a) in
  upsert
    (insert_row id (a_parent_task_id a) (a_task_type a)
       (a_sub_type_identifier a) (a_status a) (a_progress a) dj now sql_now)
    (update_row (a_parent_task_id a) (a_sub_type_identifier a) (a_status a)
       (a_progress a) dj now sql_now)
    s.

Record SaveOutcome : Type := mkSaveOutcome {
  so_store : Store;
  so_log : list log_line;
  so_return : res unit
}.

(** [save_task_status]: the committed table afterwards, the lines logged
    (without the text of the exception) and what the caller receives. *)
Definition save_task_status (flt : db_fault) (id : string) (a : SaveArgs)
    (now sql_now : Q) (s : Store) : SaveOutcome :=
  match flt with
  | NoFault =>
      {| so_store := save_statement id a now sql_now s;
         so_log := [];
         so_return := Ok tt |}
  | ExecuteFails rb | CommitFails rb =>
      {| so_store := s;
         so_log :=
           LogError ("DB Error saving task status for " ++ id)%string ::
           (if rb
            then [LogError ("DB Error during rollback for task status "
                            ++ id)%string]
            else [LogInfo ("DB transaction rolled back for task status update of "
                           ++ id ++ ".")%string]);
         so_return := Ok tt |}
  end.

(** ** [get_task_info_from_db] *)

Definition Qpos (q : Q) : bool := negb (Qle_bool q 0).

(** [max(0, x)] *)
Definition max0 (x : Q) : Q := if Qpos x then x else 0%Q.

Definition running_time (now : Q) (r : Row) : Q :=
  match start_time r with
  | None => 0%Q
  | Some st =>
      let effective_end_time :=
        match end_time r with Some e => e | None => now end in
      max0 (effective_end_time - st)%Q
  end.

Record TaskInfo : Type := mkInfo {
  ti_row : Row;
  running_time_seconds : Q
}.

Definition get_task_info_from_db (now : Q) (s : Store) (id : string)
  : option TaskInfo :=
  match find_row s id with
  | None => None
  | Some r => Some {| ti_row := r; running_time_seconds := running_time now r |}
  end.

(** [get_child_tasks_from_db] *)
Definition is_child_of (parent : string) (r : Row) : bool :=
  match parent_task_id r with
  | Some p => String.eqb p parent
  | None => false
  end.

Definition get_child_tasks_from_db (s : Store) (parent : string) : list Row :=
  filter (is_child_of parent) s.

(** ** [clean_up_previous_main_tasks] *)

Definition status_in (l : list string) (s : option string) : bool :=
  match s with
  | Some v => existsb (String.eqb v) l
  | None => false
  end.

Definition is_root (r : Row) : bool :=
  match parent_task_id r with None => true | Some _ => false end.

(** [WHERE status IN %s AND parent_task_id IS NULL] of line 264 *)
Definition archivable (r : Row) : bool :=
  status_in [TASK_STATUS_PENDING; TASK_STATUS_STARTED; TASK_STATUS_PROGRESS;
             TASK_STATUS_SUCCESS] (status r)
  && is_root r.

Definition archival_reason (original_status : string) : string :=
  if String.eqb original_status TASK_STATUS_SUCCESS
  then "New main task started, old successful task archived."
  else ("New main task started, stale task (status: " ++ original_status
        ++ ") has been archived.")%string.

(** The [UPDATE ... WHERE task_id = %s AND status = %s] of lines 295-298. *)
Definition archive_update (id original_status : string) (dj : json_text)
    (sql_now : Q) (s : Store) : Store :=
  map (fun r =>
         if String.eqb (task_id r) id
            && status_in [original_status] (status r)
         then {| task_id := task_id r;
                 parent_task_id := parent_task_id r;
                 task_type := task_type r;
                 sub_type_identifier := sub_type_identifier r;
                 status := Some TASK_STATUS_REVOKED;
                 progress := Some 100%Z;
                 details := Some dj;
                 timestamp := Some sql_now;
                 start_time := start_time r;
                 end_time := end_time r |}
         else r) s.

Record Cleanup : Type := mkCleanup {
  cl_store : Store;
  cl_archived : option nat;
  cl_log : list log_line
}.

Section Archival.

(** [str()] of a decoded value inside the f-string of line 288; a Python
    builtin, taken as given. *)
Variable py_str : json -> string.

(** Lines 273-280: the summary quoted in the archived log line. Decoding
    errors are caught; [.get] on a decoded value that is not an object
    is not. *)
Definition original_status_message (original_status : string)
    (dj : option json_text) : res string :=
  let default :=
    ("Task was in '" ++ original_status ++ "' state.")%string in
  match dj with
  | None => Ok default
  | Some t =>
      if text_truthy t then
        match json_loads t with
        | Raise _ => Ok default
        | Ok (JDict d) =>
            Ok (match dict_get d "status_message" with
                | Some v => py_str v
                | None => default
                end)
        | Ok _ => Raise AttributeError
        end
      else Ok default
  end.

Definition archived_details (original_status summary : string) : json :=
  let reason := archival_reason original_status in
  JDict [("log", JList [JStr ("[Archived] " ++ reason
                              ++ ". Original summary: " ++ summary)%string]);
         ("original_status_before_archival", JStr original_status);
         ("archival_reason", JStr reason)].

(** One iteration of the loop of lines 268-299. *)
Definition archive_task (sql_now : Q) (task_row : Row) (working : Store)
  : res Store :=
  match status task_row with
  | None => Ok working
  | Some original_status =>
      match original_status_message original_status (details task_row) with
      | Raise e => Raise e
      | Ok summary =>
          Ok (archive_update (task_id task_row) original_status
                (json_dumps (archived_details original_status summary))
                sql_now working)
      end
  end.

Fixpoint archive_loop (sql_now : Q) (tasks_to_archive : list Row)
    (working : Store) (archived_count : nat) : res (Store * nat) :=
  match tasks_to_archive with
  | [] => Ok (working, archived_count)
  | task_row :: rest =>
      match archive_task sql_now task_row working with
      | Raise e => Raise e
      | Ok working' => archive_loop sql_now rest working' (S archived_count)
      end
  end.

(** The whole sweep: one commit for the batch, rollback on any error. *)
Definition clean_up_previous_main_tasks (sql_now : Q) (s : Store)
  : Cleanup :=
  let tasks_to_archive := filter archivable s in
  match archive_loop sql_now tasks_to_archive s 0 with
  | Ok (working, archived_count) =>
      if Nat.ltb 0 archived_count then
        {| cl_store := working;
           cl_archived := Some archived_count;
           cl_log := [LogInfo ("Archived " ++ nat_to_str archived_count
                               ++ " previous main tasks.")%string] |}
      else
        {| cl_store := s;
           cl_archived := Some 0;
           cl_log := [LogInfo "No previous main tasks found to clean up."] |}
  | Raise _ =>
      {| cl_store := s;
         cl_archived := None;
         cl_log := [LogError "Error during the main task cleanup process"] |}
  end.

End Archival.

(** ** The queue engine *)

(** Modelled from the spec: the job states of the Queue Engine (the RQ
    library, not part of the sources), as listed in the adapter contract:
    queued, started, finished, failed, canceled. *)
Module JobStatus.
Inductive t : Type := QUEUED | STARTED | FINISHED | FAILED | CANCELED.

Definition value (s : t) : string :=
  match s with
  | QUEUED => "queued"
  | STARTED => "started"
  | FINISHED => "finished"
  | FAILED => "failed"
  | CANCELED => "canceled"
  end.
End JobStatus.

(** Modelled from the spec: a job of the Queue Engine with its live state,
    its free-form metadata and the error text of a failed run.
    [accepts_commands] says whether a stop or cancel sent to it goes
    through or raises. *)
Record Job : Type := mkJob {
  job_status : JobStatus.t;
  meta : dict;
  exc_info : option string;
  accepts_commands : bool
}.

Inductive command : Type :=
| StopJob (job_id : string)
| CancelJob (job_id : string).

Record Queue : Type := mkQueue {
  jobs : list (string * Job);
  sent : list command
}.

Definition is_finished (j : Job) : bool :=
  match job_status j with JobStatus.FINISHED => true | _ => false end.
Definition is_failed (j : Job) : bool :=
  match job_status j with JobStatus.FAILED => true | _ => false end.
Definition is_canceled (j : Job) : bool :=
  match job_status j with JobStatus.CANCELED => true | _ => false end.
Definition is_started (j : Job) : bool :=
  match job_status j with JobStatus.STARTED => true | _ => false end.

Fixpoint lookup_job (l : list (string * Job)) (id : string) : option Job :=
  match l with
  | [] => None
  | (k, j) :: l' => if String.eqb k id then Some j else lookup_job l' id
  end.

(** Modelled from the spec: [fetch(job_id) -> Job | NotFound] of the
    adapter contract, the [Job.fetch] of the engine; [None] stands for
    [NoSuchJobError]. *)
Definition fetch (q : Queue) (id : string) : option Job := lookup_job (jobs q) id.

Fixpoint set_job_status (l : list (string * Job)) (id : string)
    (st : JobStatus.t) : list (string * Job) :=
  match l with
  | [] => []
  | (k, j) :: l' =>
      if String.eqb k id
      then (k, {| job_status := st; meta := meta j; exc_info := exc_info j;
                  accepts_commands := accepts_commands j |}) :: l'
      else (k, j) :: set_job_status l' id st
  end.

(** Modelled from the spec: [stop(job_id)] of the adapter contract, the
    [send_stop_job_command] of the engine. The command is posted to the
    worker and the state of the job is left to the worker; a job that
    takes no command makes the call raise. *)
Definition send_stop_job_command (q : Queue) (id : string) : res Queue :=
  match fetch q id with
  | Some j =>
      if accepts_commands j
      then Ok {| jobs := jobs q; sent := sent q ++ [StopJob id] |}
      else Raise InvalidJobOperation
  | None => Raise InvalidJobOperation
  end.

(** Modelled from the spec: [cancel(job_id)] of the adapter contract, the
    [job.cancel()] of the engine, which removes a job that has not
    started and leaves it canceled. *)
Definition job_cancel (q : Queue) (id : string) : res Queue :=
  match fetch q id with
  | Some j =>
      if accepts_commands j
      then Ok {| jobs := set_job_status (jobs q) id JobStatus.CANCELED;
                 sent := sent q ++ [CancelJob id] |}
      else Raise InvalidJobOperation
  | None => Raise InvalidJobOperation
  end.

Record World : Type := mkWorld {
  store : Store;
  queue : Queue
}.

(** ** [get_task_status_endpoint] *)

Record Response : Type := mkResponse {
  r_task_id : string;
  r_state : json;
  r_status_message : json;
  r_progress : json;
  r_details : json;
  r_task_type_from_db : json;
  r_running_time_seconds : Q
}.

Definition with_details (r : Response) (d : json) : Response :=
  {| r_task_id := r_task_id r; r_state := r_state r;
     r_status_message := r_status_message r; r_progress := r_progress r;
     r_details := d; r_task_type_from_db := r_task_type_from_db r;
     r_running_time_seconds := r_running_time_seconds r |}.

(** Line 660 *)
Definition initial_response (id : string) : Response :=
  {| r_task_id := id;
     r_state := JStr "UNKNOWN";
     r_status_message := JStr "Task ID not found in RQ or DB.";
     r_progress := JInt 0;
     r_details := JDict [];
     r_task_type_from_db := JNull;
     r_running_time_seconds := 0%Q |}.

Definition dict_get_default (d : dict) (k : string) (default : json) : json :=
  match dict_get d k with Some v => v | None => default end.

Definition str_truthy (s : option string) : bool :=
  match s with Some v => negb (String.eqb v "") | None => false end.

(** Lines 662-675: the response seeded from a job found in the engine.
    Item assignment into a [details] that is not a dict raises. *)
Definition response_from_job (id : string) (job : Job) : res Response :=
  let state := JStr (JobStatus.value (job_status job)) in
  let status_message := dict_get_default (meta job) "status_message" state in
  let progress := dict_get_default (meta job) "progress" (JInt 0) in
  let details := dict_get_default (meta job) "details" (JDict []) in
  let base sm pr dt :=
    {| r_task_id := id; r_state := state; r_status_message := sm;
       r_progress := pr; r_details := dt; r_task_type_from_db := JNull;
       r_running_time_seconds := 0%Q |} in
  if is_failed job then
    match details with
    | JDict d =>
        let error_message :=
          if str_truthy (exc_info job)
          then match exc_info job with Some e => e | None => "" end
          else "Job failed without error info." in
        Ok (base (JStr "FAILED") progress
              (JDict (dict_set d "error_message" (JStr error_message))))
    | _ => Raise TypeError
    end
  else if is_finished job then
    Ok (base (JStr "SUCCESS") (JInt 100) details)
  else if is_canceled job then
    Ok (base (JStr "CANCELED") (JInt 100) details)
  else Ok (base status_message progress details).

(** [state in [JobStatus.FINISHED, JobStatus.FAILED, JobStatus.CANCELED]] *)
Definition rq_final_state (state : json) : bool :=
  match state with
  | JStr s =>
      String.eqb s (JobStatus.value JobStatus.FINISHED)
      || String.eqb s (JobStatus.value JobStatus.FAILED)
      || String.eqb s (JobStatus.value JobStatus.CANCELED)
  | _ => false
  end.

Definition opt_str_json (s : option string) : json :=
  match s with Some v => JStr v | None => JNull end.

Definition opt_int_json (z : option Z) : json :=
  match z with Some v => JInt v | None => JNull end.

(** Line 691: no handler around the decoding. *)
Definition db_details (dj : option json_text) : res json :=
  match dj with
  | None => Ok (JDict [])
  | Some t => if text_truthy t then json_loads t else Ok (JDict [])
  end.

(** [{**db_details, **response['details']}]: both must be mappings. *)
Definition merge_details (db_d live_d : json) : res json :=
  match db_d, live_d with
  | JDict a, JDict b => Ok (JDict (dict_merge a b))
  | _, _ => Raise TypeError
  end.

(** Lines 683-699 *)
Definition augment_with_db (info : TaskInfo) (r : Response) : res Response :=
  let row := ti_row info in
  let state :=
    if rq_final_state (r_state r) then r_state r
    else opt_str_json (status row) in
  match db_details (details row) with
  | Raise e => Raise e
  | Ok dbd =>
      match merge_details dbd (r_details r) with
      | Raise e => Raise e
      | Ok merged =>
          if status_in [TASK_STATUS_REVOKED] (status row) then
            Ok {| r_task_id := r_task_id r;
                  r_state := JStr "REVOKED";
                  r_status_message := JStr "Task revoked.";
                  r_progress := JInt 100;
                  r_details := merged;
                  r_task_type_from_db := JStr (task_type row);
                  r_running_time_seconds := running_time_seconds info |}
          else
            Ok {| r_task_id := r_task_id r;
                  r_state := state;
                  r_status_message := r_status_message r;
                  r_progress := opt_int_json (progress row);
                  r_details := merged;
                  r_task_type_from_db := JStr (task_type row);
                  r_running_time_seconds := running_time_seconds info |}
      end
  end.

(** The rewriting of a long log shared by lines 709-715 and 916-922. *)
Definition truncate_log_view (details : json) : json :=
  match details with
  | JDict d =>
      match dict_get d "log" with
      | Some (JList log_entries) =>
          if Nat.ltb 10 (List.length log_entries) then
            JDict (dict_set d "log"
                     (JList (JStr ("... ("
                                   ++ nat_to_str (List.length log_entries - 10)
                                   ++ " earlier log entries truncated)")%string
                             :: last_n 10 log_entries)))
          else details
      | _ => details
      end
  | _ => details
  end.

(** Lines 703-706 *)
Definition prune_checked_album_ids (task_type_from_db details : json) : json :=
  match task_type_from_db with
  | JStr ty =>
      if negb (String.eqb ty "") && str_contains "analysis" ty then
        match details with
        | JDict d => JDict (dict_pop d "checked_album_ids")
        | _ => details
        end
      else details
  | _ => details
  end.

Definition finish_response (r : Response) : Response :=
  with_details r
    (truncate_log_view
       (prune_checked_album_ids (r_task_type_from_db r) (r_details r))).

Definition json_is_str (j : json) (s : string) : bool :=
  match j with JStr v => String.eqb v s | _ => false end.

(** The endpoint: the response and the HTTP status, or the exception that
    leaves the handler. *)
Definition get_task_status_endpoint (now : Q) (id : string) (w : World)
  : res (Response * nat) :=
  let seeded :=
    match fetch (queue w) id with
    | Some job => response_from_job id job
    | None => Ok (initial_response id)
    end in
  match seeded with
  | Raise e => Raise e
  | Ok response =>
      match get_task_info_from_db now (store w) id with
      | Some db_task_info =>
          match augment_with_db db_task_info response with
          | Raise e => Raise e
          | Ok response' => Ok (finish_response response', 200)
          end
      | None =>
          if json_is_str (r_state response) "UNKNOWN"
          then Ok (response, 404)
          else Ok (finish_response response, 200)
      end
  end.

(** ** [get_last_overall_task_status_endpoint] and
       [get_active_tasks_endpoint] *)

Definition Qlt_bool (a b : Q) : bool := negb (Qle_bool b a).

(** [a] comes after [b] under [ORDER BY timestamp DESC]; NULL sorts first. *)
Definition sorts_after (a b : option Q) : bool :=
  match a, b with
  | Some x, Some y => Qlt_bool x y
  | Some _, None => true
  | None, _ => false
  end.

(** [ORDER BY timestamp DESC LIMIT 1]; among equal timestamps the row met
    first in the table is kept. *)
Fixpoint latest (rows : list Row) : option Row :=
  match rows with
  | [] => None
  | r :: rest =>
      match latest rest with
      | None => Some r
      | Some m => if sorts_after (timestamp r) (timestamp m) then Some m else Some r
      end
  end.

(** Truth value of a nullable float: NULL and 0.0 are false. *)
Definition time_truthy (t : option Q) : bool :=
  match t with Some v => negb (Qeq_bool v 0) | None => false end.

Record TaskView : Type := mkView {
  v_task_id : string;
  v_parent_task_id : option string;
  v_task_type : string;
  v_sub_type_identifier : option string;
  v_status : option string;
  v_progress : option Z;
  v_details : json;
  v_running_time_seconds : Q
}.

(** Lines 907-913 *)
Definition last_task_running_time (now : Q) (r : Row) : Q :=
  if time_truthy (start_time r) then
    match start_time r with
    | Some st =>
        let effective_end_time :=
          match end_time r with Some e => e | None => now end in
        max0 (effective_end_time - st)%Q
    | None => 0%Q
    end
  else 0%Q.

(** Lines 902-904: a decoding error leaves the raw text in place. *)
Definition last_task_details (dj : option json_text) : json :=
  match dj with
  | None => JNull
  | Some t =>
      if text_truthy t then
        match t with
        | Encoded j => j
        | Garbled raw => JStr raw
        end
      else match t with Garbled raw => JStr raw | Encoded j => j end
  end.

Inductive LastTask : Type :=
| NoPreviousMainTask
| LastTaskData (v : TaskView).

Definition get_last_overall_task_status_endpoint (now : Q) (s : Store)
  : LastTask * nat :=
  match latest (filter is_root s) with
  | Some row =>
      (LastTaskData
         {| v_task_id := task_id row;
            v_parent_task_id := None;
            v_task_type := task_type row;
            v_sub_type_identifier := None;
            v_status := status row;
            v_progress := progress row;
            v_details := truncate_log_view (last_task_details (details row));
            v_running_time_seconds := last_task_running_time now row |}, 200)
  | None => (NoPreviousMainTask, 200)
  end.

(** Every start time of the table is a reading of the clock: the column is
    only written by [save_task_status], with [time.time()] (lines 320 and
    341-357), a positive number of seconds. *)
Definition started_by_clock (s : Store) : Prop :=
  forall r st, In r s -> start_time r = Some st -> (0 < st)%Q.


(** Lines 956-959 *)
Definition active_task_running_time (now : Q) (r : Row) : Q :=
  if time_truthy (start_time r) then
    match start_time r with
    | Some st => max0 (now - st)%Q
    | None => 0%Q
    end
  else 0%Q.

(** ['params' in x] for a decoded value [x] *)
Definition contains_params (x : json) : res bool :=
  match x with
  | JDict d => Ok (dict_has d "params")
  | JList l => Ok (existsb (fun v => json_is_str v "params") l)
  | JStr s => Ok (str_contains "params" s)
  | _ => Raise TypeError
  end.

(** Lines 966-974: the keys removed from a decoded object. *)
Definition prune_active_details (d : dict) : res dict :=
  let d1 := dict_pop (dict_pop d "clustering_run_job_ids") "checked_album_ids" in
  match dict_get d1 "best_params" with
  | Some (JDict bp) =>
      match dict_get bp "clustering_method_config" with
      | Some (JDict cmc) =>
          match dict_get cmc "params" with
          | None => Raise KeyError
          | Some p =>
              match contains_params p with
              | Raise e => Raise e
              | Ok false => Ok d1
              | Ok true =>
                  match p with
                  | JDict pd =>
                      Ok (dict_set d1 "best_params"
                            (JDict (dict_set bp "clustering_method_config"
                                      (JDict (dict_set cmc "params"
                                                (JDict (dict_pop pd "initial_centroids")))))))
                  | _ => Ok d1
                  end
              end
          end
      | _ => Ok d1
      end
  | _ => Ok d1
  end.

(** Lines 961-977: only the decoding error has a handler. *)
Definition active_task_details (dj : option json_text) : res json :=
  match dj with
  | None => Ok JNull
  | Some t =>
      if text_truthy t then
        match t with
        | Garbled raw =>
            Ok (JDict [("raw_details", JStr raw);
                       ("error", JStr "Failed to parse details JSON.")])
        | Encoded (JDict d) =>
            match prune_active_details d with
            | Ok d' => Ok (JDict d')
            | Raise e => Raise e
            end
        | Encoded j => Ok j
        end
      else match t with Garbled raw => Ok (JStr raw) | Encoded j => Ok j end
  end.

Definition is_active_root (r : Row) : bool :=
  is_root r
  && status_in [TASK_STATUS_PENDING; TASK_STATUS_STARTED; TASK_STATUS_PROGRESS]
       (status r).

(** [None] is the empty object returned when no main task is active. *)
Definition get_active_tasks_endpoint (now : Q) (s : Store)
  : res (option TaskView * nat) :=
  match latest (filter is_active_root s) with
  | Some row =>
      match active_task_details (details row) with
      | Raise e => Raise e
      | Ok d =>
          Ok (Some {| v_task_id := task_id row;
                      v_parent_task_id := parent_task_id row;
                      v_task_type := task_type row;
                      v_sub_type_identifier := sub_type_identifier row;
                      v_status := status row;
                      v_progress := progress row;
                      v_details := d;
                      v_running_time_seconds := active_task_running_time now row |},
              200)
      end
  | None => Ok (None, 200)
  end.

(** ** [cancel_job_and_children_recursive] *)

Inductive outcome (A : Type) : Type :=
| Done (a : A) (w : World)
| Raised (e : exn) (w : World)
| OutOfFuel.
Arguments Done {A} a w.
Arguments Raised {A} e w.
Arguments OutOfFuel {A}.

Definition PARENT_REVOKED_REASON : string :=
  "Cancelled due to parent task revocation.".

(** The arguments of the call of line 744. *)
Definition revoke_args (current_task_type reason : string) : SaveArgs :=
  {| a_task_type := current_task_type;
     a_status := TASK_STATUS_REVOKED;
     a_parent_task_id := None;
     a_sub_type_identifier := None;
     a_progress := 100%Z;
     a_details := Some (JDict [("message", JStr reason)]) |}.

(** Lines 747-769: the attempt to interrupt the job in the engine; the
    flag is [action_taken_in_rq]. *)
Definition interrupt_in_rq (q : Queue) (id : string) : bool * Queue :=
  match fetch q id with
  | None => (false, q)
  | Some job_rq =>
      if negb (is_finished job_rq) && negb (is_failed job_rq)
         && negb (is_canceled job_rq)
      then
        match (if is_started job_rq
               then send_stop_job_command q id
               else job_cancel q id) with
        | Ok q' => (true, q')
        | Raise _ => (false, q)
        end
      else (false, q)
  end.

(** The loop of lines 774-780 over the children fetched before it starts;
    [recurse] is the recursive call on one child. *)
Fixpoint cancel_children (recurse : string -> World -> outcome nat) (now : Q)
    (children_tasks : list Row) (cancelled_count : nat) (w : World)
  : outcome nat :=
  match children_tasks with
  | [] => Done cancelled_count w
  | child_task :: rest =>
      let child_job_id := task_id child_task in
      match get_task_info_from_db now (store w) child_job_id with
      | Some child_db_info =>
          if negb (status_terminal (status (ti_row child_db_info))) then
            match recurse child_job_id w with
            | Done n w' => cancel_children recurse now rest (cancelled_count + n) w'
            | Raised e w' => Raised e w'
            | OutOfFuel => OutOfFuel
            end
          else cancel_children recurse now rest cancelled_count w
      | None => cancel_children recurse now rest cancelled_count w
      end
  end.

(** The routine. [fuel] bounds the depth of the recursion; [flt] tells
    which fault, if any, meets the status write of each job. *)
Fixpoint cancel_job_and_children_recursive (fuel : nat)
    (flt : string -> db_fault) (now sql_now : Q) (job_id : string)
    (task_type_from_db : option string) (reason : string) (w : World)
  : outcome nat :=
  match fuel with
  | O => OutOfFuel
  | S fuel' =>
      let db_task_info := get_task_info_from_db now (store w) job_id in
      let current_task_type :=
        match db_task_info with
        | Some info => Some (task_type (ti_row info))
        | None => task_type_from_db
        end in
      if negb (str_truthy current_task_type) then
        match fetch (queue w) job_id with
        | None => Done 0 w
        | Some _ =>
            match send_stop_job_command (queue w) job_id with
            | Ok q' => Done 1 {| store := store w; queue := q' |}
            | Raise e => Raised e w
            end
        end
      else
        let ttype := match current_task_type with Some t => t | None => "" end in
        let saved :=
          save_task_status (flt job_id) job_id (revoke_args ttype reason)
            now sql_now (store w) in
        let '(action_taken_in_rq, q') := interrupt_in_rq (queue w) job_id in
        let cancelled_count := if action_taken_in_rq then 1 else 0 in
        let children_tasks := get_child_tasks_from_db (so_store saved) job_id in
        cancel_children
          (fun child_job_id w' =>
             cancel_job_and_children_recursive fuel' flt now sql_now
               child_job_id None PARENT_REVOKED_REASON w')
          now children_tasks cancelled_count
          {| store := so_store saved; queue := q' |}
  end.

(** ** [cancel_task_endpoint] *)

Definition body_not_found (id : string) : dict :=
  [("message", JStr ("Task " ++ id ++ " not found in database.")%string);
   ("task_id", JStr id)].

Definition body_terminal (id : string) (st : option string) : dict :=
  [("message",
    JStr ("Task " ++ id ++ " is already in a terminal state ("
          ++ match st with Some v => v | None => "None" end
          ++ ") and cannot be cancelled.")%string);
   ("task_id", JStr id)].

Definition body_initiated (id : string) (cancelled_count : nat) : dict :=
  [("message",
    JStr ("Task " ++ id ++ " and its children cancellation initiated. "
          ++ nat_to_str cancelled_count ++ " total jobs affected.")%string);
   ("task_id", JStr id);
   ("cancelled_jobs_count", JInt (Z.of_nat cancelled_count))].

Definition body_could_not_cancel (id : string) : dict :=
  [("message",
    JStr "Task could not be cancelled (e.g., already completed or not found in active state).");
   ("task_id", JStr id)].

Definition cancel_task_endpoint (fuel : nat) (flt : string -> db_fault)
    (now sql_now : Q) (id : string) (w : World) : outcome (dict * nat) :=
  match get_task_info_from_db now (store w) id with
  | None => Done (body_not_found id, 404) w
  | Some db_task_info =>
      if status_terminal (status (ti_row db_task_info)) then
        Done (body_terminal id (status (ti_row db_task_info)), 400) w
      else
        match cancel_job_and_children_recursive fuel flt now sql_now id None
                ("Cancellation requested for task " ++ id ++ " via API.")%string
                w with
        | Done cancelled_count w' =>
            if Nat.ltb 0 cancelled_count
            then Done (body_initiated id cancelled_count, 200) w'
            else Done (body_could_not_cancel id, 400) w'
        | Raised e w' => Raised e w'
        | OutOfFuel => OutOfFuel
        end
  end.

(** ** Task trees

    The tree the cancellation walks is not a data structure of the program:
    it is read off the table, one [get_child_tasks_from_db] per node. A
    [tree] names such a shape so that statements can speak about it. *)

#[local] Unset Elimination Schemes.
Inductive tree : Type :=
| Node (id : string) (kids : list tree).
#[local] Set Elimination Schemes.

Definition root (t : tree) : string :=
  match t with Node id _ => id end.

Definition children (t : tree) : list tree :=
  match t with Node _ kids => kids end.

(** The subtrees of a tree in the order the walk meets them. *)
Fixpoint subtrees (t : tree) : list tree :=
  match t with
  | Node id kids => Node id kids :: flat_map subtrees kids
  end.

Definition nodes (t : tree) : list string := map root (subtrees t).

Fixpoint depth (t : tree) : nat :=
  match t with
  | Node _ kids => S (list_max (map depth kids))
  end.

(** The stored status of [id] is not terminal (the test of line 778). *)
Definition still_live (s : Store) (id : string) : bool :=
  match find_row s id with
  | Some r => negb (status_terminal (status r))
  | None => false
  end.

(** The task type of [id] can be resolved (the test of line 732). *)
Definition typed_row (s : Store) (id : string) : bool :=
  match find_row s id with
  | Some r => negb (String.eqb (task_type r) "")
  | None => false
  end.

(** The children of [id] the loop of lines 774-780 recurses into. *)
Definition live_children (s : Store) (id : string) : list string :=
  filter (still_live s) (map task_id (get_child_tasks_from_db s id)).

Definition ids_eqb (a b : list string) : bool :=
  if list_eq_dec string_dec a b then true else false.

Definition live_node (s : Store) (t : tree) : bool :=
  typed_row s (root t) && still_live s (root t)
  && ids_eqb (live_children s (root t)) (map root (children t)).

(** [t] is the tree of the tasks stored under its root: every node has a
    row with a task type and a non-terminal status, and the children of a
    node are exactly its stored children with a non-terminal status, in
    table order. *)
Definition live_tree (s : Store) (t : tree) : bool :=
  forallb (live_node s) (subtrees t).

(** Every stored child of every node is in the tree: no child was left out
    for being terminal. *)
Definition whole_tree (s : Store) (t : tree) : bool :=
  forallb (fun n => ids_eqb (map task_id (get_child_tasks_from_db s (root n)))
                      (map root (children n)))
    (subtrees t).

(** *** What the walk amounts to, node by node *)

(** The status write of one visited node. *)
Definition mark (flt : string -> db_fault) (now sql_now : Q) (reason : string)
    (s : Store) (id : string) : Store :=
  match find_row s id with
  | Some r =>
      so_store (save_task_status (flt id) id
                  (revoke_args (task_type r) reason) now sql_now s)
  | None => s
  end.

Definition visit (flt : string -> db_fault) (now sql_now : Q) (reason : string)
    (w : World) (id : string) : World :=
  {| store := mark flt now sql_now reason (store w) id;
     queue := snd (interrupt_in_rq (queue w) id) |}.

(** The root is revoked with the caller's reason, every other node with
    the reason of line 780. *)
Definition revoke_tree (flt : string -> db_fault) (now sql_now : Q)
    (reason : string) (w : World) (t : tree) : World :=
  fold_left (visit flt now sql_now PARENT_REVOKED_REASON) (tl (nodes t))
    (visit flt now sql_now reason w (root t)).

(** A command reaches the job of [id]: the job exists, is in none of the
    engine's terminal states and accepts the command. *)
Definition commandable (q : Queue) (id : string) : bool :=
  match fetch q id with
  | Some j =>
      negb (is_finished j) && negb (is_failed j) && negb (is_canceled j)
      && accepts_commands j
  | None => false
  end.

Definition reason_of (reason : string) (t : tree) (id : string) : string :=
  if String.eqb id (root t) then reason else PARENT_REVOKED_REASON.

Definition no_fault (_ : string) : db_fault := NoFault.

(** The row of a task the cancellation has written. *)
Definition revoked_with (reason : string) (r : Row) : Prop :=
  status r = Some TASK_STATUS_REVOKED /\
  progress r = Some 100%Z /\
  details r = Some (Encoded (JDict [("message", JStr reason)])).

(** Structural induction on trees. *)
Fixpoint tree_induction (P : tree -> Prop)
    (step : forall id kids, Forall P kids -> P (Node id kids)) (t : tree)
  : P t :=
  match t with
  | Node id kids =>
      step id kids
        ((fix all (l : list tree) : Forall P l :=
            match l with
            | [] => Forall_nil P
            | k :: l' => Forall_cons k (tree_induction P step k) (all l')
            end) kids)
  end.

(** The number of commands issued along a list of visits. *)
Fixpoint issued_along (q : Queue) (ids : list string) : nat :=
  match ids with
  | [] => 0
  | id :: rest =>
      (if fst (interrupt_in_rq q id) then 1 else 0)
      + issued_along (snd (interrupt_in_rq q id)) rest
  end.

(** The command the routine sends to a commandable job: stop when it has
    started, cancel otherwise (lines 754-757). *)
Definition command_for (q : Queue) (id : string) : command :=
  match fetch q id with
  | Some j => if is_started j then StopJob id else CancelJob id
  | None => CancelJob id
  end.

Definition commands_for (q : Queue) (ids : list string) : list command :=
  map (command_for q) (filter (commandable q) ids).

(** ** Sequences of status writes *)

Record SaveCall : Type := mkCall {
  c_args : SaveArgs;
  c_now : Q;
  c_sql_now : Q
}.

(** The table after the calls of [calls] on [id], none of them meeting a
    store fault. *)
Definition save_all (id : string) (calls : list SaveCall) (s : Store) : Store :=
  fold_left
    (fun s c =>
       so_store (save_task_status NoFault id (c_args c) (c_now c)
                   (c_sql_now c) s))
    calls s.

Definition stored_start_time (s : Store) (id : string) : option Q :=
  match find_row s id with Some r => start_time r | None => None end.

Definition stored_end_time (s : Store) (id : string) : option Q :=
  match find_row s id with Some r => end_time r | None => None end.

(** The clock of the first call whose status is terminal. *)
Fixpoint first_terminal (calls : list SaveCall) : option Q :=
  match calls with
  | [] => None
  | c :: rest =>
      if is_terminal (a_status (c_args c)) then Some (c_now c)
      else first_terminal rest
  end.

(** The [details] a call persists for [id]. *)
Definition persisted_details (s : Store) (id : string) : option json_text :=
  match find_row s id with Some r => details r | None => None end.

(** ** The sweep, row by row *)

(** The details of a row decode to an object when they decode at all. *)
Definition details_wellformed (dj : option json_text) : bool :=
  match dj with
  | Some (Encoded (JDict _)) => true
  | Some (Encoded _) => false
  | _ => true
  end.

Definition sweepable (s : Store) : bool :=
  forallb (fun r => negb (archivable r) || details_wellformed (details r)) s.

(** What the sweep makes of one row it selects. *)
Definition archived_row (py_str : json -> string) (sql_now : Q) (r : Row)
  : Row :=
  match status r with
  | Some original_status =>
      match original_status_message py_str original_status (details r) with
      | Ok summary =>
          {| task_id := task_id r;
             parent_task_id := parent_task_id r;
             task_type := task_type r;
             sub_type_identifier := sub_type_identifier r;
             status := Some TASK_STATUS_REVOKED;
             progress := Some 100%Z;
             details := Some (json_dumps
                                (archived_details original_status summary));
             timestamp := Some sql_now;
             start_time := start_time r;
             end_time := end_time r |}
      | Raise _ => r
      end
  | None => r
  end.

(** [r] is the row of one of the selected tasks. *)
Definition selected (tasks : list Row) (r : Row) : bool :=
  existsb (fun tr => String.eqb (task_id r) (task_id tr)) tasks.

Definition sweep_row (py_str : json -> string) (sql_now : Q) (r : Row) : Row :=
  if archivable r then archived_row py_str sql_now r else r.

(** ** Side conditions of the status reads *)

(** The stored details are NULL, empty, or the encoding of an object. *)
Definition details_object (dj : option json_text) : bool :=
  match db_details dj with
  | Ok (JDict _) => true
  | _ => false
  end.

(** The [details] of the job's metadata, when present, is an object. *)
Definition job_details_object (j : Job) : bool :=
  match dict_get_default (meta j) "details" (JDict []) with
  | JDict _ => true
  | _ => false
  end.

Definition live_details_object (q : Queue) (id : string) : bool :=
  match fetch q id with
  | Some j => job_details_object j
  | None => true
  end.

(** The job is in one of the engine's terminal states. *)
Definition job_final (j : Job) : bool :=
  is_finished j || is_failed j || is_canceled j.

(** The message lines 667-675 give to a terminal engine state. *)
Definition terminal_message (st : JobStatus.t) : string :=
  match st with
  | JobStatus.FINISHED => "SUCCESS"
  | JobStatus.FAILED => "FAILED"
  | JobStatus.CANCELED => "CANCELED"
  | other => JobStatus.value other
  end.

(** The row of [id], if any, is not REVOKED and has details that decode
    to an object. *)
Definition plain_row (s : Store) (id : string) : bool :=
  match find_row s id with
  | Some r =>
      details_object (details r)
      && negb (status_in [TASK_STATUS_REVOKED] (status r))
  | None => true
  end.

(** ** Sample tables and queues *)

Definition sample_row (id : string) (parent : option string) (ty st : string)
  : Row :=
  {| task_id := id;
     parent_task_id := parent;
     task_type := ty;
     sub_type_identifier := None;
     status := Some st;
     progress := Some 40%Z;
     details := None;
     timestamp := Some (1000 # 1)%Q;
     start_time := Some (1000 # 1)%Q;
     end_time := None |}.

Definition sample_job (st : JobStatus.t) : Job :=
  {| job_status := st; meta := []; exc_info := None; accepts_commands := true |}.

(** A run [R] with sub-tasks [C1] and [C2] and a batch item [G] under
    [C1]; the engine still runs [R], has finished [C1], holds [G] in the
    queue and has forgotten [C2]. *)
Definition family_store : Store :=
  [sample_row "R" None "main_analysis" "PROGRESS";
   sample_row "C1" (Some "R") "album_analysis" "STARTED";
   sample_row "C2" (Some "R") "album_analysis" "PENDING";
   sample_row "G" (Some "C1") "album_analysis" "PENDING"].

Definition family_queue : Queue :=
  {| jobs := [("R", sample_job JobStatus.STARTED);
              ("C1", sample_job JobStatus.FINISHED);
              ("G", sample_job JobStatus.QUEUED)];
     sent := [] |}.

Definition family_world : World :=
  {| store := family_store; queue := family_queue |}.

Definition family_tree : tree :=
  Node "R" [Node "C1" [Node "G" []]; Node "C2" []].

(** The same run when the engine has forgotten all of its jobs. *)
Definition forgotten_world : World :=
  {| store := family_store; queue := {| jobs := []; sent := [] |} |}.

(** A run [R] whose sub-task [C] has succeeded while the item [G] under
    [C] is still pending; the engine holds none of the jobs. *)
Definition orphan_world : World :=
  {| store := [sample_row "R" None "main_clustering" "PROGRESS";
               sample_row "C" (Some "R") "clustering_batch" "SUCCESS";
               sample_row "G" (Some "C") "clustering_batch" "PENDING"];
     queue := {| jobs := []; sent := [] |} |}.

Definition log_lines (n : nat) : list json :=
  map (fun k => JStr ("line " ++ nat_to_str k)%string) (seq 1 n).

Definition progress_args (st : string) (log : list json) : SaveArgs :=
  {| a_task_type := "main_analysis";
     a_status := st;
     a_parent_task_id := None;
     a_sub_type_identifier := None;
     a_progress := 50%Z;
     a_details := Some (JDict [("log", JList log)]) |}.

Definition call_at (st : string) (t : Q) : SaveCall :=
  {| c_args := progress_args st []; c_now := t; c_sql_now := t |}.

(** The write of line 744 for the root of the sample run, met by a store
    that fails while executing the statement. *)
Definition execute_fails_on_R (id : string) : db_fault :=
  if String.eqb id "R" then ExecuteFails false else NoFault.

(** A [str()] for the sample tables: strings print as themselves. *)
Definition sample_str (j : json) : string :=
  match j with JStr s => s | _ => "?" end.

(** Two finished or stale runs, a failed one, and a sub-task. *)
Definition history_store : Store :=
  [sample_row "A" None "main_analysis" "SUCCESS";
   sample_row "B" None "main_clustering" "STARTED";
   sample_row "F" None "main_analysis" "FAILURE";
   sample_row "B1" (Some "B") "clustering_batch" "PROGRESS"].

(** [R] was revoked in the table while the engine still runs it. *)
Definition racing_world : World :=
  {| store := [sample_row "R" None "main_analysis" TASK_STATUS_REVOKED];
     queue := {| jobs := [("R", sample_job JobStatus.STARTED)]; sent := [] |} |}.

(** A job that failed in the engine and has no row in the table. *)
Definition failed_world : World :=
  {| store := [];
     queue := {| jobs := [("J", sample_job JobStatus.FAILED)]; sent := [] |} |}.

(** A job the engine has finished while its row says 40 percent. *)
Definition finished_world : World :=
  {| store := [sample_row "R" None "main_analysis" "PROGRESS"];
     queue := {| jobs := [("R", sample_job JobStatus.FINISHED)]; sent := [] |} |}.

(** An active run whose details column holds a text that is not JSON. *)
Definition garbled_row : Row :=
  {| task_id := "R";
     parent_task_id := None;
     task_type := "main_analysis";
     sub_type_identifier := None;
     status := Some "PROGRESS";
     progress := Some 40%Z;
     details := Some (Garbled "{'log': ['step 1'");
     timestamp := Some (1000 # 1)%Q;
     start_time := Some (1000 # 1)%Q;
     end_time := None |}.

Definition garbled_world : World :=
  {| store := [garbled_row]; queue := {| jobs := []; sent := [] |} |}.

(** A finished run whose start time is the epoch itself. *)
Definition epoch_row : Row :=
  {| task_id := "E";
     parent_task_id := None;
     task_type := "main_analysis";
     sub_type_identifier := None;
     status := Some "SUCCESS";
     progress := Some 100%Z;
     details := None;
     timestamp := Some (5 # 1)%Q;
     start_time := Some 0%Q;
     end_time := Some (5 # 1)%Q |}.

From Stdlib Require Import Permutation.

(** ** Cancellation on an arbitrary table *)

(** The rows whose status is not terminal. *)
Definition count_live (s : Store) : nat :=
  List.length (filter (fun r => negb (status_terminal (status r))) s).

(** The world a call leaves behind, whether it returns or raises. *)
Definition world_after {A : Type} (o : outcome A) (w : World) : World :=
  match o with
  | Done _ w' => w'
  | Raised _ w' => w'
  | OutOfFuel => w
  end.

(** Every row is still there, with its task type, and with the status it
    had or REVOKED. *)
Definition revokes_only (s s' : Store) : Prop :=
  forall y r,
    find_row s y = Some r ->
    exists r',
      find_row s' y = Some r'
      /\ task_type r' = task_type r
      /\ (status r' = status r \/ status r' = Some TASK_STATUS_REVOKED).

(** No row has an empty task type. *)
Definition typed_store (s : Store) : bool :=
  forallb (fun r => negb (String.eqb (task_type r) "")) s.

(** The row the REVOKED write of line 744 leaves for a task that had [r]. *)
Definition revoked_row (now sql_now : Q) (reason : string) (r : Row) : Row :=
  update_row None None TASK_STATUS_REVOKED 100
    (Some (Encoded (JDict [("message", JStr reason)]))) now sql_now r.

(** What a cancellation keeps of a world, the tasks of [skip] apart: rows
    only move to REVOKED, a task whose status was terminal (or that had no
    row) keeps its row as it was, the number of live rows does not grow,
    task types stay non-empty, and the metadata of the jobs is not
    touched. *)
Definition kept (skip : list string) (w w' : World) : Prop :=
  revokes_only (store w) (store w')
  /\ (forall y, ~ In y skip -> still_live (store w) y = false ->
                find_row (store w') y = find_row (store w) y)
  /\ count_live (store w') <= count_live (store w)
  /\ (typed_store (store w) = true -> typed_store (store w') = true)
  /\ (forall y, option_map meta (fetch (queue w') y)
                = option_map meta (fetch (queue w) y)).

(** The count a call returns is the number of commands it has sent. *)
Definition counts_sent (base : nat) (w : World) (o : outcome nat) : Prop :=
  match o with
  | Done n w' =>
      List.length (sent (queue w')) + base = List.length (sent (queue w)) + n
  | _ => True
  end.

(** ** [cancel_all_tasks_by_type_endpoint] *)

(** [WHERE task_type = %s AND status NOT IN %s] of line 867: a NULL status
    is not selected. *)
Definition bulk_selected (task_type_prefix : string) (r : Row) : bool :=
  String.eqb (task_type r) task_type_prefix
  && match status r with
     | Some v => negb (is_terminal v)
     | None => false
     end.

(** The loop of lines 873-877 with its two accumulators. *)
Fixpoint cancel_all_loop (fuel : nat) (flt : string -> db_fault)
    (now sql_now : Q) (reason : string) (tasks_to_cancel : list Row)
    (total_cancelled_jobs : nat) (cancelled_main_task_ids : list string)
    (w : World) : outcome (nat * list string) :=
  match tasks_to_cancel with
  | [] => Done (total_cancelled_jobs, cancelled_main_task_ids) w
  | task_row :: rest =>
      match cancel_job_and_children_recursive fuel flt now sql_now
              (task_id task_row) None reason w with
      | Done n w' =>
          if Nat.ltb 0 n
          then cancel_all_loop fuel flt now sql_now reason rest
                 (total_cancelled_jobs + n)
                 (cancelled_main_task_ids ++ [task_id task_row]) w'
          else cancel_all_loop fuel flt now sql_now reason rest
                 total_cancelled_jobs cancelled_main_task_ids w'
      | Raised e w' => Raised e w'
      | OutOfFuel => OutOfFuel
      end
  end.

Definition body_bulk_initiated (task_type_prefix : string) (ids : list string)
    (total : nat) : dict :=
  [("message",
    JStr ("Cancellation initiated for " ++ nat_to_str (List.length ids)
          ++ " main tasks of type '" ++ task_type_prefix
          ++ "' and their children. Total jobs affected: "
          ++ nat_to_str total ++ ".")%string);
   ("cancelled_main_tasks", JList (map JStr ids))].

Definition body_bulk_none (task_type_prefix : string) : dict :=
  [("message",
    JStr ("No active tasks of type '" ++ task_type_prefix
          ++ "' found to cancel.")%string)].

Definition cancel_all_tasks_by_type_endpoint (fuel : nat)
    (flt : string -> db_fault) (now sql_now : Q) (task_type_prefix : string)
    (w : World) : outcome (dict * nat) :=
  let tasks_to_cancel := filter (bulk_selected task_type_prefix) (store w) in
  match cancel_all_loop fuel flt now sql_now
          ("Bulk cancellation for task type '" ++ task_type_prefix
           ++ "' via API.")%string
          tasks_to_cancel 0 [] w with
  | Done (total_cancelled_jobs, cancelled_main_task_ids) w' =>
      if Nat.ltb 0 total_cancelled_jobs
      then Done (body_bulk_initiated task_type_prefix cancelled_main_task_ids
                   total_cancelled_jobs, 200) w'
      else Done (body_bulk_none task_type_prefix, 404) w'
  | Raised e w' => Raised e w'
  | OutOfFuel => OutOfFuel
  end.

(** ** Sample tables for the further properties *)

(** Two tasks that name each other as parent. *)
Definition knot_world : World :=
  {| store := [sample_row "A" (Some "B") "main_analysis" "STARTED";
               sample_row "B" (Some "A") "album_analysis" "PENDING"];
     queue := {| jobs := [("A", sample_job JobStatus.STARTED);
                          ("B", sample_job JobStatus.QUEUED)];
                 sent := [] |} |}.

(** Two analysis runs and a clustering run, none with a job left in the
    engine. *)
Definition bulk_world : World :=
  {| store := [sample_row "M1" None "main_analysis" "PROGRESS";
               sample_row "M2" None "main_analysis" "PENDING";
               sample_row "K" None "main_clustering" "STARTED";
               sample_row "M0" None "main_analysis" "SUCCESS"];
     queue := {| jobs := []; sent := [] |} |}.

(** ** The log as the status views show it *)

Definition log_summary (dropped : nat) : json :=
  JStr ("... (" ++ nat_to_str dropped ++ " earlier log entries truncated)")%string.

(** What lines 709-715 make of the value under the key [log]. *)
Definition view_log (v : option json) : option json :=
  match v with
  | Some (JList log_entries) =>
      if Nat.ltb 10 (List.length log_entries)
      then Some (JList (log_summary (List.length log_entries - 10)
                        :: last_n 10 log_entries))
      else v
  | _ => v
  end.

(** The keys of a dict are distinct. *)
Definition unique_keys (d : dict) : Prop := NoDup (map fst d).

(** The value [{**stored, **live}] holds under a key. *)
Definition merged_get (stored live : dict) (k : string) : option json :=
  match dict_get live k with
  | Some v => Some v
  | None => dict_get stored k
  end.

(** A run the engine is executing: the job reports twelve log lines and
    the album it is at, the row the first three lines and the total. *)
Definition polling_world : World :=
  {| store :=
       [{| task_id := "P";
           parent_task_id := None;
           task_type := "main_clustering";
           sub_type_identifier := None;
           status := Some "PROGRESS";
           progress := Some 25%Z;
           details := Some (Encoded (JDict [("log", JList (log_lines 3));
                                            ("total", JInt 80)]));
           timestamp := Some (1000 # 1)%Q;
           start_time := Some (1000 # 1)%Q;
           end_time := None |}];
     queue :=
       {| jobs := [("P", {| job_status := JobStatus.STARTED;
                            meta := [("progress", JInt 30);
                                     ("details",
                                      JDict [("log", JList (log_lines 12));
                                             ("current_album", JStr "X")])];
                            exc_info := None;
                            accepts_commands := true |})];
          sent := [] |} |}.

(** A stale run: started, never ended. *)
Definition stale_store : Store :=
  [sample_row "S" None "main_analysis" "STARTED";
   sample_row "D" None "main_clustering" "SUCCESS"].

(** A table one of whose finished runs has a list for details. *)
Definition stray_store : Store :=
  [sample_row "A" None "main_analysis" "STARTED";
   {| task_id := "L";
      parent_task_id := None;
      task_type := "main_analysis";
      sub_type_identifier := None;
      status := Some "SUCCESS";
      progress := Some 100%Z;
      details := Some (Encoded (JList [JStr "done"]));
      timestamp := Some (900 # 1)%Q;
      start_time := Some (800 # 1)%Q;
      end_time := Some (900 # 1)%Q |}].

(** ** The track tables: [score] and [embedding] *)

Record Score : Type := mkScore {
  item_id : string;
  title : option string;
  author : option string;
  tempo : option Q;
  key : option string;
  scale : option string;
  mood_vector : option string;
  energy : option Q;
  other_features : option string
}.

(** [s.replace('\x00', '')] *)
Fixpoint remove_nul (s : string) : string :=
  match s with
  | EmptyString => EmptyString
  | String c rest =>
      if Ascii.eqb c Ascii.zero then remove_nul rest
      else String c (remove_nul rest)
  end.

(** [x.replace('\x00', '') if x else x] *)
Definition sanitize (x : option string) : option string :=
  match x with
  | Some s => if String.eqb s "" then Some s else Some (remove_nul s)
  | None => None
  end.

(** [WHERE s.item_id IN %s] *)
Definition id_in (ids : list string) (s : Score) : bool :=
  existsb (String.eqb (item_id s)) ids.

(** What the store does during a read: [ConnectFails] makes [get_db] raise,
    [QueryFails] makes [cur.execute] raise. *)
Inductive read_fault : Type :=
| ReadOk
| ConnectFails
| QueryFails.

(** [get_score_data_by_ids]: [None] is an exception leaving the function
    (line 544 is outside the [try]); an error of the query is logged and
    gives the empty list. *)
Definition get_score_data_by_ids (flt : read_fault)
    (item_ids_list : list string) (scores : list Score)
  : option (list Score) :=
  match item_ids_list with
  | [] => Some []
  | _ =>
      match flt with
      | ConnectFails => None
      | QueryFails => Some []
      | ReadOk => Some (filter (id_in item_ids_list) scores)
      end
  end.

Fixpoint upsert_score (new : Score) (scores : list Score) : list Score :=
  match scores with
  | [] => [new]
  | s :: rest =>
      if String.eqb (item_id s) (item_id new) then new :: rest
      else s :: upsert_score new rest
  end.

Section Tracks.

(** The numpy array handed in, its [size], and the bytes
    [astype(np.float32).tobytes()] makes of it; [fmt3] is [f"{v:.3f}"];
    [to_real] is the value a REAL column keeps of the number written to it
    (lines 133 and 150: [tempo] and [energy] are single precision). All of
    them belong to libraries and the database and are taken as given. *)
Variables ndarray bytes : Type.
Variable size : ndarray -> nat.
Variable tobytes : ndarray -> bytes.
Variable fmt3 : Q -> string.
Variable to_real : Q -> Q.

Record Embedding : Type := mkEmbedding {
  e_item_id : string;
  embedding : option bytes
}.

Record Library : Type := mkLibrary {
  scores : list Score;
  embeddings : list Embedding
}.

Fixpoint upsert_embedding (new : Embedding) (l : list Embedding)
  : list Embedding :=
  match l with
  | [] => [new]
  | e :: rest =>
      if String.eqb (e_item_id e) (e_item_id new) then new :: rest
      else e :: upsert_embedding new rest
  end.

(** Line 447 *)
Definition mood_str (moods : list (string * Q)) : string :=
  String.concat ","
    (map (fun kv => (fst kv ++ ":" ++ fmt3 (snd kv))%string) moods).

Record TrackArgs : Type := mkTrack {
  t_item_id : string;
  t_title : option string;
  t_author : option string;
  t_tempo : option Q;
  t_key : option string;
  t_scale : option string;
  t_moods : list (string * Q);
  t_embedding_vector : option ndarray;
  t_energy : option Q;
  t_other_features : option string
}.

Inductive track_saved : Type :=
| Saved (l : Library)
| SaveRaised (l : Library).

(** [save_track_analysis_and_embedding]: both statements and the commit in
    one transaction; when the store fails (at [fails]) the transaction is
    rolled back and the exception raised again. *)
Definition save_track_analysis_and_embedding (fails : bool) (a : TrackArgs)
    (l : Library) : track_saved :=
  let row :=
    {| item_id := t_item_id a;
       title := sanitize (t_title a);
       author := sanitize (t_author a);
       tempo := option_map to_real (t_tempo a);
       key := sanitize (t_key a);
       scale := sanitize (t_scale a);
       mood_vector := Some (mood_str (t_moods a));
       energy := option_map to_real (t_energy a);
       other_features := sanitize (t_other_features a) |} in
  if fails then SaveRaised l
  else
    Saved
      {| scores := upsert_score row (scores l);
         embeddings :=
           match t_embedding_vector a with
           | Some v =>
               if Nat.ltb 0 (size v)
               then upsert_embedding
                      {| e_item_id := t_item_id a;
                         embedding := Some (tobytes v) |}
                      (embeddings l)
               else embeddings l
           | None => embeddings l
           end |}.

Definition filled (x : option string) : bool :=
  match x with Some s => negb (String.eqb s "") | None => false end.

Definition present {A : Type} (x : option A) : bool :=
  match x with Some _ => true | None => false end.

(** The WHERE clause of lines 428-432 on one row of [score]. *)
Definition analyzed (id : string) (s : Score) : bool :=
  String.eqb (item_id s) id
  && filled (other_features s) && present (energy s)
  && filled (mood_vector s) && present (tempo s).

(** [track_exists]: the join of lines 425-433 gives a row. *)
Definition track_exists (l : Library) (id : string) : bool :=
  existsb
    (fun s => analyzed id s
              && existsb (fun e => String.eqb (item_id s) (e_item_id e))
                   (embeddings l))
    (scores l).

End Tracks.

Arguments e_item_id {bytes} _.
Arguments embedding {bytes} _.
Arguments scores {bytes} _.
Arguments embeddings {bytes} _.
Arguments mkLibrary {bytes} _ _.
Arguments mkEmbedding {bytes} _ _.
Arguments Saved {bytes} _.
Arguments SaveRaised {bytes} _.
Arguments track_exists {bytes} _ _.
Arguments upsert_embedding {bytes} _ _.
Arguments save_track_analysis_and_embedding {ndarray bytes} _ _ _ _ _ _ _.
Arguments mkTrack {ndarray} _ _ _ _ _ _ _ _ _ _.
Arguments t_item_id {ndarray} _.
Arguments t_title {ndarray} _.
Arguments t_author {ndarray} _.
Arguments t_tempo {ndarray} _.
Arguments t_key {ndarray} _.
Arguments t_scale {ndarray} _.
Arguments t_moods {ndarray} _.
Arguments t_embedding_vector {ndarray} _.
Arguments t_energy {ndarray} _.
Arguments t_other_features {ndarray} _.

(** ** [generate_sonic_fingerprint_endpoint] *)

Record Neighbor : Type := mkNeighbor {
  n_item_id : string;
  n_distance : Q
}.

Record Config : Type := mkConfig {
  MEDIASERVER_TYPE : string;
  JELLYFIN_USER_ID : string;
  JELLYFIN_TOKEN : string;
  NAVIDROME_USER : string;
  NAVIDROME_PASSWORD : string
}.

(** The query string: [n] as [request.args.get('n', type=int)] reads it. *)
Record Request : Type := mkRequest {
  arg_n : option Z;
  args : list (string * string)
}.

Fixpoint args_get (l : list (string * string)) (k : string) : option string :=
  match l with
  | [] => None
  | (k', v) :: rest => if String.eqb k k' then Some v else args_get rest k
  end.

(** [x or default] *)
Definition or_config (x : option string) (default : string) : string :=
  match x with
  | Some s => if String.eqb s "" then default else s
  | None => default
  end.

Definition opt_str (x : option string) : json :=
  match x with Some s => JStr s | None => JNull end.

(** [{d['item_id']: d for d in details_list}[res_id]]: the last row wins. *)
Definition details_map_get (details_list : list Score) (res_id : string)
  : option Score :=
  find (fun d => String.eqb (item_id d) res_id) (rev details_list).

(** [{r['item_id']: r['distance'] for r in fingerprint_results}[res_id]] *)
Definition distance_map_get (fingerprint_results : list Neighbor)
    (res_id : string) : option Q :=
  option_map n_distance
    (find (fun r => String.eqb (n_item_id r) res_id)
       (rev fingerprint_results)).

Definition fingerprint_entry (track_info : Score) (distance : Q) : json :=
  JDict [("item_id", JStr (item_id track_info));
         ("title", opt_str (title track_info));
         ("author", opt_str (author track_info));
         ("distance", JFloat distance)].

(** Lines 168-177; [None] is the KeyError of a missing distance. *)
Fixpoint final_results (details_list : list Score)
    (fingerprint_results : list Neighbor) (result_ids : list string)
  : option (list json) :=
  match result_ids with
  | [] => Some []
  | res_id :: rest =>
      match details_map_get details_list res_id with
      | Some track_info =>
          match distance_map_get fingerprint_results res_id with
          | Some distance =>
              match final_results details_list fingerprint_results rest with
              | Some l => Some (fingerprint_entry track_info distance :: l)
              | None => None
              end
          | None => None
          end
      | None => final_results details_list fingerprint_results rest
      end
  end.

Definition error_body (msg : string) : json := JDict [("error", JStr msg)].

Definition UNEXPECTED_ERROR : json * nat :=
  (error_body
     "An unexpected error occurred while generating the sonic fingerprint.",
   500).

Section SonicFingerprint.

Variable cfg : Config.

(** [tasks.mediaserver.resolve_jellyfin_user] and
    [tasks.sonic_fingerprint_manager.generate_sonic_fingerprint] are not in
    the files at hand: any functions, the outer [None] standing for an
    exception. *)
Variable resolve_jellyfin_user : string -> string -> option (option string).
Variable generate_sonic_fingerprint :
  option Z -> list (string * string) -> option (list Neighbor).

(** Lines 125-152: the response that ends the request, or [user_creds]. *)
Definition user_credentials (req : Request)
  : (json * nat) + list (string * string) :=
  if String.eqb (MEDIASERVER_TYPE cfg) "jellyfin" then
    match args_get (args req) "jellyfin_user_identifier" with
    | None => inl (error_body "Jellyfin User Identifier is required.", 400)
    | Some user_identifier =>
        if String.eqb user_identifier "" then
          inl (error_body "Jellyfin User Identifier is required.", 400)
        else
          let token :=
            or_config (args_get (args req) "jellyfin_token")
              (JELLYFIN_TOKEN cfg) in
          if String.eqb token "" then
            inl (error_body
                   "Jellyfin API Token is required. Please set it in the server configuration.",
                 400)
          else
            match resolve_jellyfin_user user_identifier token with
            | None => inl UNEXPECTED_ERROR
            | Some None =>
                inl (error_body
                       ("Could not resolve Jellyfin user '" ++ user_identifier
                        ++ "'.")%string,
                     400)
            | Some (Some resolved_user_id) =>
                if String.eqb resolved_user_id "" then
                  inl (error_body
                         ("Could not resolve Jellyfin user '"
                          ++ user_identifier ++ "'.")%string,
                       400)
                else inr [("user_id", resolved_user_id); ("token", token)]
            end
    end
  else if String.eqb (MEDIASERVER_TYPE cfg) "navidrome" then
    let user :=
      or_config (args_get (args req) "navidrome_user") (NAVIDROME_USER cfg) in
    let password :=
      or_config (args_get (args req) "navidrome_password")
        (NAVIDROME_PASSWORD cfg) in
    if String.eqb user "" || String.eqb password "" then
      inl (error_body
             "Navidrome username and password are required. Please set them in the server configuration.",
           400)
    else inr [("user", user); ("password", password)]
  else inr [].

Definition generate_sonic_fingerprint_endpoint (flt : read_fault)
    (scores : list Score) (req : Request) : json * nat :=
  let num_results := arg_n req in
  match user_credentials req with
  | inl response => response
  | inr user_creds =>
      match generate_sonic_fingerprint num_results user_creds with
      | None => UNEXPECTED_ERROR
      | Some [] => (JList [], 200)
      | Some fingerprint_results =>
          let result_ids := map n_item_id fingerprint_results in
          match get_score_data_by_ids flt result_ids scores with
          | None => UNEXPECTED_ERROR
          | Some details_list =>
              match final_results details_list fingerprint_results
                      result_ids with
              | Some l => (JList l, 200)
              | None => UNEXPECTED_ERROR
              end
          end
      end
  end.

End SonicFingerprint.

(** ** The [playlist] table *)

(** The serial [id] column is never read by the code and is left out. *)
Record PlaylistRow : Type := mkPlaylistRow {
  playlist_name : string;
  p_item_id : string;
  p_title : option string;
  p_author : option string
}.

Definition track : Type := (string * option string * option string)%type.

(** [ON CONFLICT (playlist_name, item_id)] *)
Definition conflicts (name item : string) (r : PlaylistRow) : bool :=
  String.eqb (playlist_name r) name && String.eqb (p_item_id r) item.

(** Line 570 *)
Definition insert_track (name : string) (t : list PlaylistRow) (tr : track)
  : list PlaylistRow :=
  let '(item, ti, au) := tr in
  if existsb (conflicts name item) t then t
  else t ++ [{| playlist_name := name; p_item_id := item;
                p_title := ti; p_author := au |}].

(** Lines 568-570 *)
Definition insert_playlists (playlists : list (string * list track))
    (t : list PlaylistRow) : list PlaylistRow :=
  fold_left
    (fun acc nc => fold_left (insert_track (fst nc)) (snd nc) acc)
    playlists t.

(** [update_playlist_table]: the table afterwards. When the store fails the
    transaction is rolled back, the error logged and the call returns as
    usual. *)
Definition update_playlist_table (fails : bool)
    (playlists : list (string * list track)) (t : list PlaylistRow)
  : list PlaylistRow :=
  if fails then t else insert_playlists playlists [].

Definition track_json (r : PlaylistRow) : json :=
  JDict [("item_id", JStr (p_item_id r));
         ("title", opt_str (p_title r));
         ("author", opt_str (p_author r))].

(** [playlists_data[name].append(x)] on a defaultdict of lists *)
Fixpoint append_to (d : list (string * list json)) (name : string) (x : json)
  : list (string * list json) :=
  match d with
  | [] => [(name, [x])]
  | (k, l) :: rest =>
      if String.eqb k name then (k, l ++ [x]) :: rest
      else (k, l) :: append_to rest name x
  end.

Section Playlists.

(** [ORDER BY playlist_name, title] under the collation of the database. *)
Variable order_by_name_title : list PlaylistRow -> list PlaylistRow.

(** [get_playlists_endpoint]: the object sent, name by name. *)
Definition get_playlists_endpoint (t : list PlaylistRow)
  : list (string * list json) * nat :=
  (fold_left (fun d row => append_to d (playlist_name row) (track_json row))
     (order_by_name_title t) [],
   200).

End Playlists.

(** The first track of every item id, as the conflict clause keeps it. *)
Fixpoint first_of_each (seen : list string) (cluster : list track)
  : list track :=
  match cluster with
  | [] => []
  | (item, ti, au) :: rest =>
      if existsb (String.eqb item) seen then first_of_each seen rest
      else (item, ti, au) :: first_of_each (item :: seen) rest
  end.

(** ** [listen_for_index_reloads] *)

(** A message of the subscription: its type and, for a payload, the text
    [decode('utf-8')] gives ([None] when the bytes are not UTF-8). *)
Record Message : Type := mkMessage {
  m_type : string;
  m_data : option string
}.

Inductive reload_event : Type :=
| Reloaded
| ReloadFailed.

(** The state of the listener thread: the reloads it has attempted and
    whether it is still running. *)
Record Listener : Type := mkListener {
  reloads : list reload_event;
  running : bool
}.

Section IndexReloads.

(** [load_voyager_index_for_querying(force_reload=True)] at its n-th call:
    [false] when it raises. *)
Variable load_voyager_index_for_querying : nat -> bool.

(** One turn of the loop of lines 1049-1063. *)
Definition listen_step (l : Listener) (message : Message) : Listener :=
  if running l then
    if String.eqb (m_type message) "message" then
      match m_data message with
      | None => {| reloads := reloads l; running := false |}
      | Some message_data =>
          if String.eqb message_data "reload" then
            {| reloads :=
                 reloads l ++
                 [if load_voyager_index_for_querying (List.length (reloads l))
                  then Reloaded else ReloadFailed];
               running := true |}
          else l
      end
    else l
  else l.

Definition listen_for_index_reloads (messages : list Message) : Listener :=
  fold_left listen_step messages {| reloads := []; running := true |}.

End IndexReloads.

Definition is_reload (m : Message) : bool :=
  String.eqb (m_type m) "message"
  && match m_data m with
     | Some d => String.eqb d "reload"
     | None => false
     end.

Definition undecodable (m : Message) : bool :=
  String.eqb (m_type m) "message"
  && match m_data m with Some _ => false | None => true end.

(** ** Vocabulary of the further properties *)

Fixpoint has_nul (s : string) : bool :=
  match s with
  | EmptyString => false
  | String c rest => Ascii.eqb c Ascii.zero || has_nul rest
  end.

Definition nul_free (x : option string) : bool :=
  match x with Some s => negb (has_nul s) | None => true end.

(** A column holds its argument without NUL characters, and the argument
    itself when it had none. *)
Definition clean_copy (arg col : option string) : Prop :=
  nul_free col = true /\ (nul_free arg = true -> col = arg).

Definition is_nil {A : Type} (l : list A) : bool :=
  match l with [] => true | _ => false end.

Definition has_embedding {bytes : Type} (l : Library bytes) (id : string)
  : bool :=
  existsb (fun e => String.eqb id (e_item_id e)) (embeddings l).

Definition non_empty_array {ndarray : Type} (size : ndarray -> nat)
    (v : option ndarray) : bool :=
  match v with Some a => Nat.ltb 0 (size a) | None => false end.

(** The score row of an item id. *)
Definition score_of (scores : list Score) (id : string) : option Score :=
  find (fun s => String.eqb (item_id s) id) scores.

(** The entries of a ranking: every neighbour that has a score row, in the
    order of the ranking, with its own distance. *)
Definition ranked_entries (scores : list Score) (rs : list Neighbor)
  : list json :=
  flat_map
    (fun r =>
       match score_of scores (n_item_id r) with
       | Some s => [fingerprint_entry s (n_distance r)]
       | None => []
       end)
    rs.

Fixpoint listing_get (d : list (string * list json)) (name : string)
  : option (list json) :=
  match d with
  | [] => None
  | (k, l) :: rest => if String.eqb k name then Some l else listing_get rest name
  end.

Definition json_of_track (tr : track) : json :=
  let '(item, ti, au) := tr in
  JDict [("item_id", JStr item); ("title", opt_str ti); ("author", opt_str au)].

Definition by_name (name : string) (r : PlaylistRow) : bool :=
  String.eqb (playlist_name r) name.

Definition row_of (name : string) (tr : track) : PlaylistRow :=
  let '(item, ti, au) := tr in
  {| playlist_name := name; p_item_id := item; p_title := ti;
     p_author := au |}.

Definition event_of (load : nat -> bool) (i : nat) : reload_event :=
  if load i then Reloaded else ReloadFailed.

(** ** Sample data of the further properties *)

Definition sample_library : Library (list Z) :=
  {| scores :=
       [{| item_id := "t1"; title := Some "Old title"; author := None;
           tempo := None; key := None; scale := None; mood_vector := None;
           energy := None; other_features := None |};
        {| item_id := "t2"; title := Some "Other"; author := Some "B";
           tempo := Some (120 # 1); key := Some "C"; scale := Some "major";
           mood_vector := Some "rock:0.500"; energy := Some (1 # 2);
           other_features := Some "danceable:0.3" |}];
     embeddings := [{| e_item_id := "t2"; embedding := Some [1%Z] |}] |}.

Definition sample_track : TrackArgs (list Z) :=
  {| t_item_id := "t1";
     t_title := Some (String Ascii.zero "Song");
     t_author := Some "A";
     t_tempo := Some (98 # 1);
     t_key := Some "D";
     t_scale := Some "minor";
     t_moods := [("rock", 1 # 2); ("pop", 1 # 2)];
     t_embedding_vector := Some [3%Z; 4%Z];
     t_energy := Some (1 # 4);
     t_other_features := Some "danceable:0.7" |}.

Definition sample_fmt3 (q : Q) : string := "0.500".

(** The sample numbers are single-precision floats as they stand. *)
Definition sample_to_real (q : Q) : Q := q.

Definition sample_saved_row : Score :=
  {| item_id := "t1"; title := Some "Song"; author := Some "A";
     tempo := Some (98 # 1); key := Some "D"; scale := Some "minor";
     mood_vector := Some "rock:0.500,pop:0.500"; energy := Some (1 # 4);
     other_features := Some "danceable:0.7" |}.

Definition sample_saved_library : Library (list Z) :=
  {| scores := sample_saved_row :: tl (scores sample_library);
     embeddings :=
       [{| e_item_id := "t2"; embedding := Some [1%Z] |};
        {| e_item_id := "t1"; embedding := Some [3%Z; 4%Z] |}] |}.

Definition navidrome_cfg : Config :=
  {| MEDIASERVER_TYPE := "navidrome"; JELLYFIN_USER_ID := "";
     JELLYFIN_TOKEN := ""; NAVIDROME_USER := "admin";
     NAVIDROME_PASSWORD := "secret" |}.

Definition sample_resolve (user token : string) : option (option string) :=
  Some (Some user).

Definition sample_ranking : list Neighbor :=
  [{| n_item_id := "t2"; n_distance := 1 # 10 |};
   {| n_item_id := "gone"; n_distance := 2 # 10 |};
   {| n_item_id := "t1"; n_distance := 3 # 10 |}].

Definition sample_generate (n : option Z) (creds : list (string * string))
  : option (list Neighbor) :=
  Some sample_ranking.

Definition sample_request : Request :=
  {| arg_n := Some 3%Z; args := [("navidrome_user", "alice")] |}.

Definition sample_playlists : list (string * list track) :=
  [("Calm_automatic",
    [("t1", Some "Song", Some "A"); ("t2", Some "Other", Some "B");
     ("t1", Some "Song again", Some "A")]);
   ("Empty_automatic", []);
   ("Rock_automatic", [("t2", Some "Other", Some "B")])].

Definition sample_old_playlists : list PlaylistRow :=
  [{| playlist_name := "Gone_automatic"; p_item_id := "t9";
      p_title := Some "Old"; p_author := None |}].

Definition clustering_details (cmc : dict) : dict :=
  [("clustering_run_job_ids", JList [JStr "j1"]);
   ("best_score", JInt 7);
   ("best_params", JDict [("clustering_method_config", JDict cmc)])].

Definition clustering_row (cmc : dict) : Row :=
  {| task_id := "K";
     parent_task_id := None;
     task_type := "main_clustering";
     sub_type_identifier := None;
     status := Some "PROGRESS";
     progress := Some 60%Z;
     details := Some (Encoded (JDict (clustering_details cmc)));
     timestamp := Some (1000 # 1)%Q;
     start_time := Some (900 # 1)%Q;
     end_time := None |}.

Definition kmeans_params : dict :=
  [("n_clusters", JInt 5);
   ("initial_centroids", JList [JList [JInt 1; JInt 2]])].

Definition kmeans_config : dict :=
  [("method", JStr "kmeans"); ("params", JDict kmeans_params)].

Definition sample_messages : list Message :=
  [{| m_type := "subscribe"; m_data := None |};
   {| m_type := "message"; m_data := Some "reload" |};
   {| m_type := "message"; m_data := Some "ping" |};
   {| m_type := "message"; m_data := Some "reload" |}].

Definition sample_load (n : nat) : bool := Nat.eqb n 1.

(** * Properties *)

(** ** Dictionaries and lists *)

Lemma dict_get_set (d : dict) (k k' : string) (v : json) :
  dict_get (dict_set d k v) k' =
  if String.eqb k' k then Some v else dict_get d k'.
Proof.
  induction d as [|[k0 v0] d IH]; simpl.
  - destruct (String.eqb k' k); reflexivity.
  - destruct (String.eqb k k0) eqn:E; simpl.
    + apply String.eqb_eq in E; subst k0.
      destruct (String.eqb k' k); reflexivity.
    + rewrite IH.
      destruct (String.eqb k' k0) eqn:E0; [|reflexivity].
      apply String.eqb_eq in E0; subst k0.
      rewrite String.eqb_sym, E. reflexivity.
Qed.

Lemma dict_get_pop (d : dict) (k k' : string) :
  dict_get (dict_pop d k) k' =
  if String.eqb k' k then None else dict_get d k'.
Proof.
  induction d as [|[k0 v0] d IH]; simpl.
  - destruct (String.eqb k' k); reflexivity.
  - destruct (String.eqb k k0) eqn:E; simpl.
    + apply String.eqb_eq in E; subst k0. rewrite IH.
      destruct (String.eqb k' k); reflexivity.
    + rewrite IH.
      destruct (String.eqb k' k0) eqn:E0; [|reflexivity].
      apply String.eqb_eq in E0; subst k0.
      rewrite String.eqb_sym, E. reflexivity.
Qed.

Lemma last_n_length {A : Type} (n : nat) (l : list A) :
  n <= List.length l -> List.length (last_n n l) = n.
Proof.
  intros H. unfold last_n. rewrite length_skipn. lia.
Qed.

Lemma last_n_all {A : Type} (n : nat) (l : list A) :
  List.length l <= n -> last_n n l = l.
Proof.
  intros H. unfold last_n.
  replace (List.length l - n) with 0 by lia. reflexivity.
Qed.

Lemma last_n_suffix {A : Type} (n : nat) (l : list A) :
  exists dropped, l = dropped ++ last_n n l.
Proof.
  exists (firstn (List.length l - n) l). unfold last_n.
  symmetry. apply firstn_skipn.
Qed.

(** ** The table *)

Lemma find_row_id (s : Store) (id : string) (r : Row) :
  find_row s id = Some r -> task_id r = id.
Proof.
  induction s as [|r0 s IH]; simpl; [discriminate|].
  destruct (String.eqb (task_id r0) id) eqn:E.
  - intros [= <-]. now apply String.eqb_eq.
  - exact IH.
Qed.

Lemma find_row_upsert_same (new : Row) (upd : Row -> Row) (s : Store) :
  (forall r, task_id (upd r) = task_id r) ->
  find_row (upsert new upd s) (task_id new) =
  Some (match find_row s (task_id new) with
        | Some r => upd r
        | None => new
        end).
Proof.
  intros Hupd. induction s as [|r0 s IH]; simpl.
  - now rewrite String.eqb_refl.
  - destruct (String.eqb (task_id r0) (task_id new)) eqn:E; simpl.
    + now rewrite Hupd, E.
    + now rewrite E.
Qed.

Lemma find_row_upsert_other (new : Row) (upd : Row -> Row) (s : Store)
    (id : string) :
  (forall r, task_id (upd r) = task_id r) ->
  id <> task_id new ->
  find_row (upsert new upd s) id = find_row s id.
Proof.
  intros Hupd Hne. induction s as [|r0 s IH]; simpl.
  - destruct (String.eqb (task_id new) id) eqn:E; [|reflexivity].
    apply String.eqb_eq in E. congruence.
  - destruct (String.eqb (task_id r0) (task_id new)) eqn:E; simpl.
    + rewrite Hupd. apply String.eqb_eq in E.
      destruct (String.eqb (task_id r0) id) eqn:E'; [|reflexivity].
      apply String.eqb_eq in E'. congruence.
    + now rewrite IH.
Qed.

Lemma children_upsert (new : Row) (upd : Row -> Row) (s : Store)
    (p : string) :
  parent_task_id new = None ->
  (forall r, parent_task_id (upd r) = None) ->
  ~ In (task_id new) (map task_id (get_child_tasks_from_db s p)) ->
  get_child_tasks_from_db (upsert new upd s) p = get_child_tasks_from_db s p.
Proof.
  intros Hnew Hupd. unfold get_child_tasks_from_db.
  induction s as [|r0 s IH]; simpl; intros Hnot.
  - unfold is_child_of. now rewrite Hnew.
  - destruct (String.eqb (task_id r0) (task_id new)) eqn:E; simpl.
    + apply String.eqb_eq in E.
      replace (is_child_of p (upd r0)) with false
        by (unfold is_child_of; now rewrite Hupd).
      destruct (is_child_of p r0) eqn:Ec; [|reflexivity].
      exfalso. apply Hnot. simpl. now left.
    + destruct (is_child_of p r0) eqn:Ec.
      * f_equal. apply IH. intros Hin. apply Hnot. simpl. now right.
      * apply IH. exact Hnot.
Qed.

Lemma find_row_In (s : Store) (y : string) (r : Row) :
  find_row s y = Some r -> In r s.
Proof.
  induction s as [|r0 s IH]; simpl; [discriminate|].
  destruct (String.eqb (task_id r0) y).
  - intros [= <-]. now left.
  - intros H. right. now apply IH.
Qed.

Lemma In_has_row (s : Store) (r : Row) :
  In r s -> has_row s (task_id r) = true.
Proof.
  unfold has_row. induction s as [|r0 s IH]; simpl; [contradiction|].
  intros [-> | Hin].
  - now rewrite String.eqb_refl.
  - destruct (String.eqb (task_id r0) (task_id r)); [reflexivity|].
    now apply IH.
Qed.

(** ** The status write path *)

Lemma find_row_saved (id : string) (a : SaveArgs) (now sql_now : Q) (s : Store) :
  find_row (save_statement id a now sql_now s) id =
  Some (match find_row s id with
        | Some r =>
            update_row (a_parent_task_id a) (a_sub_type_identifier a)
              (a_status a) (a_progress a)
              (details_json (a_status a) (a_details a)) now sql_now r
        | None =>
            insert_row id (a_parent_task_id a) (a_task_type a)
              (a_sub_type_identifier a) (a_status a) (a_progress a)
              (details_json (a_status a) (a_details a)) now sql_now
        end).
Proof.
  unfold save_statement.
  exact (find_row_upsert_same
           (insert_row id (a_parent_task_id a) (a_task_type a)
              (a_sub_type_identifier a) (a_status a) (a_progress a)
              (details_json (a_status a) (a_details a)) now sql_now)
           (update_row (a_parent_task_id a) (a_sub_type_identifier a)
              (a_status a) (a_progress a)
              (details_json (a_status a) (a_details a)) now sql_now)
           s (fun _ => eq_refl)).
Qed.

Lemma persisted_details_saved (id : string) (a : SaveArgs) (now sql_now : Q)
    (s : Store) :
  persisted_details (so_store (save_task_status NoFault id a now sql_now s)) id
  = details_json (a_status a) (a_details a).
Proof.
  unfold persisted_details. simpl. rewrite find_row_saved.
  now destruct (find_row s id).
Qed.

(** C6. What a call persists for a [details] object:
    - with a status other than SUCCESS and a log of more than ten entries
      (fifteen, say): the last ten entries and the annotation that gives
      the original length;
    - with a status other than SUCCESS and a log of at most ten entries
      (five, say): the log as it came and no annotation;
    - with the status SUCCESS: no annotation, a log of one confirmation
      entry when the log is missing, not a list or empty, and the log as
      it came otherwise.
    The other keys are persisted as they came. *)
Theorem save_caps_log (id : string) (a : SaveArgs) (now sql_now : Q)
    (s : Store) (d : dict) :
  a_details a = Some (JDict d) ->
  exists d',
    persisted_details (so_store (save_task_status NoFault id a now sql_now s)) id
    = Some (Encoded (JDict d'))
    /\ (forall k, k <> "log" -> k <> "log_storage_info" ->
                  dict_get d' k = dict_get d k)
    /\ (forall log_list,
          a_status a <> TASK_STATUS_SUCCESS ->
          dict_get d "log" = Some (JList log_list) ->
          MAX_LOG_ENTRIES_STORED < List.length log_list ->
          dict_get d' "log" = Some (JList (last_n 10 log_list))
          /\ List.length (last_n 10 log_list) = 10
          /\ dict_get d' "log_storage_info"
             = Some (JStr (truncation_note (List.length log_list))))
    /\ (forall log_list,
          a_status a <> TASK_STATUS_SUCCESS ->
          dict_get d "log" = Some (JList log_list) ->
          List.length log_list <= MAX_LOG_ENTRIES_STORED ->
          dict_get d' "log" = Some (JList log_list)
          /\ dict_get d' "log_storage_info" = None)
    /\ (a_status a = TASK_STATUS_SUCCESS ->
          dict_get d' "log_storage_info" = None
          /\ dict_get d' "log"
             = Some (match dict_get d "log" with
                     | Some (JList (e :: rest)) => JList (e :: rest)
                     | _ => JList [JStr "Task completed successfully."]
                     end)).
Proof.
  intros Hd. rewrite persisted_details_saved. unfold details_json.
  rewrite Hd. unfold trim_details.
  destruct (String.eqb (a_status a) TASK_STATUS_SUCCESS) eqn:Est.
  - (* SUCCESS *)
    apply String.eqb_eq in Est. cbn [negb].
    assert (Hpop : dict_get (dict_pop d "log_storage_info") "log"
                   = dict_get d "log") by now rewrite dict_get_pop.
    rewrite Hpop.
    set (d1 := dict_pop d "log_storage_info").
    set (d2 := dict_set d1 "log" (JList [JStr "Task completed successfully."])).
    assert (Hd1 : forall k, k <> "log_storage_info" ->
                            dict_get d1 k = dict_get d k).
    { intros k Hk. unfold d1. rewrite dict_get_pop.
      apply String.eqb_neq in Hk. now rewrite Hk. }
    assert (Hd2 : forall k, k <> "log" -> dict_get d2 k = dict_get d1 k).
    { intros k Hk. unfold d2. rewrite dict_get_set.
      apply String.eqb_neq in Hk. now rewrite Hk. }
    assert (Hn1 : dict_get d1 "log_storage_info" = None)
      by (unfold d1; now rewrite dict_get_pop).
    assert (Hkeep : exists d', Some (json_dumps (JDict d1)) = Some (Encoded (JDict d'))
               /\ (forall k, k <> "log" -> k <> "log_storage_info" ->
                             dict_get d' k = dict_get d k)
               /\ dict_get d' "log_storage_info" = None
               /\ dict_get d' "log" = dict_get d "log").
    { exists d1. repeat split; auto; apply Hd1; discriminate. }
    assert (Hnew : exists d', Some (json_dumps (JDict d2)) = Some (Encoded (JDict d'))
               /\ (forall k, k <> "log" -> k <> "log_storage_info" ->
                             dict_get d' k = dict_get d k)
               /\ dict_get d' "log_storage_info" = None
               /\ dict_get d' "log"
                  = Some (JList [JStr "Task completed successfully."])).
    { exists d2. repeat split.
      - intros k H1 H2. now rewrite Hd2, Hd1.
      - rewrite Hd2 by discriminate. exact Hn1.
      - unfold d2. now rewrite dict_get_set. }
    destruct (dict_get d "log") as [[| | | | |[|e rest]|]|] eqn:Hlog;
      cbn [negb];
      try (destruct Hnew as [d' [E [Hk [Hi Hl]]]]; exists d';
           split; [exact E|]; split; [exact Hk|];
           split; [intros; congruence|]; split; [intros; congruence|];
           intros _; split; [exact Hi | exact Hl]).
    destruct Hkeep as [d' [E [Hk [Hi Hl]]]]. exists d'.
    split; [exact E|]. split; [exact Hk|].
    split; [intros; congruence|]. split; [intros; congruence|].
    intros _. split; [exact Hi | exact Hl].
  - (* any other status *)
    apply String.eqb_neq in Est. cbn [negb].
    destruct (dict_get d "log") as [[| | | | |log_list|]|] eqn:Hlog;
      try (exists d; split; [reflexivity|]; split; [reflexivity|];
           split; [intros; discriminate|]; split; [intros; discriminate|];
           intros; contradiction).
    destruct (Nat.ltb MAX_LOG_ENTRIES_STORED (List.length log_list)) eqn:Elen.
    + apply Nat.ltb_lt in Elen.
      eexists. split; [reflexivity|]. split; [|split; [|split]].
      * intros k H1 H2. rewrite !dict_get_set.
        apply String.eqb_neq in H1, H2. now rewrite H1, H2.
      * intros l _ [= <-] _. split; [|split].
        -- now rewrite !dict_get_set.
        -- apply last_n_length. unfold MAX_LOG_ENTRIES_STORED in Elen. lia.
        -- now rewrite dict_get_set.
      * intros l _ [= <-] Hle. lia.
      * intros; contradiction.
    + apply Nat.ltb_ge in Elen.
      eexists. split; [reflexivity|]. split; [|split; [|split]].
      * intros k H1 H2. rewrite dict_get_pop.
        apply String.eqb_neq in H2. now rewrite H2.
      * intros l _ [= <-] Hlt. lia.
      * intros l _ [= <-] _. split.
        -- now rewrite dict_get_pop.
        -- now rewrite dict_get_pop.
      * intros; contradiction.
Qed.

Lemma save_caps_log_witness :
  a_details (progress_args TASK_STATUS_PROGRESS (log_lines 15))
  = Some (JDict [("log", JList (log_lines 15))])
  /\ exists d',
      persisted_details
        (so_store (save_task_status NoFault "R"
                     (progress_args TASK_STATUS_PROGRESS (log_lines 15))
                     (2000 # 1) (2000 # 1) family_store)) "R"
      = Some (Encoded (JDict d'))
      /\ dict_get d' "log" = Some (JList (skipn 5 (log_lines 15)))
      /\ dict_get d' "log_storage_info"
         = Some (JStr "Log in DB truncated to last 10 entries. Original length: 15.").
Proof.
  split; [reflexivity|].
  destruct (save_caps_log "R"
              (progress_args TASK_STATUS_PROGRESS (log_lines 15))
              (2000 # 1) (2000 # 1) family_store
              [("log", JList (log_lines 15))] eq_refl)
    as [d' [Hp [_ [Hlong _]]]].
  exists d'. split; [exact Hp|].
  destruct (Hlong (log_lines 15)) as [Hlog [_ Hnote]].
  - discriminate.
  - reflexivity.
  - unfold MAX_LOG_ENTRIES_STORED. simpl. lia.
  - split; [exact Hlog | exact Hnote].
Defined.

(** The cap sits under the guard of line 324: with the status SUCCESS a
    log of fifteen entries is persisted whole and without annotation. *)
Lemma save_success_keeps_long_log :
  persisted_details
    (so_store (save_task_status NoFault "R"
                 (progress_args TASK_STATUS_SUCCESS (log_lines 15))
                 (2000 # 1) (2000 # 1) family_store)) "R"
  = Some (Encoded (JDict [("log", JList (log_lines 15))]))
  /\ List.length (log_lines 15) = 15.
Proof. split; reflexivity. Qed.

(** *** Start and end times *)

Lemma save_start_time (id : string) (a : SaveArgs) (now sql_now : Q)
    (s : Store) :
  stored_start_time (so_store (save_task_status NoFault id a now sql_now s)) id
  = Some (match stored_start_time s id with Some t => t | None => now end).
Proof.
  unfold stored_start_time. simpl. rewrite find_row_saved.
  destruct (find_row s id) as [r|]; simpl; [|reflexivity].
  now destruct (start_time r).
Qed.

Lemma save_end_time (id : string) (a : SaveArgs) (now sql_now : Q)
    (s : Store) :
  stored_end_time (so_store (save_task_status NoFault id a now sql_now s)) id
  = match stored_end_time s id with
    | Some e => Some e
    | None => if is_terminal (a_status a) then Some now else None
    end.
Proof.
  unfold stored_end_time. simpl. rewrite find_row_saved.
  destruct (find_row s id) as [r|]; simpl; [|reflexivity].
  now destruct (end_time r).
Qed.

Lemma save_all_cons (id : string) (c : SaveCall) (calls : list SaveCall)
    (s : Store) :
  save_all id (c :: calls) s
  = save_all id calls
      (so_store (save_task_status NoFault id (c_args c) (c_now c)
                   (c_sql_now c) s)).
Proof. reflexivity. Qed.

Lemma save_all_start_set (id : string) (calls : list SaveCall) (s : Store)
    (t : Q) :
  stored_start_time s id = Some t ->
  stored_start_time (save_all id calls s) id = Some t.
Proof.
  revert s. induction calls as [|c calls IH]; intros s Hs; [exact Hs|].
  rewrite save_all_cons. apply IH. now rewrite save_start_time, Hs.
Qed.

Lemma save_all_end_time (id : string) (calls : list SaveCall) (s : Store) :
  stored_end_time (save_all id calls s) id
  = match stored_end_time s id with
    | Some e => Some e
    | None => first_terminal calls
    end.
Proof.
  revert s. induction calls as [|c calls IH]; intros s.
  - simpl. now destruct (stored_end_time s id).
  - rewrite save_all_cons, IH, save_end_time. simpl.
    destruct (stored_end_time s id); [reflexivity|].
    now destruct (is_terminal (a_status (c_args c))).
Qed.

(** C5. Over any sequence of calls on one task: the start time is the one
    already stored, or else the clock of the first call, and no later
    call changes it; the end time is the one already stored, or else the
    clock of the first call with a terminal status, and stays unset when
    there is none. Further calls leave the start time as it is, and the
    end time too once it is set. *)
Theorem save_times_first_write_wins (id : string) (c : SaveCall)
    (calls more : list SaveCall) (s : Store) :
  let s1 := save_all id (c :: calls) s in
  stored_start_time s1 id
  = Some (match stored_start_time s id with
          | Some t => t
          | None => c_now c
          end)
  /\ stored_end_time s1 id
     = match stored_end_time s id with
       | Some e => Some e
       | None => first_terminal (c :: calls)
       end
  /\ stored_start_time (save_all id more s1) id = stored_start_time s1 id
  /\ stored_end_time (save_all id more s1) id
     = match stored_end_time s1 id with
       | Some e => Some e
       | None => first_terminal more
       end.
Proof.
  intros s1.
  assert (Hstart : stored_start_time s1 id
                   = Some (match stored_start_time s id with
                           | Some t => t
                           | None => c_now c
                           end)).
  { unfold s1. rewrite save_all_cons.
    apply save_all_start_set. apply save_start_time. }
  split; [exact Hstart|]. split; [|split].
  - unfold s1. apply save_all_end_time.
  - rewrite Hstart. now apply save_all_start_set.
  - apply save_all_end_time.
Qed.

(** On a task with no row yet: started at the first call, ended at the
    first terminal one, whatever follows. *)
Example save_times_sample :
  let s := save_all "T"
             [call_at TASK_STATUS_PENDING (10 # 1);
              call_at TASK_STATUS_PROGRESS (20 # 1);
              call_at TASK_STATUS_FAILURE (30 # 1);
              call_at TASK_STATUS_PROGRESS (40 # 1);
              call_at TASK_STATUS_SUCCESS (50 # 1)] [] in
  stored_start_time s "T" = Some (10 # 1)%Q
  /\ stored_end_time s "T" = Some (30 # 1)%Q.
Proof. split; reflexivity. Qed.

(** *** Store faults *)

(** Whatever the store does to the statement, the caller is handed the
    same normal return. *)
Lemma save_task_status_returns (flt : db_fault) (id : string) (a : SaveArgs)
    (now sql_now : Q) (s : Store) :
  so_return (save_task_status flt id a now sql_now s) = Ok tt.
Proof. now destruct flt. Qed.

Lemma save_task_status_rolls_back (flt : db_fault) (id : string)
    (a : SaveArgs) (now sql_now : Q) (s : Store) :
  flt <> NoFault ->
  so_store (save_task_status flt id a now sql_now s) = s.
Proof. destruct flt; [congruence | reflexivity | reflexivity]. Qed.

(** C3, at the failing input. The store fails while executing the REVOKED
    write for [R]: [save_task_status] rolls back, logs, and returns to its
    caller exactly as a successful call does; the cancel endpoint then
    answers 200 with two jobs affected while [R] is still PROGRESS in the
    table. *)
Theorem save_task_status_swallows_store_error :
  let a := revoke_args "main_analysis"
             "Cancellation requested for task R via API." in
  let failed :=
    save_task_status (ExecuteFails false) "R" a (2000 # 1) (2000 # 1)
      family_store in
  let succeeded :=
    save_task_status NoFault "R" a (2000 # 1) (2000 # 1) family_store in
  so_return failed = Ok tt
  /\ so_return failed = so_return succeeded
  /\ so_store failed = family_store
  /\ so_log failed
     = [LogError "DB Error saving task status for R";
        LogInfo "DB transaction rolled back for task status update of R."]
  /\ exists w',
      cancel_task_endpoint 3 execute_fails_on_R (2000 # 1) (2000 # 1) "R"
        family_world
      = Done (body_initiated "R" 2, 200) w'
      /\ option_map status (find_row (store w') "R")
         = Some (Some TASK_STATUS_PROGRESS).
Proof.
  repeat split.
  eexists. split; vm_compute; reflexivity.
Qed.

(** ** The archival sweep *)

Section Sweep.

Variable py_str : json -> string.
Variable sql_now : Q.

Lemma original_status_message_ok (st : string) (dj : option json_text) :
  details_wellformed dj = true ->
  exists summary, original_status_message py_str st dj = Ok summary.
Proof.
  unfold original_status_message, details_wellformed.
  destruct dj as [[j|raw]|]; intros H; simpl.
  - destruct j; try discriminate. eexists; reflexivity.
  - destruct (negb (String.eqb raw "")); eexists; reflexivity.
  - eexists; reflexivity.
Qed.

Lemma archive_task_row (tr : Row) (working : Store) :
  archivable tr = true ->
  details_wellformed (details tr) = true ->
  exists st,
    status tr = Some st
    /\ archive_task py_str sql_now tr working
       = Ok (map (fun r =>
                    if String.eqb (task_id r) (task_id tr)
                       && status_in [st] (status r)
                    then archived_row py_str sql_now
                           {| task_id := task_id r;
                              parent_task_id := parent_task_id r;
                              task_type := task_type r;
                              sub_type_identifier := sub_type_identifier r;
                              status := Some st;
                              progress := progress r;
                              details := details tr;
                              timestamp := timestamp r;
                              start_time := start_time r;
                              end_time := end_time r |}
                    else r) working).
Proof.
  intros Ha Hw. unfold archivable in Ha. apply andb_prop in Ha.
  destruct Ha as [Hst _]. unfold archive_task.
  destruct (status tr) as [st|] eqn:Est; [|discriminate].
  exists st. split; [reflexivity|].
  destruct (original_status_message_ok st (details tr) Hw) as [m Hm].
  rewrite Hm. f_equal. unfold archive_update. apply map_ext. intros r.
  destruct (String.eqb (task_id r) (task_id tr) && status_in [st] (status r));
    [|reflexivity].
  unfold archived_row. simpl. now rewrite Hm.
Qed.

(** A selected row is archived; the rows of other tasks stay. *)
Lemma archive_task_own (tr : Row) (working : Store) :
  archivable tr = true ->
  details_wellformed (details tr) = true ->
  (forall r, In r working -> task_id r = task_id tr -> r = tr) ->
  archive_task py_str sql_now tr working
  = Ok (map (fun r => if String.eqb (task_id r) (task_id tr)
                      then archived_row py_str sql_now r else r) working).
Proof.
  intros Ha Hw Hown.
  destruct (archive_task_row tr working Ha Hw) as [st [Est ->]].
  f_equal. apply map_ext_in. intros r Hr.
  destruct (String.eqb (task_id r) (task_id tr)) eqn:E; [|reflexivity].
  apply String.eqb_eq in E. rewrite (Hown r Hr E). simpl.
  rewrite Est. simpl. rewrite String.eqb_refl. simpl.
  f_equal. destruct tr; simpl in *. now rewrite Est.
Qed.

Lemma archived_row_id (r : Row) :
  task_id (archived_row py_str sql_now r) = task_id r.
Proof.
  unfold archived_row. destruct (status r); [|reflexivity].
  now destruct (original_status_message py_str s (details r)).
Qed.

Lemma archive_loop_selected (tasks : list Row) :
  forall (working : Store) (count : nat),
    Forall (fun tr => archivable tr = true
                      /\ details_wellformed (details tr) = true) tasks ->
    NoDup (map task_id tasks) ->
    (forall tr r, In tr tasks -> In r working ->
                  task_id r = task_id tr -> r = tr) ->
    archive_loop py_str sql_now tasks working count
    = Ok (map (fun r => if selected tasks r
                        then archived_row py_str sql_now r else r) working,
          count + List.length tasks).
Proof.
  induction tasks as [|tr tasks IH]; intros working count Hall Hnd Hown.
  - simpl. rewrite map_id. f_equal. f_equal. lia.
  - inversion Hall as [|? ? [Ha Hw] Hall']; subst.
    simpl in Hnd. inversion Hnd as [|? ? Hfresh Hnd']; subst.
    simpl archive_loop.
    rewrite (archive_task_own tr working Ha Hw)
      by (intros r Hr; apply Hown; [now left | exact Hr]).
    rewrite IH; try assumption.
    + rewrite map_map. apply f_equal. apply f_equal2; [|simpl; lia].
      apply map_ext. intros r. simpl selected.
      destruct (String.eqb (task_id r) (task_id tr)) eqn:E; simpl.
      * replace (selected tasks (archived_row py_str sql_now r)) with false;
          [reflexivity|].
        symmetry. apply not_true_is_false. intros Hsel.
        apply existsb_exists in Hsel. destruct Hsel as [tr' [Hin Heq]].
        apply String.eqb_eq in Heq, E. rewrite archived_row_id in Heq.
        apply Hfresh. rewrite <- E, Heq. now apply in_map.
      * reflexivity.
    + intros tr' r' Hin' Hr' Heq.
      apply in_map_iff in Hr'. destruct Hr' as [r [Hr Hin]].
      destruct (String.eqb (task_id r) (task_id tr)) eqn:E.
      * exfalso. apply String.eqb_eq in E. subst r'.
        rewrite archived_row_id in Heq. apply Hfresh.
        rewrite <- E, Heq. now apply in_map.
      * subst r'. apply Hown; [now right | exact Hin | exact Heq].
Qed.

Lemma unique_row (s : Store) (r r' : Row) :
  NoDup (map task_id s) -> In r s -> In r' s -> task_id r = task_id r' ->
  r = r'.
Proof.
  induction s as [|x s IH]; simpl; intros Hnd Hr Hr' Heq; [contradiction|].
  inversion Hnd as [|? ? Hx Hnd']; subst.
  destruct Hr as [-> | Hr], Hr' as [-> | Hr']; try reflexivity.
  - exfalso. apply Hx. rewrite Heq. now apply in_map.
  - exfalso. apply Hx. rewrite <- Heq. now apply in_map.
  - now apply IH.
Qed.

Lemma NoDup_map_filter (f : Row -> bool) (s : Store) :
  NoDup (map task_id s) -> NoDup (map task_id (filter f s)).
Proof.
  induction s as [|x s IH]; simpl; intros Hnd; [constructor|].
  inversion Hnd as [|? ? Hx Hnd']; subst.
  destruct (f x); simpl; [|now apply IH].
  constructor; [|now apply IH].
  intros Hin. apply Hx. apply in_map_iff in Hin.
  destruct Hin as [y [Hy Hin]]. apply filter_In in Hin.
  rewrite <- Hy. apply in_map. tauto.
Qed.

(** The batch on a table with unique task ids whose selected rows have
    well-formed details. *)
Lemma archive_loop_sweeps (s : Store) :
  NoDup (map task_id s) ->
  sweepable s = true ->
  archive_loop py_str sql_now (filter archivable s) s 0
  = Ok (map (sweep_row py_str sql_now) s,
        List.length (filter archivable s)).
Proof.
  intros Hnd Hsw. rewrite archive_loop_selected.
  - f_equal. f_equal. apply map_ext_in. intros r Hr. unfold sweep_row.
    destruct (archivable r) eqn:Ea.
    + replace (selected (filter archivable s) r) with true; [reflexivity|].
      symmetry. apply existsb_exists. exists r. split.
      * apply filter_In. now split.
      * apply String.eqb_refl.
    + replace (selected (filter archivable s) r) with false; [reflexivity|].
      symmetry. apply not_true_is_false. intros Hsel.
      apply existsb_exists in Hsel. destruct Hsel as [tr [Hin Heq]].
      apply String.eqb_eq in Heq. apply filter_In in Hin.
      destruct Hin as [Hin Ha].
      rewrite (unique_row s r tr Hnd Hr Hin Heq) in Ea. congruence.
  - apply Forall_forall. intros tr Hin. apply filter_In in Hin.
    destruct Hin as [Hin Ha]. split; [exact Ha|].
    unfold sweepable in Hsw. rewrite forallb_forall in Hsw.
    specialize (Hsw tr Hin). rewrite Ha in Hsw. exact Hsw.
  - now apply NoDup_map_filter.
  - intros tr r Hin Hr Heq. apply filter_In in Hin.
    now apply (unique_row s r tr Hnd Hr (proj1 Hin)).
Qed.

Lemma archived_row_revoked (r : Row) :
  archivable r = true ->
  details_wellformed (details r) = true ->
  let r' := archived_row py_str sql_now r in
  task_id r' = task_id r
  /\ status r' = Some TASK_STATUS_REVOKED
  /\ progress r' = Some 100%Z
  /\ parent_task_id r' = None.
Proof.
  intros Ha Hw. unfold archivable in Ha. apply andb_prop in Ha.
  destruct Ha as [Hst Hroot]. unfold archived_row.
  destruct (status r) as [st|]; [|discriminate].
  destruct (original_status_message_ok st (details r) Hw) as [m ->].
  simpl. unfold is_root in Hroot.
  destruct (parent_task_id r); [discriminate|]. auto.
Qed.

Lemma sweep_row_settled (r : Row) :
  details_wellformed (details r) = true \/ archivable r = false ->
  archivable (sweep_row py_str sql_now r) = false.
Proof.
  intros H. unfold sweep_row. destruct (archivable r) eqn:Ea; [|exact Ea].
  destruct H as [Hw | Hf]; [|discriminate].
  destruct (archived_row_revoked r Ea Hw) as [_ [Hs _]].
  unfold archivable. now rewrite Hs.
Qed.

Lemma sweep_leaves_nothing (s : Store) :
  sweepable s = true ->
  filter archivable (map (sweep_row py_str sql_now) s) = [].
Proof.
  unfold sweepable. rewrite forallb_forall. intros Hsw.
  induction s as [|r s IH]; simpl; [reflexivity|].
  rewrite sweep_row_settled.
  - apply IH. intros x Hx. apply Hsw. now right.
  - specialize (Hsw r (or_introl eq_refl)).
    destruct (archivable r); simpl in Hsw; auto.
Qed.

Lemma clean_up_store (s : Store) :
  NoDup (map task_id s) ->
  sweepable s = true ->
  cl_store (clean_up_previous_main_tasks py_str sql_now s)
  = map (sweep_row py_str sql_now) s
  /\ cl_archived (clean_up_previous_main_tasks py_str sql_now s)
     = Some (List.length (filter archivable s)).
Proof.
  intros Hnd Hsw. unfold clean_up_previous_main_tasks.
  rewrite archive_loop_sweeps by assumption.
  destruct (filter archivable s) as [|tr rest] eqn:Ef; simpl.
  - split; [|reflexivity].
    symmetry. rewrite <- (map_id s) at 2. apply map_ext_in.
    intros r Hr. unfold sweep_row.
    destruct (archivable r) eqn:Ea; [|reflexivity].
    assert (Hin : In r (filter archivable s)) by (apply filter_In; now split).
    rewrite Ef in Hin. contradiction.
  - split; reflexivity.
Qed.

End Sweep.

Lemma Forall2_map_right {A B : Type} (R : A -> B -> Prop) (f : A -> B)
    (l : list A) :
  (forall x, In x l -> R x (f x)) -> Forall2 R l (map f l).
Proof.
  induction l as [|x l IH]; simpl; intros H; constructor.
  - apply H. now left.
  - apply IH. intros y Hy. apply H. now right.
Qed.

(** C4. On a table with unique task ids (the UNIQUE constraint) whose
    selected rows have details that decode to an object or not at all,
    the first sweep rewrites exactly the root tasks with status SUCCESS,
    PENDING, STARTED or PROGRESS to REVOKED with progress 100 - the
    UPDATE leaves a row alone when its status is not the one read -,
    counts them, and leaves every other row as it was; a second sweep
    right after it selects nothing, archives zero and changes nothing. *)
Theorem sweep_twice_archives_once (py_str : json -> string) (t1 t2 : Q)
    (s : Store) :
  NoDup (map task_id s) ->
  sweepable s = true ->
  let first := clean_up_previous_main_tasks py_str t1 s in
  let second := clean_up_previous_main_tasks py_str t2 (cl_store first) in
  cl_archived first = Some (List.length (filter archivable s))
  /\ Forall2 (fun old new =>
                task_id new = task_id old
                /\ if archivable old
                   then status new = Some TASK_STATUS_REVOKED
                        /\ progress new = Some 100%Z
                   else new = old)
       s (cl_store first)
  /\ (forall id st dj r,
         status_in [st] (status r) = false ->
         archive_update id st dj t1 [r] = [r])
  /\ filter archivable (cl_store first) = []
  /\ cl_archived second = Some 0
  /\ cl_store second = cl_store first.
Proof.
  intros Hnd Hsw first second.
  destruct (clean_up_store py_str t1 s Hnd Hsw) as [Hstore Hcount].
  fold first in Hstore, Hcount.
  assert (Hnone : filter archivable (cl_store first) = [])
    by (rewrite Hstore; now apply sweep_leaves_nothing).
  split; [exact Hcount|]. split; [|split; [|split; [exact Hnone|]]].
  - rewrite Hstore. apply Forall2_map_right. intros r Hr.
    unfold sweep_row. destruct (archivable r) eqn:Ea; [|auto].
    unfold sweepable in Hsw. rewrite forallb_forall in Hsw.
    specialize (Hsw r Hr). rewrite Ea in Hsw. simpl in Hsw.
    destruct (archived_row_revoked py_str t1 r Ea Hsw) as [Hid [Hst [Hp _]]].
    auto.
  - intros id st dj r Hst. unfold archive_update. simpl.
    rewrite Hst. now rewrite andb_false_r.
  - unfold second, clean_up_previous_main_tasks. rewrite Hnone. simpl.
    split; reflexivity.
Qed.

Lemma sweep_twice_archives_once_witness :
  NoDup (map task_id history_store)
  /\ sweepable history_store = true
  /\ cl_archived (clean_up_previous_main_tasks sample_str (2000 # 1)
                    history_store) = Some 2
  /\ cl_archived
       (clean_up_previous_main_tasks sample_str (3000 # 1)
          (cl_store (clean_up_previous_main_tasks sample_str (2000 # 1)
                       history_store))) = Some 0.
Proof.
  assert (Hnd : NoDup (map task_id history_store))
    by (repeat constructor; simpl; intuition discriminate).
  assert (Hsw : sweepable history_store = true) by reflexivity.
  destruct (sweep_twice_archives_once sample_str (2000 # 1) (3000 # 1)
              history_store Hnd Hsw) as [H1 [_ [_ [_ [H2 _]]]]].
  repeat split; assumption.
Defined.

(** ** Running time *)


Lemma max0_positive (x : Q) : (0 < x)%Q -> max0 x = x.
Proof.
  intros H. unfold max0, Qpos. destruct (Qle_bool x 0) eqn:E; [|reflexivity].
  apply Qle_bool_iff in E. exfalso. now apply (Qlt_not_le _ _ H).
Qed.

Lemma max0_clamps (x : Q) : (x <= 0)%Q -> max0 x = 0%Q.
Proof.
  intros H. unfold max0, Qpos. apply Qle_bool_iff in H. now rewrite H.
Qed.




Lemma In_upsert (new : Row) (upd : Row -> Row) (s : Store) (r : Row) :
  In r (upsert new upd s) ->
  r = new \/ In r s \/ exists old, In old s /\ r = upd old.
Proof.
  induction s as [|x s IH]; simpl.
  - intros [<-|[]]. now left.
  - destruct (String.eqb (task_id x) (task_id new)).
    + intros [<-|Hin].
      * right. right. exists x. split; [now left|reflexivity].
      * right. left. now right.
    + intros [<-|Hin].
      * right. left. now left.
      * destruct (IH Hin) as [H|[H|[old [H1 H2]]]].
        -- now left.
        -- right. left. now right.
        -- right. right. exists old. split; [now right|exact H2].
Qed.

(** The start times stay readings of the clock under every status write
    made at a positive reading, whatever the store does with it. *)
Lemma save_keeps_started_by_clock (flt : db_fault) (id : string)
    (a : SaveArgs) (now sql_now : Q) (s : Store) :
  (0 < now)%Q ->
  started_by_clock s ->
  started_by_clock (so_store (save_task_status flt id a now sql_now s)).
Proof.
  intros Hnow Hs. destruct flt; simpl; try exact Hs.
  unfold save_statement. intros r st Hin Hst.
  apply In_upsert in Hin. destruct Hin as [->|[Hin|[old [Hin ->]]]].
  - simpl in Hst. now injection Hst as <-.
  - now apply (Hs r).
  - simpl in Hst. destruct (start_time old) as [t0|] eqn:Ho.
    + injection Hst as <-. now apply (Hs old).
    + now injection Hst as <-.
Qed.

(** At a start time of 0.0, which no status write produces, the two read
    paths part: read by id the running time of the row is 5, read as the
    last task it is 0, because line 909 tests the truth value of the start
    time where line 393 tests it against None. *)
Example last_task_running_time_at_epoch :
  start_time epoch_row = Some 0%Q
  /\ end_time epoch_row = Some (5 # 1)%Q
  /\ option_map running_time_seconds
       (get_task_info_from_db (9 # 1) [epoch_row] "E") = Some (5 # 1)%Q
  /\ get_last_overall_task_status_endpoint (9 # 1) [epoch_row]
     = (LastTaskData
          {| v_task_id := "E";
             v_parent_task_id := None;
             v_task_type := "main_analysis";
             v_sub_type_identifier := None;
             v_status := Some "SUCCESS";
             v_progress := Some 100%Z;
             v_details := JNull;
             v_running_time_seconds := 0%Q |}, 200).
Proof. repeat split. Qed.



(** The active-task view measures from the start time to the clock even
    when the row has an end time. *)
Example active_view_ignores_end_time :
  let row :=
    {| task_id := "A"; parent_task_id := None; task_type := "main_analysis";
       sub_type_identifier := None; status := Some "PROGRESS";
       progress := Some 90%Z; details := None;
       timestamp := Some (30 # 1)%Q; start_time := Some (10 # 1)%Q;
       end_time := Some (20 # 1)%Q |} in
  option_map running_time_seconds (get_task_info_from_db (50 # 1) [row] "A")
  = Some (10 # 1)%Q
  /\ active_task_running_time (50 # 1) row = (40 # 1)%Q.
Proof. split; reflexivity. Qed.

(** ** Status reconciliation *)

Lemma finish_response_keeps (r : Response) :
  r_state (finish_response r) = r_state r
  /\ r_status_message (finish_response r) = r_status_message r
  /\ r_progress (finish_response r) = r_progress r.
Proof. repeat split. Qed.

(** The response seeded from a job whose metadata details is an object. *)
Lemma response_from_job_ok (id : string) (j : Job) :
  job_details_object j = true ->
  exists resp d,
    response_from_job id j = Ok resp
    /\ r_details resp = JDict d
    /\ r_state resp = JStr (JobStatus.value (job_status j))
    /\ r_status_message resp
       = (if job_final j then JStr (terminal_message (job_status j))
          else dict_get_default (meta j) "status_message"
                 (JStr (JobStatus.value (job_status j))))
    /\ r_progress resp
       = (if is_finished j || is_canceled j then JInt 100
          else dict_get_default (meta j) "progress" (JInt 0)).
Proof.
  unfold job_details_object, response_from_job, job_final, is_failed,
    is_finished, is_canceled.
  destruct (dict_get_default (meta j) "details" (JDict [])) as [| | | | | |d];
    try discriminate.
  intros _. destruct (job_status j); simpl; eexists; eexists;
    (split; [reflexivity|]); repeat split; reflexivity.
Qed.

Lemma merge_details_objects (a b : dict) :
  merge_details (JDict a) (JDict b) = Ok (JDict (dict_merge a b)).
Proof. reflexivity. Qed.

Lemma details_object_decodes (dj : option json_text) :
  details_object dj = true -> exists d, db_details dj = Ok (JDict d).
Proof.
  unfold details_object. destruct (db_details dj) as [[| | | | | |d]|];
    try discriminate.
  intros _. now exists d.
Qed.

(** C2. A task whose row is REVOKED is reported REVOKED, "Task revoked.",
    progress 100, whatever the engine says about it - no job, or a job in
    any state with any message and progress -, provided the details on
    both sides are objects (the stored ones may also be NULL or empty). *)
Theorem revoked_row_wins (now : Q) (id : string) (w : World) (r : Row) :
  find_row (store w) id = Some r ->
  status r = Some TASK_STATUS_REVOKED ->
  details_object (details r) = true ->
  live_details_object (queue w) id = true ->
  exists resp,
    get_task_status_endpoint now id w = Ok (resp, 200)
    /\ r_state resp = JStr "REVOKED"
    /\ r_status_message resp = JStr "Task revoked."
    /\ r_progress resp = JInt 100.
Proof.
  intros Hr Hst Hd Hq.
  destruct (details_object_decodes _ Hd) as [dd Hdd].
  assert (Hseed : exists resp0 d0,
             match fetch (queue w) id with
             | Some job => response_from_job id job
             | None => Ok (initial_response id)
             end = Ok resp0 /\ r_details resp0 = JDict d0).
  { unfold live_details_object in Hq.
    destruct (fetch (queue w) id) as [j|].
    - destruct (response_from_job_ok id j Hq) as [resp0 [d0 [E [Hd0 _]]]].
      now exists resp0, d0.
    - exists (initial_response id), []. now split. }
  destruct Hseed as [resp0 [d0 [Hseed Hd0]]].
  unfold get_task_status_endpoint, get_task_info_from_db.
  rewrite Hseed, Hr. unfold augment_with_db. cbn [ti_row].
  rewrite Hdd, Hd0, merge_details_objects, Hst.
  change (status_in [TASK_STATUS_REVOKED] (Some TASK_STATUS_REVOKED))
    with true. cbv iota.
  eexists. split; [reflexivity|]. repeat split.
Qed.

Lemma revoked_row_wins_witness :
  find_row (store racing_world) "R"
  = Some (sample_row "R" None "main_analysis" TASK_STATUS_REVOKED)
  /\ fetch (queue racing_world) "R" = Some (sample_job JobStatus.STARTED)
  /\ exists resp,
      get_task_status_endpoint (2000 # 1) "R" racing_world = Ok (resp, 200)
      /\ r_state resp = JStr "REVOKED"
      /\ r_status_message resp = JStr "Task revoked."
      /\ r_progress resp = JInt 100.
Proof.
  split; [reflexivity|]. split; [reflexivity|].
  exact (revoked_row_wins (2000 # 1) "R" racing_world
           (sample_row "R" None "main_analysis" TASK_STATUS_REVOKED)
           eq_refl eq_refl eq_refl eq_refl).
Defined.

(** C7, as amended. For a job in one of the engine's terminal states the
    reported state is the engine's own name of it, the message is SUCCESS
    for finished, FAILED for failed and CANCELED for canceled, and the
    progress is the stored one when the table has a row for the task;
    without a row it is 100 for finished and canceled and, for failed,
    the progress of the job's metadata (0 when it has none). A REVOKED
    row overrides all three and is left out here. *)
Theorem terminal_job_report (now : Q) (id : string) (w : World) (j : Job) :
  fetch (queue w) id = Some j ->
  job_final j = true ->
  job_details_object j = true ->
  plain_row (store w) id = true ->
  exists resp,
    get_task_status_endpoint now id w = Ok (resp, 200)
    /\ r_state resp = JStr (JobStatus.value (job_status j))
    /\ r_status_message resp = JStr (terminal_message (job_status j))
    /\ r_progress resp
       = match find_row (store w) id with
         | Some r => opt_int_json (progress r)
         | None =>
             if is_failed j
             then dict_get_default (meta j) "progress" (JInt 0)
             else JInt 100
         end.
Proof.
  intros Hj Hfin Hobj Hrow.
  destruct (response_from_job_ok id j Hobj)
    as [resp0 [d0 [Hseed [Hd0 [Hs0 [Hm0 Hp0]]]]]].
  rewrite Hfin in Hm0.
  assert (Hfinal : rq_final_state (r_state resp0) = true).
  { rewrite Hs0. unfold job_final, is_finished, is_failed, is_canceled in Hfin.
    destruct (job_status j); try discriminate; reflexivity. }
  assert (Hknown : json_is_str (r_state resp0) "UNKNOWN" = false).
  { rewrite Hs0. destruct (job_status j); reflexivity. }
  assert (Hp : r_progress resp0
               = if is_failed j
                 then dict_get_default (meta j) "progress" (JInt 0)
                 else JInt 100).
  { rewrite Hp0. unfold job_final, is_finished, is_failed, is_canceled in *.
    destruct (job_status j); try discriminate; reflexivity. }
  unfold get_task_status_endpoint, get_task_info_from_db.
  rewrite Hj, Hseed. unfold plain_row in Hrow.
  destruct (find_row (store w) id) as [r|].
  - apply andb_prop in Hrow. destruct Hrow as [Hd Hnr].
    apply negb_true_iff in Hnr.
    destruct (details_object_decodes _ Hd) as [dd Hdd].
    unfold augment_with_db. cbn [ti_row].
    rewrite Hdd, Hd0, merge_details_objects, Hnr, Hfinal.
    eexists. split; [reflexivity|].
    repeat split; simpl; assumption.
  - rewrite Hknown. eexists. split; [reflexivity|].
    repeat split; simpl; assumption.
Qed.

Lemma terminal_job_report_witness :
  fetch (queue finished_world) "R" = Some (sample_job JobStatus.FINISHED)
  /\ exists resp,
      get_task_status_endpoint (2000 # 1) "R" finished_world = Ok (resp, 200)
      /\ r_state resp = JStr "finished"
      /\ r_status_message resp = JStr "SUCCESS"
      /\ r_progress resp = JInt 40.
Proof.
  split; [reflexivity|].
  exact (terminal_job_report (2000 # 1) "R" finished_world
           (sample_job JobStatus.FINISHED) eq_refl eq_refl eq_refl eq_refl).
Defined.

(** C7 as stated fails: a failed job without a row is reported with the
    state failed, the message FAILED and the progress 0; a finished job
    whose row says 40 is reported with the progress 40. *)
Lemma failed_job_not_failure_100 :
  (exists resp,
      get_task_status_endpoint (2000 # 1) "J" failed_world = Ok (resp, 200)
      /\ r_state resp = JStr "failed"
      /\ r_status_message resp = JStr "FAILED"
      /\ r_progress resp = JInt 0)
  /\ (exists resp,
        get_task_status_endpoint (2000 # 1) "R" finished_world = Ok (resp, 200)
        /\ r_state resp = JStr "finished"
        /\ r_progress resp = JInt 40).
Proof.
  split; eexists; (split; [vm_compute; reflexivity|]); repeat split.
Qed.

(** ** Malformed details *)

Lemma status_endpoint_raises_on_garbled (now : Q) (id : string) (w : World)
    (r : Row) (raw : string) :
  find_row (store w) id = Some r ->
  details r = Some (Garbled raw) ->
  raw <> "" ->
  live_details_object (queue w) id = true ->
  get_task_status_endpoint now id w = Raise JSONDecodeError.
Proof.
  intros Hr Hd Hraw Hq.
  assert (Hseed : exists resp0,
             match fetch (queue w) id with
             | Some job => response_from_job id job
             | None => Ok (initial_response id)
             end = Ok resp0).
  { unfold live_details_object in Hq.
    destruct (fetch (queue w) id) as [j|].
    - destruct (response_from_job_ok id j Hq) as [resp0 [d0 [E _]]].
      now exists resp0.
    - now exists (initial_response id). }
  destruct Hseed as [resp0 Hseed].
  unfold get_task_status_endpoint, get_task_info_from_db.
  rewrite Hseed, Hr. unfold augment_with_db, db_details. cbn [ti_row].
  rewrite Hd. simpl. apply String.eqb_neq in Hraw. now rewrite Hraw.
Qed.

Lemma active_view_falls_back (now : Q) (s : Store) (r : Row) (raw : string) :
  latest (filter is_active_root s) = Some r ->
  details r = Some (Garbled raw) ->
  raw <> "" ->
  exists view,
    get_active_tasks_endpoint now s = Ok (Some view, 200)
    /\ v_details view
       = JDict [("raw_details", JStr raw);
                ("error", JStr "Failed to parse details JSON.")].
Proof.
  intros Hl Hd Hraw. unfold get_active_tasks_endpoint.
  rewrite Hl. unfold active_task_details. rewrite Hd. simpl.
  apply String.eqb_neq in Hraw. rewrite Hraw. simpl.
  eexists. split; reflexivity.
Qed.

(** The last-task view keeps the raw text, without a marker. *)
Example last_task_keeps_raw_text :
  exists view,
    get_last_overall_task_status_endpoint (2000 # 1) (store garbled_world)
    = (LastTaskData view, 200)
    /\ v_details view = JStr "{'log': ['step 1'".
Proof. eexists. split; reflexivity. Qed.

(** C8, at the failing input. The active run of [garbled_world] has a
    details text that does not decode: the active-task view answers 200
    with the raw text and the error marker, the status reconciliation of
    the same task lets the decoding error out of the handler. *)
Theorem status_read_crashes_on_garbled_details :
  details garbled_row = Some (Garbled "{'log': ['step 1'")
  /\ (exists view,
        get_active_tasks_endpoint (2000 # 1) (store garbled_world)
        = Ok (Some view, 200)
        /\ v_details view
           = JDict [("raw_details", JStr "{'log': ['step 1'");
                    ("error", JStr "Failed to parse details JSON.")])
  /\ get_task_status_endpoint (2000 # 1) "R" garbled_world
     = Raise JSONDecodeError.
Proof.
  split; [reflexivity|]. split.
  - eexists. split; reflexivity.
  - reflexivity.
Qed.

(** ** Trees *)

Lemma subtrees_self (t : tree) : In t (subtrees t).
Proof. destruct t; simpl; now left. Qed.

Lemma subtrees_kid (t k : tree) :
  In k (children t) -> incl (subtrees k) (subtrees t).
Proof.
  destruct t as [id kids]; simpl. intros Hk n Hn. right.
  apply in_flat_map. now exists k.
Qed.

Lemma subtrees_incl (t n : tree) :
  In n (subtrees t) -> incl (subtrees n) (subtrees t).
Proof.
  induction t as [id kids IH] using tree_induction.
  simpl. intros [<- | Hn].
  - apply incl_refl.
  - apply in_flat_map in Hn. destruct Hn as [k [Hk Hn]].
    rewrite Forall_forall in IH.
    intros m Hm. right. apply in_flat_map. exists k. split; [exact Hk|].
    now apply (IH k Hk Hn).
Qed.

Lemma nodes_Node (id : string) (kids : list tree) :
  nodes (Node id kids) = id :: flat_map nodes kids.
Proof.
  unfold nodes. simpl. f_equal.
  induction kids as [|k kids IH]; simpl; [reflexivity|].
  now rewrite map_app, IH.
Qed.

Lemma nodes_root (t : tree) : nodes t = root t :: tl (nodes t).
Proof. destruct t. now rewrite nodes_Node. Qed.

Lemma kid_root_in_nodes (t n k : tree) :
  In n (subtrees t) -> In k (children n) -> In (root k) (nodes t).
Proof.
  intros Hn Hk. unfold nodes. apply in_map.
  apply (subtrees_incl t n Hn). apply (subtrees_kid n k Hk).
  apply subtrees_self.
Qed.

Lemma depth_kid (id : string) (kids : list tree) (k : tree) (n : nat) :
  depth (Node id kids) <= S n -> In k kids -> depth k <= n.
Proof.
  simpl. intros H Hk.
  assert (Hm : list_max (map depth kids) <= n) by lia.
  apply list_max_le in Hm. rewrite Forall_forall in Hm.
  apply Hm. now apply in_map.
Qed.

Lemma ids_eqb_eq (a b : list string) : ids_eqb a b = true -> a = b.
Proof. unfold ids_eqb. now destruct (list_eq_dec string_dec a b). Qed.

Lemma live_tree_node (s : Store) (t n : tree) :
  live_tree s t = true -> In n (subtrees t) -> live_node s n = true.
Proof.
  unfold live_tree. rewrite forallb_forall. auto.
Qed.

Lemma live_tree_sub (s : Store) (t n : tree) :
  live_tree s t = true -> In n (subtrees t) -> live_tree s n = true.
Proof.
  unfold live_tree. rewrite !forallb_forall. intros H Hn m Hm.
  apply H. now apply (subtrees_incl t n Hn).
Qed.

Lemma live_tree_still_live (s : Store) (t : tree) (x : string) :
  live_tree s t = true -> In x (nodes t) -> still_live s x = true.
Proof.
  intros H Hx. unfold nodes in Hx. apply in_map_iff in Hx.
  destruct Hx as [n [<- Hn]].
  pose proof (live_tree_node s t n H Hn) as Hl. unfold live_node in Hl.
  apply andb_prop in Hl. destruct Hl as [Hl _].
  apply andb_prop in Hl. now destruct Hl.
Qed.

(** ** The walk of [cancel_job_and_children_recursive] *)

Section Walk.

Variable flt : string -> db_fault.
Variables now sql_now : Q.

Lemma mark_find_other (reason : string) (s : Store) (x y : string) :
  y <> x -> find_row (mark flt now sql_now reason s x) y = find_row s y.
Proof.
  intros Hne. unfold mark.
  destruct (find_row s x) as [r|]; [|reflexivity].
  unfold save_task_status.
  destruct (flt x); simpl; try reflexivity.
  unfold save_statement. now apply find_row_upsert_other.
Qed.

Lemma mark_children (reason : string) (s : Store) (x p : string) :
  ~ In x (map task_id (get_child_tasks_from_db s p)) ->
  get_child_tasks_from_db (mark flt now sql_now reason s x) p = get_child_tasks_from_db s p.
Proof.
  intros Hnot. unfold mark.
  destruct (find_row s x) as [r|]; [|reflexivity].
  unfold save_task_status.
  destruct (flt x); simpl; try reflexivity.
  unfold save_statement. now apply children_upsert.
Qed.

Lemma still_live_mark_other (reason : string) (s : Store) (x y : string) :
  y <> x -> still_live (mark flt now sql_now reason s x) y = still_live s y.
Proof.
  intros Hne. unfold still_live. now rewrite mark_find_other.
Qed.

Lemma typed_row_mark_other (reason : string) (s : Store) (x y : string) :
  y <> x -> typed_row (mark flt now sql_now reason s x) y = typed_row s y.
Proof.
  intros Hne. unfold typed_row. now rewrite mark_find_other.
Qed.

(** Revoking [x] leaves the stored children of [p] as they were, unless
    [x] is one of the children the walk would recurse into. *)
Lemma live_children_mark (reason : string) (s : Store) (x p : string) :
  still_live s x = true ->
  ~ In x (live_children s p) ->
  get_child_tasks_from_db (mark flt now sql_now reason s x) p = get_child_tasks_from_db s p
  /\ live_children (mark flt now sql_now reason s x) p = live_children s p.
Proof.
  intros Hlive Hnot.
  assert (Hx : ~ In x (map task_id (get_child_tasks_from_db s p))).
  { intros Hin. apply Hnot. unfold live_children.
    apply filter_In. now split. }
  split; [now apply mark_children|].
  unfold live_children. rewrite mark_children by exact Hx.
  apply filter_ext_in. intros y Hy.
  apply still_live_mark_other. intros ->. now apply Hx.
Qed.

Lemma live_node_mark (reason : string) (s : Store) (n : tree) (x : string) :
  live_node s n = true ->
  still_live s x = true ->
  x <> root n ->
  ~ In x (map root (children n)) ->
  live_node (mark flt now sql_now reason s x) n = true.
Proof.
  unfold live_node. intros H Hlive Hroot Hkids.
  apply andb_prop in H. destruct H as [H Hc].
  apply ids_eqb_eq in Hc.
  assert (Hnot : ~ In x (live_children s (root n))) by now rewrite Hc.
  destruct (live_children_mark reason s x (root n) Hlive Hnot) as [_ ->].
  rewrite typed_row_mark_other, still_live_mark_other by congruence.
  rewrite H, Hc. unfold ids_eqb.
  now destruct (list_eq_dec string_dec (map root (children n))
                  (map root (children n))).
Qed.

Lemma live_tree_mark (reason : string) (s : Store) (t : tree) (x : string) :
  live_tree s t = true ->
  still_live s x = true ->
  ~ In x (nodes t) ->
  live_tree (mark flt now sql_now reason s x) t = true.
Proof.
  intros H Hlive Hnot. unfold live_tree. apply forallb_forall.
  intros n Hn. apply live_node_mark; try assumption.
  - now apply (live_tree_node s t).
  - intros ->. apply Hnot. unfold nodes. now apply in_map.
  - intros Hin. apply in_map_iff in Hin. destruct Hin as [k [<- Hk]].
    apply Hnot. now apply (kid_root_in_nodes t n k).
Qed.

Lemma store_visits (reason : string) (l : list string) (w : World) :
  store (fold_left (visit flt now sql_now reason) l w) =
  fold_left (mark flt now sql_now reason) l (store w).
Proof.
  revert w. induction l as [|x l IH]; intros w; simpl; [reflexivity|].
  now rewrite IH.
Qed.

Lemma queue_visits (reason : string) (l : list string) (w : World) :
  queue (fold_left (visit flt now sql_now reason) l w) =
  fold_left (fun q id => snd (interrupt_in_rq q id)) l (queue w).
Proof.
  revert w. induction l as [|x l IH]; intros w; simpl; [reflexivity|].
  now rewrite IH.
Qed.

Lemma marks_find_other (reason : string) (l : list string) (s : Store)
    (y : string) :
  ~ In y l -> find_row (fold_left (mark flt now sql_now reason) l s) y = find_row s y.
Proof.
  revert s. induction l as [|x l IH]; intros s Hnot; simpl; [reflexivity|].
  rewrite IH by (intros Hin; apply Hnot; now right).
  apply mark_find_other. intros ->. apply Hnot. now left.
Qed.

Lemma live_tree_marks (reason : string) (l : list string) (s : Store)
    (t : tree) :
  live_tree s t = true ->
  NoDup l ->
  (forall x, In x l -> still_live s x = true) ->
  (forall x, In x l -> ~ In x (nodes t)) ->
  live_tree (fold_left (mark flt now sql_now reason) l s) t = true.
Proof.
  revert s. induction l as [|x l IH]; intros s H Hnd Hlive Hdisj; simpl;
    [exact H|].
  inversion Hnd as [|? ? Hx Hnd']; subst.
  apply IH; try assumption.
  - apply live_tree_mark; [exact H | | ]; auto with datatypes.
  - intros y Hy. rewrite still_live_mark_other.
    + apply Hlive. now right.
    + intros ->. contradiction.
  - intros y Hy. apply Hdisj. now right.
Qed.

End Walk.

Lemma NoDup_app_disjoint {A : Type} (a b : list A) :
  NoDup (a ++ b) -> forall x, In x a -> ~ In x b.
Proof.
  induction a as [|y a IH]; simpl; intros Hnd x Hx; [contradiction|].
  inversion Hnd as [|? ? Hy Hnd']; subst.
  destruct Hx as [-> | Hx].
  - intros Hb. apply Hy. apply in_or_app. now right.
  - now apply IH.
Qed.

Lemma issued_along_app (q : Queue) (a b : list string) :
  issued_along q (a ++ b) =
  issued_along q a
  + issued_along (fold_left (fun q id => snd (interrupt_in_rq q id)) a q) b.
Proof.
  revert q. induction a as [|x a IH]; intros q; simpl; [reflexivity|].
  rewrite IH. lia.
Qed.

Section WalkTree.

Variable flt : string -> db_fault.
Variables now sql_now : Q.

(** The loop over the fetched children, given the routine on each child. *)
Lemma cancel_children_walk (fuel : nat) :
  (forall k w,
      depth k <= fuel -> live_tree (store w) k = true -> NoDup (nodes k) ->
      cancel_job_and_children_recursive fuel flt now sql_now (root k) None
        PARENT_REVOKED_REASON w =
      Done (issued_along (queue w) (nodes k))
        (fold_left (visit flt now sql_now PARENT_REVOKED_REASON) (nodes k) w)) ->
  forall (rows : list Row) (kids : list tree) (count : nat) (w : World),
    filter (still_live (store w)) (map task_id rows) = map root kids ->
    Forall (fun k => live_tree (store w) k = true /\ depth k <= fuel) kids ->
    NoDup (flat_map nodes kids) ->
    cancel_children
      (fun child_job_id w' =>
         cancel_job_and_children_recursive fuel flt now sql_now child_job_id
           None PARENT_REVOKED_REASON w')
      now rows count w =
    Done (count + issued_along (queue w) (flat_map nodes kids))
      (fold_left (visit flt now sql_now PARENT_REVOKED_REASON)
         (flat_map nodes kids) w).
Proof.
  intros Hrec rows.
  induction rows as [|c rows IH]; intros kids count w Hf Hkids Hnd.
  - simpl in Hf. destruct kids; [|discriminate]. simpl. f_equal. lia.
  - simpl in Hf. simpl cancel_children. unfold get_task_info_from_db.
    unfold still_live in Hf at 1.
    destruct (find_row (store w) (task_id c)) as [r|] eqn:Hr; simpl.
    2:{ now apply IH. }
    destruct (status_terminal (status r)) eqn:Ht; simpl in *.
    { now apply IH. }
    destruct kids as [|k kids]; [discriminate|].
    simpl in Hf. injection Hf as Hroot Hf.
    inversion Hkids as [|? ? [Hk Hd] Hkids']; subst.
    simpl in Hnd.
    assert (Hndk : NoDup (nodes k)) by (eapply NoDup_app_remove_r; eauto).
    assert (Hndr : NoDup (flat_map nodes kids))
      by (eapply NoDup_app_remove_l; eauto).
    rewrite Hroot, (Hrec k w Hd Hk Hndk).
    assert (Hout : forall y, In y (map task_id rows) -> ~ In y (nodes k)).
    { intros y Hy Hin.
      pose proof (live_tree_still_live _ _ _ Hk Hin) as Hl.
      assert (Hy' : In y (map root kids))
        by (rewrite <- Hf; apply filter_In; now split).
      apply in_map_iff in Hy'. destruct Hy' as [k' [<- Hk']].
      apply (NoDup_app_disjoint _ _ Hnd (root k') Hin).
      apply in_flat_map. exists k'. split; [exact Hk'|].
      unfold nodes. apply in_map, subtrees_self. }
    rewrite IH with (kids := kids).
    + simpl. rewrite fold_left_app, issued_along_app, queue_visits.
      f_equal. lia.
    + rewrite store_visits. rewrite <- Hf. apply filter_ext_in.
      intros y Hy. unfold still_live.
      rewrite marks_find_other; [reflexivity | now apply Hout].
    + rewrite store_visits. rewrite Forall_forall in Hkids' |- *.
      intros k' Hk'. destruct (Hkids' k' Hk') as [Hl' Hd'].
      split; [|exact Hd'].
      apply live_tree_marks; try assumption.
      * intros x Hx. now apply (live_tree_still_live _ k).
      * intros x Hx Hx'. apply (NoDup_app_disjoint _ _ Hnd x Hx).
        apply in_flat_map. now exists k'.
    + exact Hndr.
Qed.

(** The routine on a stored tree of live tasks: it returns, having visited
    the nodes of the tree in order and nothing else. *)
Lemma cancel_walk (fuel : nat) :
  forall (t : tree) (w : World) (ty : option string) (reason : string),
    depth t <= fuel ->
    live_tree (store w) t = true ->
    NoDup (nodes t) ->
    cancel_job_and_children_recursive fuel flt now sql_now (root t) ty reason w =
    Done (issued_along (queue w) (nodes t))
      (revoke_tree flt now sql_now reason w t).
Proof.
  induction fuel as [|fuel IH]; intros [id kids] w ty reason Hd Hl Hnd.
  - simpl in Hd. lia.
  - pose proof (live_tree_node _ _ _ Hl (subtrees_self _)) as Hn.
    unfold live_node in Hn. simpl root in Hn. simpl children in Hn.
    apply andb_prop in Hn. destruct Hn as [Hn Hc].
    apply andb_prop in Hn. destruct Hn as [Hty Hlive].
    apply ids_eqb_eq in Hc.
    rewrite nodes_Node in Hnd. inversion Hnd as [|? ? Hid Hndk]; subst.
    assert (Hself : ~ In id (live_children (store w) id)).
    { rewrite Hc. intros Hin. apply Hid.
      apply in_map_iff in Hin. destruct Hin as [k [<- Hk]].
      apply in_flat_map. exists k. split; [exact Hk|].
      unfold nodes. apply in_map, subtrees_self. }
    unfold revoke_tree. rewrite nodes_Node. simpl root. simpl tl.
    simpl cancel_job_and_children_recursive.
    unfold get_task_info_from_db.
    unfold typed_row in Hty.
    destruct (find_row (store w) id) as [r|] eqn:Hr; [|discriminate].
    simpl. rewrite Hty. simpl.
    destruct (interrupt_in_rq (queue w) id) as [act q'] eqn:Hq.
    assert (Hv : visit flt now sql_now reason w id =
                 {| store := so_store
                               (save_task_status (flt id) id
                                  (revoke_args (task_type r) reason)
                                  now sql_now (store w));
                    queue := q' |}).
    { unfold visit, mark. now rewrite Hr, Hq. }
    rewrite <- Hv.
    assert (Hs : so_store (save_task_status (flt id) id
                             (revoke_args (task_type r) reason)
                             now sql_now (store w)) =
                 store (visit flt now sql_now reason w id))
      by now rewrite Hv.
    rewrite Hs.
    destruct (live_children_mark flt now sql_now reason (store w) id id
                Hlive Hself) as [Hch Hlc].
    rewrite (cancel_children_walk fuel) with (kids := kids).
    + f_equal. unfold visit at 1. simpl. now rewrite Hq.
    + intros k w' Hdk Hlk Hndk'.
      rewrite (IH k w' None PARENT_REVOKED_REASON Hdk Hlk Hndk').
      unfold revoke_tree. destruct k as [kid kk]. now rewrite nodes_Node.
    + simpl store at 1 2. fold (live_children (mark flt now sql_now reason (store w) id) id).
      now rewrite Hlc.
    + apply Forall_forall. intros k Hk. split.
      * simpl store. apply live_tree_mark; [ | exact Hlive | ].
        -- apply (live_tree_sub _ (Node id kids)); [exact Hl|].
           simpl. right. apply in_flat_map. exists k.
           split; [exact Hk | apply subtrees_self].
        -- intros Hin. apply Hid. apply in_flat_map. now exists k.
      * now apply (depth_kid id kids).
    + exact Hndk.
Qed.

End WalkTree.

(** ** What the visits leave behind *)

Lemma lookup_set_job_status_other (l : list (string * Job)) (id y : string)
    (st : JobStatus.t) :
  y <> id -> lookup_job (set_job_status l id st) y = lookup_job l y.
Proof.
  intros Hne. induction l as [|[k j] l IH]; simpl; [reflexivity|].
  destruct (String.eqb k id) eqn:E; simpl.
  - apply String.eqb_eq in E; subst k.
    destruct (String.eqb id y) eqn:E'; [|reflexivity].
    apply String.eqb_eq in E'. congruence.
  - now rewrite IH.
Qed.

Lemma interrupt_issued (q : Queue) (id : string) :
  fst (interrupt_in_rq q id) = commandable q id.
Proof.
  unfold interrupt_in_rq, commandable, send_stop_job_command, job_cancel.
  destruct (fetch q id) as [j|]; [|reflexivity].
  destruct (negb (is_finished j) && negb (is_failed j) && negb (is_canceled j));
    [|reflexivity].
  destruct (is_started j), (accepts_commands j); reflexivity.
Qed.

Lemma interrupt_sent (q : Queue) (id : string) :
  sent (snd (interrupt_in_rq q id)) = sent q ++ commands_for q [id].
Proof.
  unfold commands_for. simpl. rewrite <- interrupt_issued.
  unfold interrupt_in_rq, command_for, send_stop_job_command, job_cancel.
  destruct (fetch q id) as [[st m e acc]|] eqn:E; simpl;
    [|now rewrite app_nil_r].
  destruct st, acc; simpl; rewrite ?E, ?app_nil_r; reflexivity.
Qed.

Lemma interrupt_fetch_other (q : Queue) (id y : string) :
  y <> id -> fetch (snd (interrupt_in_rq q id)) y = fetch q y.
Proof.
  intros Hne.
  unfold interrupt_in_rq, send_stop_job_command, job_cancel.
  destruct (fetch q id) as [j|]; [|reflexivity].
  destruct (negb (is_finished j) && negb (is_failed j) && negb (is_canceled j));
    [|reflexivity].
  destruct (is_started j), (accepts_commands j); simpl; try reflexivity.
  unfold fetch. simpl. now apply lookup_set_job_status_other.
Qed.

Lemma commands_for_other (q : Queue) (id : string) (l : list string) :
  ~ In id l ->
  commands_for (snd (interrupt_in_rq q id)) l = commands_for q l
  /\ filter (commandable (snd (interrupt_in_rq q id))) l
     = filter (commandable q) l.
Proof.
  intros Hnot.
  assert (Hf : filter (commandable (snd (interrupt_in_rq q id))) l
               = filter (commandable q) l).
  { apply filter_ext_in. intros y Hy. unfold commandable.
    rewrite interrupt_fetch_other; [reflexivity|]. intros ->. contradiction. }
  split; [|exact Hf].
  unfold commands_for. rewrite Hf. apply map_ext_in. intros y Hy.
  apply filter_In in Hy. destruct Hy as [Hy _].
  unfold command_for. rewrite interrupt_fetch_other; [reflexivity|].
  intros ->. contradiction.
Qed.

Lemma issued_along_count (l : list string) (q : Queue) :
  NoDup l ->
  issued_along q l = List.length (filter (commandable q) l).
Proof.
  revert q. induction l as [|x l IH]; intros q Hnd; simpl; [reflexivity|].
  inversion Hnd as [|? ? Hx Hnd']; subst.
  rewrite IH by exact Hnd'.
  destruct (commands_for_other q x l Hx) as [_ ->].
  rewrite interrupt_issued.
  destruct (commandable q x); reflexivity.
Qed.

Lemma interrupts_sent (l : list string) (q : Queue) :
  NoDup l ->
  sent (fold_left (fun q id => snd (interrupt_in_rq q id)) l q)
  = sent q ++ commands_for q l.
Proof.
  revert q. induction l as [|x l IH]; intros q Hnd; simpl.
  - unfold commands_for. simpl. now rewrite app_nil_r.
  - inversion Hnd as [|? ? Hx Hnd']; subst.
    rewrite IH by exact Hnd'.
    destruct (commands_for_other q x l Hx) as [-> _].
    rewrite interrupt_sent, <- app_assoc. f_equal.
    unfold commands_for. simpl.
    destruct (commandable q x); reflexivity.
Qed.

Section Revoked.

Variables now sql_now : Q.

Lemma mark_revokes (reason : string) (s : Store) (id : string) (r : Row) :
  find_row s id = Some r ->
  exists r', find_row (mark no_fault now sql_now reason s id) id = Some r'
             /\ revoked_with reason r'.
Proof.
  intros Hr. unfold mark. rewrite Hr. simpl. unfold save_statement.
  pose proof (find_row_upsert_same
                (insert_row id None (task_type r) None TASK_STATUS_REVOKED 100
                   (details_json TASK_STATUS_REVOKED
                      (Some (JDict [("message", JStr reason)]))) now sql_now)
                (update_row None None TASK_STATUS_REVOKED 100
                   (details_json TASK_STATUS_REVOKED
                      (Some (JDict [("message", JStr reason)]))) now sql_now)
                s (fun _ => eq_refl)) as H.
  simpl task_id in H. simpl. rewrite H, Hr.
  eexists. split; [reflexivity|]. repeat split.
Qed.

Lemma marks_revoke (reason : string) (l : list string) (s : Store)
    (id : string) :
  NoDup l -> In id l -> has_row s id = true ->
  exists r', find_row (fold_left (mark no_fault now sql_now reason) l s) id
             = Some r'
             /\ revoked_with reason r'.
Proof.
  revert s. induction l as [|x l IH]; intros s Hnd Hin Hrow; [contradiction|].
  inversion Hnd as [|? ? Hx Hnd']; subst. simpl.
  destruct (string_dec id x) as [-> | Hne].
  - rewrite marks_find_other by exact Hx.
    unfold has_row in Hrow.
    destruct (find_row s x) as [r|] eqn:Hr; [|discriminate].
    now apply (mark_revokes reason s x r).
  - destruct Hin as [-> | Hin]; [congruence|].
    apply IH; try assumption.
    unfold has_row. now rewrite mark_find_other.
Qed.

(** The table after the walk of a tree. *)
Lemma revoke_tree_store (reason : string) (w : World) (t : tree) :
  NoDup (nodes t) ->
  (forall id, In id (nodes t) -> has_row (store w) id = true) ->
  let w' := revoke_tree no_fault now sql_now reason w t in
  (forall id, In id (nodes t) ->
              exists r, find_row (store w') id = Some r
                        /\ revoked_with (reason_of reason t id) r)
  /\ (forall id, ~ In id (nodes t) ->
                 find_row (store w') id = find_row (store w) id).
Proof.
  intros Hnd Hrows w'. subst w'. unfold revoke_tree.
  rewrite store_visits. simpl store.
  rewrite (nodes_root t) in Hnd, Hrows.
  inversion Hnd as [|? ? Hroot Hnd']; subst.
  split.
  - intros id Hin. rewrite (nodes_root t) in Hin. unfold reason_of.
    destruct (String.eqb id (root t)) eqn:E.
    + apply String.eqb_eq in E; subst id.
      rewrite marks_find_other by exact Hroot.
      specialize (Hrows (root t) (or_introl eq_refl)).
      unfold has_row in Hrows.
      destruct (find_row (store w) (root t)) as [r|] eqn:Hr; [|discriminate].
      now apply (mark_revokes reason _ _ r).
    + apply String.eqb_neq in E.
      destruct Hin as [Heq | Hin]; [congruence|].
      apply marks_revoke; try assumption.
      unfold has_row. rewrite mark_find_other by exact E.
      apply Hrows. now right.
  - intros id Hnot. rewrite (nodes_root t) in Hnot.
    rewrite marks_find_other by (intros Hin; apply Hnot; now right).
    apply mark_find_other. intros ->. apply Hnot. now left.
Qed.

Lemma revoke_tree_queue (flt : string -> db_fault) (reason : string)
    (w : World) (t : tree) :
  NoDup (nodes t) ->
  sent (queue (revoke_tree flt now sql_now reason w t))
  = sent (queue w) ++ commands_for (queue w) (nodes t).
Proof.
  intros Hnd. unfold revoke_tree. rewrite queue_visits. simpl queue.
  rewrite <- (interrupts_sent (nodes t) (queue w) Hnd).
  destruct t as [id kids]. now rewrite nodes_Node.
Qed.

End Revoked.

(** ** Recursive cancellation *)

(** A stored tree all of whose nodes are live and none of whose stored
    children is left out is a tree the walk follows. *)
Lemma whole_live_tree (s : Store) (t : tree) :
  whole_tree s t = true ->
  (forall id, In id (nodes t) -> typed_row s id = true /\ still_live s id = true) ->
  live_tree s t = true.
Proof.
  unfold whole_tree, live_tree. rewrite !forallb_forall.
  intros Hw Hall n Hn. unfold live_node.
  assert (Hroot : In (root n) (nodes t)) by (unfold nodes; now apply in_map).
  destruct (Hall _ Hroot) as [-> ->]. simpl.
  unfold live_children. rewrite (ids_eqb_eq _ _ (Hw n Hn)).
  replace (filter (still_live s) (map root (children n)))
    with (map root (children n)).
  - unfold ids_eqb. now destruct (list_eq_dec string_dec _ _).
  - symmetry. apply forallb_filter_id. apply forallb_forall.
    intros x Hx. apply in_map_iff in Hx. destruct Hx as [k [<- Hk]].
    apply Hall. now apply (kid_root_in_nodes t n k).
Qed.

(** C1. Cancelling the root of a stored tree of non-terminal tasks returns
    (given fuel for the depth of the tree), leaves every node of the tree
    REVOKED with progress 100 and details [{message: reason}] - the
    caller's reason at the root, "Cancelled due to parent task
    revocation." below it -, leaves every other row as it was (a child
    with a terminal status is not entered), and returns the number of
    nodes whose job was in the engine, in none of its terminal states, and
    took the stop or cancel command; these are the commands sent. *)
Theorem cancel_revokes_tree (now sql_now : Q) (fuel : nat) (t : tree)
    (w : World) (ty : option string) (reason : string) :
  live_tree (store w) t = true ->
  NoDup (nodes t) ->
  depth t <= fuel ->
  exists w',
    cancel_job_and_children_recursive fuel no_fault now sql_now (root t) ty
      reason w
    = Done (List.length (filter (commandable (queue w)) (nodes t))) w'
    /\ (forall id, In id (nodes t) ->
                   exists r, find_row (store w') id = Some r
                             /\ revoked_with (reason_of reason t id) r)
    /\ (forall id, ~ In id (nodes t) ->
                   find_row (store w') id = find_row (store w) id)
    /\ sent (queue w') = sent (queue w) ++ commands_for (queue w) (nodes t)
    /\ List.length (commands_for (queue w) (nodes t))
       = List.length (filter (commandable (queue w)) (nodes t)).
Proof.
  intros Hl Hnd Hd.
  exists (revoke_tree no_fault now sql_now reason w t).
  assert (Hrows : forall id, In id (nodes t) -> has_row (store w) id = true).
  { intros id Hin. pose proof (live_tree_still_live _ _ _ Hl Hin) as H.
    unfold still_live in H. unfold has_row.
    now destruct (find_row (store w) id). }
  destruct (revoke_tree_store now sql_now reason w t Hnd Hrows) as [Hin Hout].
  split; [|split; [exact Hin | split; [exact Hout | split]]].
  - rewrite (cancel_walk no_fault now sql_now fuel t w ty reason Hd Hl Hnd).
    now rewrite issued_along_count.
  - now apply revoke_tree_queue.
  - unfold commands_for. apply length_map.
Qed.

Lemma cancel_revokes_tree_witness :
  live_tree (store family_world) family_tree = true
  /\ NoDup (nodes family_tree)
  /\ depth family_tree <= 3
  /\ exists w',
      cancel_job_and_children_recursive 3 no_fault (2000 # 1) (2000 # 1) "R"
        None "Cancellation requested for task R via API." family_world
      = Done 2 w'
      /\ sent (queue w') = [StopJob "R"; CancelJob "G"].
Proof.
  assert (Hl : live_tree (store family_world) family_tree = true)
    by reflexivity.
  assert (Hnd : NoDup (nodes family_tree))
    by (repeat constructor; simpl; intuition discriminate).
  assert (Hd : depth family_tree <= 3) by (simpl; lia).
  repeat split; try assumption.
  destruct (cancel_revokes_tree (2000 # 1) (2000 # 1) 3 family_tree
              family_world None "Cancellation requested for task R via API."
              Hl Hnd Hd) as [w' [Hrun [_ [_ [Hsent _]]]]].
  exists w'. split; [exact Hrun | exact Hsent].
Defined.

(** ** The cancel endpoint *)

(** A node other than the root is the root of a child of a node. *)
Lemma nodes_parent (t : tree) (y : string) :
  In y (nodes t) ->
  y = root t
  \/ exists n k, In n (subtrees t) /\ In k (children n) /\ root k = y.
Proof.
  induction t as [id kids IH] using tree_induction.
  rewrite nodes_Node. intros [<- | Hin]; [now left|]. right.
  apply in_flat_map in Hin. destruct Hin as [k [Hk Hy]].
  rewrite Forall_forall in IH.
  destruct (IH k Hk Hy) as [-> | [n [k' [Hn [Hk' Hr]]]]].
  - exists (Node id kids), k. repeat split; [apply subtrees_self|exact Hk].
  - exists n, k'. repeat split; try assumption.
    apply (subtrees_kid (Node id kids) k Hk). exact Hn.
Qed.

Lemma find_row_unique (s : Store) (r : Row) :
  NoDup (map task_id s) -> In r s -> find_row s (task_id r) = Some r.
Proof.
  intros Hnd Hin. pose proof (In_has_row s r Hin) as Hh. unfold has_row in Hh.
  destruct (find_row s (task_id r)) as [r0|] eqn:Hr; [|discriminate].
  f_equal. apply (unique_row s r0 r Hnd); [|exact Hin|].
  - now apply (find_row_In s (task_id r)).
  - now apply (find_row_id s (task_id r)).
Qed.

(** In the tree the walk follows, the stored parent of a node other than
    the root is a node: a task whose stored parent is not live is not in
    the tree. *)
Lemma live_tree_parent (s : Store) (t : tree) (y : string) :
  NoDup (map task_id s) ->
  live_tree s t = true ->
  In y (nodes t) -> y <> root t ->
  exists r x,
    find_row s y = Some r /\ parent_task_id r = Some x /\ In x (nodes t).
Proof.
  intros Hnd Hl Hin Hne.
  destruct (nodes_parent t y Hin) as [-> | [n [k [Hn [Hk Hr]]]]];
    [now elim Hne|].
  pose proof (live_tree_node s t n Hl Hn) as Hnode. unfold live_node in Hnode.
  apply andb_prop in Hnode. destruct Hnode as [_ Hc].
  apply ids_eqb_eq in Hc.
  assert (Hy : In y (live_children s (root n))).
  { rewrite Hc, <- Hr. now apply in_map. }
  unfold live_children in Hy. apply filter_In in Hy. destruct Hy as [Hy _].
  apply in_map_iff in Hy. destruct Hy as [r [Hid Hrow]].
  unfold get_child_tasks_from_db in Hrow. apply filter_In in Hrow.
  destruct Hrow as [Hrow Hchild]. unfold is_child_of in Hchild.
  destruct (parent_task_id r) as [p|] eqn:Hp; [|discriminate].
  apply String.eqb_eq in Hchild. subst p.
  exists r, (root n). split; [|split].
  - rewrite <- Hid. now apply find_row_unique.
  - exact Hp.
  - unfold nodes. now apply in_map.
Qed.

Section RevokedUnderFaults.

Variable flt : string -> db_fault.
Variables now sql_now : Q.

Lemma mark_accepted (reason : string) (s : Store) (id : string) :
  flt id = NoFault ->
  mark flt now sql_now reason s id = mark no_fault now sql_now reason s id.
Proof. intros H. unfold mark, no_fault. now rewrite H. Qed.

Lemma marks_revoke_accepted (reason : string) (l : list string) (s : Store)
    (id : string) :
  NoDup l -> In id l -> has_row s id = true -> flt id = NoFault ->
  exists r', find_row (fold_left (mark flt now sql_now reason) l s) id
             = Some r'
             /\ revoked_with reason r'.
Proof.
  revert s. induction l as [|x l IH]; intros s Hnd Hin Hrow Hok;
    [contradiction|].
  inversion Hnd as [|? ? Hx Hnd']; subst. simpl.
  destruct (string_dec id x) as [-> | Hne].
  - rewrite marks_find_other by exact Hx.
    unfold has_row in Hrow.
    destruct (find_row s x) as [r|] eqn:Hr; [|discriminate].
    rewrite mark_accepted by exact Hok.
    now apply (mark_revokes now sql_now reason s x r).
  - destruct Hin as [-> | Hin]; [congruence|].
    apply IH; try assumption.
    unfold has_row. now rewrite mark_find_other.
Qed.

(** The table after the walk of a tree under any faults: a node whose
    status write the store accepts is REVOKED, and no row outside the tree
    is touched. *)
Lemma revoke_tree_store_accepted (reason : string) (w : World) (t : tree) :
  NoDup (nodes t) ->
  (forall id, In id (nodes t) -> has_row (store w) id = true) ->
  let w' := revoke_tree flt now sql_now reason w t in
  (forall id, In id (nodes t) -> flt id = NoFault ->
              exists r, find_row (store w') id = Some r
                        /\ revoked_with (reason_of reason t id) r)
  /\ (forall id, ~ In id (nodes t) ->
                 find_row (store w') id = find_row (store w) id).
Proof.
  intros Hnd Hrows w'. subst w'. unfold revoke_tree.
  rewrite store_visits. simpl store.
  rewrite (nodes_root t) in Hnd, Hrows.
  inversion Hnd as [|? ? Hroot Hnd']; subst.
  split.
  - intros id Hin Hok. rewrite (nodes_root t) in Hin. unfold reason_of.
    destruct (String.eqb id (root t)) eqn:E.
    + apply String.eqb_eq in E; subst id.
      rewrite marks_find_other by exact Hroot.
      specialize (Hrows (root t) (or_introl eq_refl)).
      unfold has_row in Hrows.
      destruct (find_row (store w) (root t)) as [r|] eqn:Hr; [|discriminate].
      rewrite mark_accepted by exact Hok.
      now apply (mark_revokes now sql_now reason _ _ r).
    + apply String.eqb_neq in E.
      destruct Hin as [Heq | Hin]; [congruence|].
      apply marks_revoke_accepted; try assumption.
      unfold has_row. rewrite mark_find_other by exact E.
      apply Hrows. now right.
  - intros id Hnot. rewrite (nodes_root t) in Hnot.
    rewrite marks_find_other by (intros Hin; apply Hnot; now right).
    apply mark_find_other. intros ->. apply Hnot. now left.
Qed.

End RevokedUnderFaults.

(** C10, as amended. When the routine, called by the endpoint on a task
    with a non-terminal status, reports no affected job, the endpoint
    answers 400 "Task could not be cancelled ..." although the same call
    has left REVOKED, with progress 100, the task and every descendant
    linked to it through children that were non-terminal - the nodes of
    the tree the walk follows -, each of them whose status write the store
    accepted. Every task outside that tree has the row it had; on a table
    with unique task ids these are in particular the tasks, other than the
    one cancelled, whose stored parent was already terminal. This holds
    whatever faults meet the status writes. *)
Theorem cancel_endpoint_400_after_revoking (flt : string -> db_fault)
    (now sql_now : Q) (fuel : nat) (t : tree) (w w' : World) :
  live_tree (store w) t = true ->
  NoDup (nodes t) ->
  depth t <= fuel ->
  cancel_job_and_children_recursive fuel flt now sql_now (root t) None
    ("Cancellation requested for task " ++ root t ++ " via API.")%string w
  = Done 0 w' ->
  cancel_task_endpoint fuel flt now sql_now (root t) w
  = Done (body_could_not_cancel (root t), 400) w'
  /\ filter (commandable (queue w)) (nodes t) = []
  /\ (forall id, In id (nodes t) -> flt id = NoFault ->
        exists r, find_row (store w') id = Some r
                  /\ status r = Some TASK_STATUS_REVOKED
                  /\ progress r = Some 100%Z)
  /\ (forall y, ~ In y (nodes t) ->
                find_row (store w') y = find_row (store w) y)
  /\ (NoDup (map task_id (store w)) ->
      forall y r p,
        y <> root t ->
        find_row (store w) y = Some r ->
        parent_task_id r = Some p ->
        still_live (store w) p = false ->
        find_row (store w') y = Some r).
Proof.
  intros Hl Hnd Hd Hrun.
  assert (Hroot : still_live (store w) (root t) = true).
  { apply (live_tree_still_live _ t); [exact Hl|].
    rewrite (nodes_root t). now left. }
  assert (Hrows : forall id, In id (nodes t) -> has_row (store w) id = true).
  { intros id Hin. pose proof (live_tree_still_live _ _ _ Hl Hin) as H.
    unfold still_live in H. unfold has_row.
    now destruct (find_row (store w) id). }
  assert (Hend : cancel_task_endpoint fuel flt now sql_now (root t) w
                 = Done (body_could_not_cancel (root t), 400) w').
  { unfold cancel_task_endpoint, get_task_info_from_db.
    unfold still_live in Hroot.
    destruct (find_row (store w) (root t)) as [r|]; [|discriminate].
    cbn [ti_row]. apply negb_true_iff in Hroot. rewrite Hroot, Hrun.
    reflexivity. }
  rewrite (cancel_walk flt now sql_now fuel t w None _ Hd Hl Hnd) in Hrun.
  injection Hrun as Hcount Hw'. subst w'.
  destruct (revoke_tree_store_accepted flt now sql_now
              ("Cancellation requested for task " ++ root t ++ " via API.")%string
              w t Hnd Hrows) as [Hrev Hout].
  split; [exact Hend|]. split; [|split; [|split]].
  - rewrite issued_along_count in Hcount by exact Hnd.
    now apply length_zero_iff_nil.
  - intros id Hin Hok.
    destruct (Hrev id Hin Hok) as [r [Hr [Hs [Hp _]]]].
    exists r. auto.
  - exact Hout.
  - intros Hids y r p Hne Hr Hp Hdead.
    rewrite <- Hr. apply Hout. intros Hin.
    destruct (live_tree_parent (store w) t y Hids Hl Hin Hne)
      as [r0 [x [Hr0 [Hx Hxin]]]].
    rewrite Hr in Hr0. injection Hr0 as <-.
    rewrite Hp in Hx. injection Hx as <-.
    rewrite (live_tree_still_live _ _ _ Hl Hxin) in Hdead. discriminate.
Qed.

Lemma cancel_endpoint_400_after_revoking_witness :
  live_tree (store forgotten_world) family_tree = true
  /\ NoDup (nodes family_tree)
  /\ depth family_tree <= 3
  /\ exists w',
      cancel_task_endpoint 3 no_fault (2000 # 1) (2000 # 1) "R" forgotten_world
      = Done (body_could_not_cancel "R", 400) w'
      /\ (forall id, In id ["R"; "C1"; "G"; "C2"] ->
            exists r, find_row (store w') id = Some r
                      /\ status r = Some TASK_STATUS_REVOKED
                      /\ progress r = Some 100%Z)
      /\ (forall y, ~ In y ["R"; "C1"; "G"; "C2"] ->
                    find_row (store w') y = find_row family_store y).
Proof.
  assert (Hl : live_tree (store forgotten_world) family_tree = true)
    by reflexivity.
  assert (Hnd : NoDup (nodes family_tree))
    by (repeat constructor; simpl; intuition discriminate).
  assert (Hd : depth family_tree <= 3) by (simpl; lia).
  repeat split; try assumption.
  eexists.
  destruct (cancel_endpoint_400_after_revoking no_fault (2000 # 1) (2000 # 1)
              3 family_tree forgotten_world _ Hl Hnd Hd eq_refl)
    as [Hend [_ [Hrev [Hout _]]]].
  split; [exact Hend|]. split; [|exact Hout].
  intros id Hin. now apply Hrev.
Defined.

(** C10 as stated fails: [G] is a non-terminal descendant of [R], the call
    answers 400 with no job affected, and [G] is still PENDING afterwards,
    because its parent [C] had already succeeded. *)
Lemma cancel_endpoint_skips_under_terminal_child :
  exists w',
    cancel_task_endpoint 3 no_fault (2000 # 1) (2000 # 1) "R" orphan_world
    = Done (body_could_not_cancel "R", 400) w'
    /\ cancel_job_and_children_recursive 3 no_fault (2000 # 1) (2000 # 1) "R"
         None "Cancellation requested for task R via API." orphan_world
       = Done 0 w'
    /\ option_map parent_task_id (find_row (store orphan_world) "G")
       = Some (Some "C")
    /\ option_map parent_task_id (find_row (store orphan_world) "C")
       = Some (Some "R")
    /\ option_map status (find_row (store orphan_world) "G")
       = Some (Some TASK_STATUS_PENDING)
    /\ option_map status (find_row (store w') "R")
       = Some (Some TASK_STATUS_REVOKED)
    /\ option_map status (find_row (store w') "G")
       = Some (Some TASK_STATUS_PENDING).
Proof.
  eexists. split; [vm_compute; reflexivity|].
  repeat split; vm_compute; reflexivity.
Qed.

(** * Further properties *)

(** ** Cancellation on an arbitrary table *)

Lemma revokes_only_refl (s : Store) : revokes_only s s.
Proof. intros y r H. exists r. auto. Qed.

Lemma revokes_only_trans (s1 s2 s3 : Store) :
  revokes_only s1 s2 -> revokes_only s2 s3 -> revokes_only s1 s3.
Proof.
  intros H12 H23 y r Hr.
  destruct (H12 y r Hr) as [r2 [Hr2 [Ht2 Hs2]]].
  destruct (H23 y r2 Hr2) as [r3 [Hr3 [Ht3 Hs3]]].
  exists r3. split; [exact Hr3|]. split; [congruence|].
  destruct Hs3 as [Hs3 | Hs3]; [|now right].
  destruct Hs2 as [Hs2 | Hs2]; [left | right]; congruence.
Qed.

Lemma count_live_upsert (new : Row) (upd : Row -> Row) (s : Store) :
  status_terminal (status new) = true ->
  (forall r, status_terminal (status (upd r)) = true) ->
  count_live (upsert new upd s)
  + (if still_live s (task_id new) then 1 else 0)
  = count_live s.
Proof.
  intros Hnew Hupd. unfold count_live, still_live.
  induction s as [|r s IH]; simpl.
  - now rewrite Hnew.
  - destruct (String.eqb (task_id r) (task_id new)) eqn:E; simpl.
    + rewrite Hupd. simpl.
      destruct (negb (status_terminal (status r))); simpl; lia.
    + destruct (negb (status_terminal (status r))); simpl; lia.
Qed.

Lemma typed_store_upsert (new : Row) (upd : Row -> Row) (s : Store) :
  String.eqb (task_type new) "" = false ->
  (forall r, task_type (upd r) = task_type r) ->
  typed_store s = true ->
  typed_store (upsert new upd s) = true.
Proof.
  intros Hnew Hupd. unfold typed_store.
  induction s as [|r s IH]; simpl; intros H.
  - now rewrite Hnew.
  - apply andb_prop in H. destruct H as [Hr Hs].
    destruct (String.eqb (task_id r) (task_id new)); simpl.
    + now rewrite Hupd, Hr.
    + now rewrite Hr, IH.
Qed.

Lemma typed_store_find (s : Store) (y : string) (r : Row) :
  typed_store s = true -> find_row s y = Some r ->
  String.eqb (task_type r) "" = false.
Proof.
  unfold typed_store. induction s as [|r0 s IH]; simpl; [discriminate|].
  intros H. apply andb_prop in H. destruct H as [Hr Hs].
  destruct (String.eqb (task_id r0) y).
  - intros [= <-]. now apply negb_true_iff.
  - now apply IH.
Qed.

Section AnyTable.

Variable flt : string -> db_fault.
Variables now sql_now : Q.

(** The REVOKED write of one task, on any table and under any fault. *)
Lemma revoke_write (id ty reason : string) (s : Store) :
  let s1 := so_store (save_task_status (flt id) id (revoke_args ty reason)
                        now sql_now s) in
  (forall y, y <> id -> find_row s1 y = find_row s y)
  /\ revokes_only s s1
  /\ count_live s1 <= count_live s
  /\ (String.eqb ty "" = false -> typed_store s = true ->
      typed_store s1 = true).
Proof.
  intros s1. subst s1. unfold save_task_status.
  destruct (flt id); simpl.
  2,3: (split; [reflexivity|]; split; [apply revokes_only_refl|];
        split; [lia | auto]).
  unfold save_statement. split; [|split; [|split]].
  - intros y Hy. now apply find_row_upsert_other.
  - intros y r Hr. destruct (string_dec y id) as [-> | Hne].
    + pose proof (find_row_saved id (revoke_args ty reason) now sql_now s) as H.
      unfold save_statement in H. rewrite H, Hr.
      eexists. split; [reflexivity|]. simpl. auto.
    + exists r. rewrite find_row_upsert_other by (auto; exact Hne). auto.
  - match goal with
    | |- count_live (upsert ?n ?u s) <= _ =>
        pose proof (count_live_upsert n u s eq_refl (fun _ => eq_refl)) as H
    end.
    lia.
  - intros Hty Hs. apply typed_store_upsert; auto.
Qed.

Lemma interrupt_sent_length (q : Queue) (id : string) :
  List.length (sent (snd (interrupt_in_rq q id)))
  = List.length (sent q) + (if fst (interrupt_in_rq q id) then 1 else 0).
Proof.
  rewrite interrupt_sent, interrupt_issued, length_app.
  unfold commands_for. simpl.
  destruct (commandable q id); reflexivity.
Qed.

End AnyTable.

Lemma kept_refl (skip : list string) (w : World) : kept skip w w.
Proof.
  repeat split; auto. apply revokes_only_refl.
Qed.

Lemma kept_trans (skip : list string) (w1 w2 w3 : World) :
  kept skip w1 w2 -> kept [] w2 w3 -> kept skip w1 w3.
Proof.
  intros [R12 [F12 [C12 [T12 M12]]]] [R23 [F23 [C23 [T23 M23]]]].
  repeat split.
  - eapply revokes_only_trans; eauto.
  - intros y Hy Hl. rewrite F23; [now apply F12 | auto |].
    unfold still_live in *. now rewrite F12.
  - lia.
  - auto.
  - intros y. now rewrite M23.
Qed.

Lemma kept_live (c : string) (w w' : World) :
  still_live (store w) c = true -> kept [c] w w' -> kept [] w w'.
Proof.
  intros Hc [R [F [C [T M]]]]. repeat split; auto.
  intros y _ Hl. apply F; [|exact Hl].
  intros [-> | []]. congruence.
Qed.

Lemma interrupt_meta (q : Queue) (id y : string) :
  option_map meta (fetch (snd (interrupt_in_rq q id)) y)
  = option_map meta (fetch q y).
Proof.
  unfold interrupt_in_rq, send_stop_job_command, job_cancel.
  destruct (fetch q id) as [[st m e acc]|] eqn:E; [|reflexivity].
  destruct st, acc; simpl; try reflexivity.
  all: unfold fetch in *; simpl; clear -E;
    induction (jobs q) as [|[k j] l IH]; simpl in *; [reflexivity|];
    destruct (String.eqb k id) eqn:Ek; simpl.
  all: try (apply String.eqb_eq in Ek; subst k;
            destruct (String.eqb id y); [now inversion E | reflexivity]).
  all: destruct (String.eqb k y); [reflexivity | now apply IH].
Qed.

Section AnyTableWalk.

Variable flt : string -> db_fault.
Variables now sql_now : Q.

Lemma cancel_children_kept (recurse : string -> World -> outcome nat) :
  (forall c w, still_live (store w) c = true ->
               kept [] w (world_after (recurse c w) w)
               /\ counts_sent 0 w (recurse c w)) ->
  forall (rows : list Row) (count : nat) (w : World),
    kept [] w (world_after (cancel_children recurse now rows count w) w)
    /\ counts_sent count w (cancel_children recurse now rows count w).
Proof.
  intros Hrec rows.
  induction rows as [|c rows IH]; intros count w; simpl.
  - split; [apply kept_refl | simpl; lia].
  - unfold get_task_info_from_db.
    destruct (find_row (store w) (task_id c)) as [r|] eqn:Hr; simpl;
      [|apply IH].
    destruct (status_terminal (status r)) eqn:Ht; simpl; [apply IH|].
    assert (Hl : still_live (store w) (task_id c) = true)
      by (unfold still_live; now rewrite Hr, Ht).
    destruct (Hrec _ _ Hl) as [Hk Hc].
    destruct (recurse (task_id c) w) as [n w1|e w1|]; simpl in *.
    + destruct (IH (count + n) w1) as [Hk' Hc'].
      unfold counts_sent in *.
      destruct (cancel_children recurse now rows (count + n) w1)
        as [m w2|e w2|]; simpl in *.
      * split; [eapply kept_trans; eauto | lia].
      * split; [eapply kept_trans; eauto | exact I].
      * split; [apply kept_refl | exact I].
    + split; [exact Hk | exact I].
    + split; [apply kept_refl | exact I].
Qed.

(** The routine on any table, with any faults. *)
Lemma cancel_kept (fuel : nat) :
  forall (id : string) (ty : option string) (reason : string) (w : World),
    kept [id] w
      (world_after
         (cancel_job_and_children_recursive fuel flt now sql_now id ty reason w)
         w)
    /\ counts_sent 0 w
         (cancel_job_and_children_recursive fuel flt now sql_now id ty reason w).
Proof.
  induction fuel as [|fuel IH]; intros id ty reason w.
  - simpl. split; [apply kept_refl | exact I].
  - simpl cancel_job_and_children_recursive.
    unfold get_task_info_from_db.
    set (cty := match
                  match find_row (store w) id with
                  | Some r =>
                      Some {| ti_row := r;
                              running_time_seconds := running_time now r |}
                  | None => None
                  end
                with
                | Some info => Some (task_type (ti_row info))
                | None => ty
                end).
    destruct (str_truthy cty) eqn:Hty; simpl.
    + (* the type is known *)
      set (ttype := match cty with Some t => t | None => "" end).
      assert (Httype : String.eqb ttype "" = false).
      { unfold ttype. unfold str_truthy in Hty.
        destruct cty; [now apply negb_true_iff | discriminate]. }
      destruct (revoke_write flt now sql_now id ttype reason (store w))
        as [Hother [Hrev [Hcount Htyped]]].
      destruct (interrupt_in_rq (queue w) id) as [act q'] eqn:Hq.
      set (w2 := {| store := so_store
                               (save_task_status (flt id) id
                                  (revoke_args ttype reason) now sql_now
                                  (store w));
                    queue := q' |}).
      assert (Hstep : kept [id] w w2).
      { split; [exact Hrev|].
        split; [intros y Hy _; apply Hother; intros ->; apply Hy; now left|].
        split; [exact Hcount|]. split; [exact (Htyped Httype)|].
        intros y. simpl. replace q' with (snd (interrupt_in_rq (queue w) id))
          by now rewrite Hq.
        apply interrupt_meta. }
      pose proof (interrupt_sent_length (queue w) id) as Hlen.
      rewrite Hq in Hlen. simpl in Hlen.
      destruct (cancel_children_kept
                  (fun child_job_id w' =>
                     cancel_job_and_children_recursive fuel flt now sql_now
                       child_job_id None PARENT_REVOKED_REASON w')
                  (fun c w0 Hl =>
                     conj (kept_live c _ _ Hl
                             (proj1 (IH c None PARENT_REVOKED_REASON w0)))
                          (proj2 (IH c None PARENT_REVOKED_REASON w0)))
                  (get_child_tasks_from_db (store w2) id)
                  (if act then 1 else 0) w2) as [Hk Hc].
      fold w2.
      destruct (cancel_children _ now _ _ w2) as [n w3|e w3|]; simpl in *.
      * split; [eapply kept_trans; eauto|]. lia.
      * split; [eapply kept_trans; eauto | exact I].
      * split; [apply kept_refl | exact I].
    + (* the type cannot be resolved *)
      unfold send_stop_job_command.
      destruct (fetch (queue w) id) as [j|]; simpl.
      * destruct (accepts_commands j); simpl.
        -- split; [repeat split; simpl; auto; apply revokes_only_refl|].
           rewrite length_app. simpl. lia.
        -- split; [apply kept_refl | exact I].
      * split; [apply kept_refl | lia].
Qed.

End AnyTableWalk.

Lemma live_counted (s : Store) (id : string) :
  still_live s id = true -> 1 <= count_live s.
Proof.
  unfold still_live, count_live.
  induction s as [|r s IH]; simpl; [discriminate|].
  destruct (String.eqb (task_id r) id).
  - intros ->. simpl. lia.
  - intros H. specialize (IH H).
    destruct (negb (status_terminal (status r))); simpl; lia.
Qed.

Section AnyTableReturns.

Variables now sql_now : Q.

Lemma count_live_revoked (id ty reason : string) (s : Store) :
  count_live (save_statement id (revoke_args ty reason) now sql_now s)
  + (if still_live s id then 1 else 0)
  = count_live s.
Proof.
  unfold save_statement.
  match goal with
  | |- count_live (upsert ?n ?u s) + _ = _ =>
      exact (count_live_upsert n u s eq_refl (fun _ => eq_refl))
  end.
Qed.

Lemma cancel_children_returns (fuel : nat) :
  (forall id ty reason w,
      count_live (store w)
      < fuel + (if still_live (store w) id then 1 else 0) ->
      cancel_job_and_children_recursive fuel no_fault now sql_now id ty
        reason w <> OutOfFuel) ->
  forall (rows : list Row) (count : nat) (w : World),
    count_live (store w) <= fuel ->
    cancel_children
      (fun child_job_id w' =>
         cancel_job_and_children_recursive fuel no_fault now sql_now
           child_job_id None PARENT_REVOKED_REASON w')
      now rows count w <> OutOfFuel.
Proof.
  intros Hrec rows.
  induction rows as [|c rows IH]; intros count w Hle; simpl; [discriminate|].
  unfold get_task_info_from_db.
  destruct (find_row (store w) (task_id c)) as [r|] eqn:Hr; simpl;
    [|now apply IH].
  destruct (status_terminal (status r)) eqn:Ht; simpl; [now apply IH|].
  assert (Hl : still_live (store w) (task_id c) = true)
    by (unfold still_live; now rewrite Hr, Ht).
  pose proof (Hrec (task_id c) None PARENT_REVOKED_REASON w) as Hnot.
  rewrite Hl in Hnot.
  pose proof (cancel_kept no_fault now sql_now fuel (task_id c) None
                PARENT_REVOKED_REASON w) as [[_ [_ [Hcount _]]] _].
  destruct (cancel_job_and_children_recursive fuel no_fault now sql_now
              (task_id c) None PARENT_REVOKED_REASON w) as [n w1|e w1|].
  - apply IH. simpl in Hcount. lia.
  - discriminate.
  - exfalso. apply Hnot; [lia | reflexivity].
Qed.

(** On any table the routine returns or raises within a depth of one more
    than the number of live rows (the live row of the task itself not
    counted), when the status writes go through. *)
Lemma cancel_returns (fuel : nat) :
  forall (id : string) (ty : option string) (reason : string) (w : World),
    count_live (store w)
    < fuel + (if still_live (store w) id then 1 else 0) ->
    cancel_job_and_children_recursive fuel no_fault now sql_now id ty reason w
    <> OutOfFuel.
Proof.
  induction fuel as [|fuel IH]; intros id ty reason w Hlt.
  - exfalso. destruct (still_live (store w) id) eqn:Hl.
    + pose proof (live_counted _ _ Hl). lia.
    + lia.
  - simpl cancel_job_and_children_recursive.
    match goal with
    | |- (if negb (str_truthy ?c) then _ else _) <> _ =>
        destruct (str_truthy c)
    end; simpl.
    + destruct (interrupt_in_rq (queue w) id) as [act q'].
      apply cancel_children_returns; [exact IH|]. simpl.
      match goal with
      | |- count_live (save_statement id (revoke_args ?t reason) _ _ _) <= _ =>
          pose proof (count_live_revoked id t reason (store w)) as Hc
      end.
      destruct (still_live (store w) id); lia.
    + destruct (fetch (queue w) id); [|discriminate].
      now destruct (send_stop_job_command (queue w) id).
Qed.

End AnyTableReturns.

Section AnyTableNoRaise.

Variable flt : string -> db_fault.
Variables now sql_now : Q.

Lemma cancel_children_no_raise (fuel : nat) :
  (forall id ty reason w e w',
      typed_store (store w) = true -> has_row (store w) id = true ->
      cancel_job_and_children_recursive fuel flt now sql_now id ty reason w
      <> Raised e w') ->
  forall (rows : list Row) (count : nat) (w : World) e w',
    typed_store (store w) = true ->
    cancel_children
      (fun child_job_id w' =>
         cancel_job_and_children_recursive fuel flt now sql_now
           child_job_id None PARENT_REVOKED_REASON w')
      now rows count w <> Raised e w'.
Proof.
  intros Hrec rows.
  induction rows as [|c rows IH]; intros count w e w' Hty; simpl;
    [discriminate|].
  unfold get_task_info_from_db.
  destruct (find_row (store w) (task_id c)) as [r|] eqn:Hr; simpl;
    [|now apply IH].
  destruct (status_terminal (status r)) eqn:Ht; simpl; [now apply IH|].
  assert (Hrow : has_row (store w) (task_id c) = true)
    by (unfold has_row; now rewrite Hr).
  pose proof (Hrec (task_id c) None PARENT_REVOKED_REASON w) as Hnot.
  pose proof (cancel_kept flt now sql_now fuel (task_id c) None
                PARENT_REVOKED_REASON w) as [[_ [_ [_ [Htyped _]]]] _].
  destruct (cancel_job_and_children_recursive fuel flt now sql_now
              (task_id c) None PARENT_REVOKED_REASON w) as [n w1|e1 w1|].
  - apply IH. simpl in Htyped. auto.
  - exfalso. now apply (Hnot e1 w1).
  - discriminate.
Qed.

(** With a task type on every row, the routine called on a task that has
    a row never raises. *)
Lemma cancel_no_raise (fuel : nat) :
  forall (id : string) (ty : option string) (reason : string) (w : World)
         (e : exn) (w' : World),
    typed_store (store w) = true ->
    has_row (store w) id = true ->
    cancel_job_and_children_recursive fuel flt now sql_now id ty reason w
    <> Raised e w'.
Proof.
  induction fuel as [|fuel IH]; intros id ty reason w e w' Hty Hrow;
    [discriminate|].
  simpl cancel_job_and_children_recursive. unfold get_task_info_from_db.
  unfold has_row in Hrow.
  destruct (find_row (store w) id) as [r|] eqn:Hr; [|discriminate].
  simpl. rewrite (typed_store_find _ _ _ Hty Hr). simpl.
  destruct (interrupt_in_rq (queue w) id) as [act q'].
  apply cancel_children_no_raise; [exact IH|]. simpl.
  destruct (revoke_write flt now sql_now id (task_type r) reason (store w))
    as [_ [_ [_ Htyped]]].
  apply Htyped; [|exact Hty].
  exact (typed_store_find _ _ _ Hty Hr).
Qed.

(** Where the status write of the task goes through, its row afterwards
    is the one that write has left. *)
Lemma cancel_root_row (fuel : nat) (id : string) (ty : option string)
    (reason : string) (w : World) (r : Row) :
  flt id = NoFault ->
  find_row (store w) id = Some r ->
  String.eqb (task_type r) "" = false ->
  cancel_job_and_children_recursive fuel flt now sql_now id ty reason w
  <> OutOfFuel ->
  find_row
    (store (world_after
              (cancel_job_and_children_recursive fuel flt now sql_now id ty
                 reason w) w)) id
  = Some (revoked_row now sql_now reason r).
Proof.
  intros Hflt Hr Hty. destruct fuel as [|fuel]; [intros H; now elim H|].
  simpl cancel_job_and_children_recursive. unfold get_task_info_from_db.
  rewrite Hr. simpl. rewrite Hty. simpl.
  destruct (interrupt_in_rq (queue w) id) as [act q'].
  rewrite Hflt. simpl so_store.
  set (w2 := {| store := save_statement id
                           (revoke_args (task_type r) reason) now sql_now
                           (store w);
                queue := q' |}).
  assert (Hrow : find_row (store w2) id
                 = Some (revoked_row now sql_now reason r)).
  { simpl. rewrite find_row_saved, Hr. reflexivity. }
  destruct (cancel_children_kept now
              (fun child_job_id w' =>
                 cancel_job_and_children_recursive fuel flt now sql_now
                   child_job_id None PARENT_REVOKED_REASON w')
              (fun c w0 Hl =>
                 conj (kept_live c _ _ Hl
                         (proj1 (cancel_kept flt now sql_now fuel c None
                                   PARENT_REVOKED_REASON w0)))
                      (proj2 (cancel_kept flt now sql_now fuel c None
                                PARENT_REVOKED_REASON w0)))
              (get_child_tasks_from_db (store w2) id)
              (if act then 1 else 0) w2) as [[_ [Hframe _]] _].
  intros Hnot.
  destruct (cancel_children _ now _ _ w2) as [n w3|e w3|]; simpl in *;
    [| |now elim Hnot].
  all: rewrite Hframe; [exact Hrow | auto |];
    unfold still_live; now rewrite Hrow.
Qed.

End AnyTableNoRaise.

Lemma revokes_only_has_row (s s' : Store) (y : string) :
  revokes_only s s' -> has_row s y = true -> has_row s' y = true.
Proof.
  intros H. unfold has_row.
  destruct (find_row s y) as [r|] eqn:Hr; [|discriminate].
  destruct (H y r Hr) as [r' [-> _]]. reflexivity.
Qed.

Lemma revokes_only_revoked (s s' : Store) (y : string) (r : Row) :
  revokes_only s s' ->
  find_row s y = Some r -> status r = Some TASK_STATUS_REVOKED ->
  exists r', find_row s' y = Some r'
             /\ status r' = Some TASK_STATUS_REVOKED.
Proof.
  intros H Hr Hs. destruct (H y r Hr) as [r' [Hr' [_ Hst]]].
  exists r'. split; [exact Hr'|]. destruct Hst; congruence.
Qed.

(** The routine on a typed table returns: no raise, no lack of fuel. *)
Lemma cancel_done (now sql_now : Q) (fuel : nat) (id : string)
    (ty : option string) (reason : string) (w : World) :
  typed_store (store w) = true ->
  has_row (store w) id = true ->
  count_live (store w) < fuel ->
  exists n w',
    cancel_job_and_children_recursive fuel no_fault now sql_now id ty reason w
    = Done n w'.
Proof.
  intros Hty Hrow Hlt.
  pose proof (cancel_returns now sql_now fuel id ty reason w) as Hret.
  pose proof (cancel_no_raise no_fault now sql_now fuel id ty reason w) as Hnr.
  destruct (cancel_job_and_children_recursive fuel no_fault now sql_now id ty
              reason w) as [n w'|e w'|].
  - now exists n, w'.
  - exfalso. now apply (Hnr e w').
  - exfalso. apply Hret; [|reflexivity].
    destruct (still_live (store w) id); lia.
Qed.

Lemma cancel_all_loop_done (now sql_now : Q) (fuel : nat) (reason : string) :
  forall (tasks : list Row) (total : nat) (ids : list string) (w : World),
    typed_store (store w) = true ->
    count_live (store w) < fuel ->
    (forall t, In t tasks -> has_row (store w) (task_id t) = true) ->
    exists total' ids' w',
      cancel_all_loop fuel no_fault now sql_now reason tasks total ids w
      = Done (total', ids') w'
      /\ revokes_only (store w) (store w')
      /\ List.length (sent (queue w')) + total
         = List.length (sent (queue w)) + total'
      /\ (forall t, In t tasks ->
            exists r', find_row (store w') (task_id t) = Some r'
                       /\ status r' = Some TASK_STATUS_REVOKED).
Proof.
  induction tasks as [|t tasks IH]; intros total ids w Hty Hlt Hrows.
  - exists total, ids, w. simpl. repeat split.
    + apply revokes_only_refl.
    + intros t [].
  - simpl cancel_all_loop.
    assert (Hrow : has_row (store w) (task_id t) = true)
      by (apply Hrows; now left).
    destruct (cancel_done now sql_now fuel (task_id t) None reason w
                Hty Hrow Hlt) as [n [w1 Hrun]].
    pose proof (cancel_kept no_fault now sql_now fuel (task_id t) None
                  reason w) as [[Hrev [_ [Hcount [Htyped _]]]] Hsent].
    unfold has_row in Hrow.
    destruct (find_row (store w) (task_id t)) as [r|] eqn:Hr; [|discriminate].
    pose proof (cancel_root_row no_fault now sql_now fuel (task_id t) None
                  reason w r eq_refl Hr (typed_store_find _ _ _ Hty Hr))
      as Hroot.
    rewrite Hrun in *. simpl in Hrev, Hcount, Htyped, Hsent, Hroot.
    specialize (Hroot ltac:(discriminate)).
    assert (Hrows1 : forall t', In t' tasks ->
                                has_row (store w1) (task_id t') = true).
    { intros t' Hin. apply (revokes_only_has_row (store w)); [exact Hrev|].
      apply Hrows. now right. }
    assert (Hnext : forall total1 ids1,
               exists total' ids' w',
                 cancel_all_loop fuel no_fault now sql_now reason tasks
                   total1 ids1 w1 = Done (total', ids') w'
                 /\ revokes_only (store w) (store w')
                 /\ List.length (sent (queue w')) + total1
                    = List.length (sent (queue w1)) + total'
                 /\ (forall t', In t' (t :: tasks) ->
                       exists r', find_row (store w') (task_id t') = Some r'
                                  /\ status r' = Some TASK_STATUS_REVOKED)).
    { intros total1 ids1.
      destruct (IH total1 ids1 w1 (Htyped Hty) ltac:(lia) Hrows1)
        as [total' [ids' [w' [Hloop [Hrev' [Hsent' Hall]]]]]].
      exists total', ids', w'. split; [exact Hloop|].
      split; [eapply revokes_only_trans; eauto|]. split; [exact Hsent'|].
      intros t' [<- | Hin]; [|now apply Hall].
      apply (revokes_only_revoked (store w1) (store w') (task_id t)
               (revoked_row now sql_now reason r) Hrev' Hroot).
      reflexivity. }
    destruct (Nat.ltb 0 n) eqn:En.
    + destruct (Hnext (total + n) (ids ++ [task_id t]))
        as [total' [ids' [w' [Hloop [Hrev' [Hsent' Hall]]]]]].
      exists total', ids', w'. repeat split; auto. lia.
    + apply Nat.ltb_ge in En.
      destruct (Hnext total ids)
        as [total' [ids' [w' [Hloop [Hrev' [Hsent' Hall]]]]]].
      exists total', ids', w'. repeat split; auto. lia.
Qed.

(** X1. On any table - also one whose parent links form a cycle - the
    routine comes back (it returns or raises) within a recursion depth of
    one more than the number of rows with a non-terminal status, as long
    as its status writes go through. *)
Theorem cancel_comes_back_on_any_table (now sql_now : Q) (fuel : nat)
    (id : string) (ty : option string) (reason : string) (w : World) :
  count_live (store w) < fuel ->
  cancel_job_and_children_recursive fuel no_fault now sql_now id ty reason w
  <> OutOfFuel.
Proof.
  intros Hlt. apply cancel_returns.
  destruct (still_live (store w) id); lia.
Qed.

Lemma cancel_comes_back_on_any_table_witness :
  count_live (store knot_world) < 3
  /\ is_child_of "B" (sample_row "A" (Some "B") "main_analysis" "STARTED")
     = true
  /\ is_child_of "A" (sample_row "B" (Some "A") "album_analysis" "PENDING")
     = true
  /\ cancel_job_and_children_recursive 3 no_fault (2000 # 1) (2000 # 1) "A"
       None "stop" knot_world <> OutOfFuel.
Proof.
  assert (H : count_live (store knot_world) < 3) by (vm_compute; lia).
  repeat split; try assumption.
  exact (cancel_comes_back_on_any_table (2000 # 1) (2000 # 1) 3 "A" None
           "stop" knot_world H).
Defined.

(** X2. Whatever the table and whatever faults meet the status writes,
    the count the routine returns is the number of stop and cancel
    commands it has sent to the engine. *)
Theorem cancel_count_is_commands_sent (flt : string -> db_fault)
    (now sql_now : Q) (fuel : nat) (id : string) (ty : option string)
    (reason : string) (w w' : World) (n : nat) :
  cancel_job_and_children_recursive fuel flt now sql_now id ty reason w
  = Done n w' ->
  List.length (sent (queue w')) = List.length (sent (queue w)) + n.
Proof.
  intros Hrun.
  pose proof (cancel_kept flt now sql_now fuel id ty reason w) as [_ Hc].
  rewrite Hrun in Hc. simpl in Hc. lia.
Qed.

Lemma cancel_count_is_commands_sent_witness :
  exists w',
    cancel_job_and_children_recursive 3 execute_fails_on_R (2000 # 1)
      (2000 # 1) "A" None "stop" knot_world = Done 2 w'
    /\ List.length (sent (queue w')) = 2.
Proof.
  eexists. split; [reflexivity|].
  exact (cancel_count_is_commands_sent execute_fails_on_R (2000 # 1)
           (2000 # 1) 3 "A" None "stop" knot_world _ 2 eq_refl).
Defined.

(** X3. Whatever the table, the faults and the outcome (return or raise),
    the routine only ever moves rows to REVOKED: every row is still there
    with its task type and with the status it had or REVOKED, and a task
    other than the one cancelled whose status was terminal, or that had
    no row, has exactly the row (or the lack of one) it had before. *)
Theorem cancel_only_revokes (flt : string -> db_fault) (now sql_now : Q)
    (fuel : nat) (id : string) (ty : option string) (reason : string)
    (w : World) :
  let w' :=
    world_after
      (cancel_job_and_children_recursive fuel flt now sql_now id ty reason w)
      w in
  (forall y r, find_row (store w) y = Some r ->
     exists r', find_row (store w') y = Some r'
                /\ task_type r' = task_type r
                /\ (status r' = status r
                    \/ status r' = Some TASK_STATUS_REVOKED))
  /\ (forall y, y <> id -> still_live (store w) y = false ->
        find_row (store w') y = find_row (store w) y)
  /\ count_live (store w') <= count_live (store w).
Proof.
  intros w'.
  pose proof (cancel_kept flt now sql_now fuel id ty reason w)
    as [[Hrev [Hframe [Hcount _]]] _].
  split; [exact Hrev|]. split; [|exact Hcount].
  intros y Hy Hl. apply Hframe; [|exact Hl].
  intros [-> | []]. now apply Hy.
Qed.

Lemma cancel_only_revokes_witness :
  exists w',
    cancel_task_endpoint 3 no_fault (2000 # 1) (2000 # 1) "R" orphan_world
    = Done (body_could_not_cancel "R", 400) w'
    /\ find_row (store w') "C" = find_row (store orphan_world) "C"
    /\ find_row (store w') "G" = find_row (store orphan_world) "G".
Proof.
  eexists. split; [reflexivity|].
  destruct (cancel_only_revokes no_fault (2000 # 1) (2000 # 1) 3 "R" None
              "Cancellation requested for task R via API." orphan_world)
    as [_ [Hframe _]].
  split.
  - apply (Hframe "C"); [discriminate | reflexivity].
  - reflexivity.
Defined.

(** X4. Once the cancel endpoint, with the store accepting its status
    writes, has answered a request for a task that has a row with a task
    type (200, or 400 of either kind), every further request for the same
    task - whatever faults the store then has - is answered 400 "already
    in a terminal state" and changes neither the table nor the engine. *)
Theorem cancel_endpoint_repeat_rejected (now sql_now : Q) (fuel : nat)
    (id : string) (w w1 : World) (body : dict) (code : nat) :
  typed_row (store w) id = true ->
  cancel_task_endpoint fuel no_fault now sql_now id w = Done (body, code) w1 ->
  forall (fuel2 : nat) (flt2 : string -> db_fault) (now2 sql_now2 : Q),
  exists st,
    is_terminal st = true
    /\ cancel_task_endpoint fuel2 flt2 now2 sql_now2 id w1
       = Done (body_terminal id (Some st), 400) w1.
Proof.
  intros Hty Hfirst fuel2 flt2 now2 sql_now2.
  unfold typed_row in Hty.
  destruct (find_row (store w) id) as [r|] eqn:Hr; [|discriminate].
  apply negb_true_iff in Hty.
  unfold cancel_task_endpoint, get_task_info_from_db in Hfirst.
  rewrite Hr in Hfirst. cbn [ti_row] in Hfirst.
  destruct (status_terminal (status r)) eqn:Hterm.
  - injection Hfirst as _ _ <-.
    unfold status_terminal in Hterm.
    destruct (status r) as [st|] eqn:Hst; [|discriminate].
    exists st. split; [exact Hterm|].
    unfold cancel_task_endpoint, get_task_info_from_db.
    rewrite Hr. cbn [ti_row]. rewrite Hst. simpl. now rewrite Hterm.
  - pose proof (cancel_root_row no_fault now sql_now fuel id None
                  ("Cancellation requested for task " ++ id ++ " via API.")
                  w r eq_refl Hr Hty) as Hroot.
    destruct (cancel_job_and_children_recursive fuel no_fault now sql_now id
                None ("Cancellation requested for task " ++ id ++ " via API.")
                w) as [n w'|e w'|]; try discriminate.
    specialize (Hroot ltac:(discriminate)). simpl in Hroot.
    assert (w' = w1) by (destruct (Nat.ltb 0 n); now injection Hfirst).
    subst w'. exists TASK_STATUS_REVOKED. split; [reflexivity|].
    unfold cancel_task_endpoint, get_task_info_from_db.
    now rewrite Hroot.
Qed.

Lemma cancel_endpoint_repeat_rejected_witness :
  typed_row (store family_world) "R" = true
  /\ exists body w1,
      cancel_task_endpoint 3 no_fault (2000 # 1) (2000 # 1) "R" family_world
      = Done (body, 200) w1
      /\ exists st,
          is_terminal st = true
          /\ cancel_task_endpoint 3 no_fault (2001 # 1) (2001 # 1) "R" w1
             = Done (body_terminal "R" (Some st), 400) w1.
Proof.
  split; [reflexivity|]. eexists. eexists.
  split; [vm_compute; reflexivity|].
  apply (cancel_endpoint_repeat_rejected (2000 # 1) (2000 # 1) 3 "R"
           family_world _ _ 200 eq_refl eq_refl 3 no_fault (2001 # 1)
           (2001 # 1)).
Defined.

(** The response to the status of a task whose row is REVOKED. *)
Lemma revoked_row_response (now : Q) (id : string) (w : World) (r : Row) :
  find_row (store w) id = Some r ->
  status r = Some TASK_STATUS_REVOKED ->
  details_object (details r) = true ->
  live_details_object (queue w) id = true ->
  exists resp,
    get_task_status_endpoint now id w = Ok (resp, 200)
    /\ r_state resp = JStr "REVOKED"
    /\ r_status_message resp = JStr "Task revoked."
    /\ r_progress resp = JInt 100
    /\ r_task_type_from_db resp = JStr (task_type r)
    /\ r_running_time_seconds resp = running_time now r.
Proof.
  intros Hr Hst Hd Hq.
  destruct (details_object_decodes _ Hd) as [dd Hdd].
  assert (Hseed : exists resp0 d0,
             match fetch (queue w) id with
             | Some job => response_from_job id job
             | None => Ok (initial_response id)
             end = Ok resp0 /\ r_details resp0 = JDict d0).
  { unfold live_details_object in Hq.
    destruct (fetch (queue w) id) as [j|].
    - destruct (response_from_job_ok id j Hq) as [resp0 [d0 [E [Hd0 _]]]].
      now exists resp0, d0.
    - exists (initial_response id), []. now split. }
  destruct Hseed as [resp0 [d0 [Hseed Hd0]]].
  unfold get_task_status_endpoint, get_task_info_from_db.
  rewrite Hseed, Hr. unfold augment_with_db. cbn [ti_row running_time_seconds].
  rewrite Hdd, Hd0, merge_details_objects, Hst.
  change (status_in [TASK_STATUS_REVOKED] (Some TASK_STATUS_REVOKED))
    with true. cbv iota.
  eexists. split; [reflexivity|]. repeat split.
Qed.

(** X5. After the routine has returned for a task that had a row with a
    task type (status write gone through), the status of that task reads
    REVOKED, "Task revoked.", progress 100 at any later time, whatever the
    engine still says about the job - a stop command does not change the
    job's state -, and its running time no longer moves with the clock. *)
Theorem status_after_cancel_is_revoked (now sql_now : Q) (fuel : nat)
    (id : string) (ty : option string) (reason : string) (w w' : World)
    (n : nat) (r : Row) :
  find_row (store w) id = Some r ->
  String.eqb (task_type r) "" = false ->
  live_details_object (queue w) id = true ->
  cancel_job_and_children_recursive fuel no_fault now sql_now id ty reason w
  = Done n w' ->
  forall later : Q,
  exists resp,
    get_task_status_endpoint later id w' = Ok (resp, 200)
    /\ r_state resp = JStr "REVOKED"
    /\ r_status_message resp = JStr "Task revoked."
    /\ r_progress resp = JInt 100
    /\ r_task_type_from_db resp = JStr (task_type r)
    /\ r_running_time_seconds resp
       = max0 (match end_time r with Some e => e | None => now end
               - match start_time r with Some s => s | None => now end)%Q.
Proof.
  intros Hr Hty Hq Hrun later.
  pose proof (cancel_root_row no_fault now sql_now fuel id ty reason w r
                eq_refl Hr Hty) as Hroot.
  pose proof (cancel_kept no_fault now sql_now fuel id ty reason w)
    as [[_ [_ [_ [_ Hmeta]]]] _].
  rewrite Hrun in Hroot, Hmeta. simpl in Hroot, Hmeta.
  specialize (Hroot ltac:(discriminate)).
  assert (Hq' : live_details_object (queue w') id = true).
  { unfold live_details_object, job_details_object in *.
    specialize (Hmeta id).
    destruct (fetch (queue w') id) as [j'|], (fetch (queue w) id) as [j|];
      simpl in Hmeta; try discriminate; auto.
    injection Hmeta as ->. exact Hq. }
  destruct (revoked_row_response later id w'
              (revoked_row now sql_now reason r) Hroot eq_refl eq_refl Hq')
    as [resp [Hresp [Hs [Hm [Hp [Ht Hrt]]]]]].
  exists resp. repeat split; try assumption.
  rewrite Hrt. unfold running_time, revoked_row. simpl.
  destruct (start_time r), (end_time r); reflexivity.
Qed.

Lemma status_after_cancel_is_revoked_witness :
  exists w' resp,
    cancel_job_and_children_recursive 3 no_fault (2000 # 1) (2000 # 1) "R"
      None "stop" family_world = Done 2 w'
    /\ option_map job_status (fetch (queue w') "R") = Some JobStatus.STARTED
    /\ get_task_status_endpoint (5000 # 1) "R" w' = Ok (resp, 200)
    /\ r_state resp = JStr "REVOKED"
    /\ r_progress resp = JInt 100.
Proof.
  eexists.
  destruct (status_after_cancel_is_revoked (2000 # 1) (2000 # 1) 3 "R" None
              "stop" family_world _ 2
              (sample_row "R" None "main_analysis" "PROGRESS")
              eq_refl eq_refl eq_refl eq_refl (5000 # 1))
    as [resp [Hresp [Hs [_ [Hp _]]]]].
  exists resp. repeat split; try assumption; reflexivity.
Defined.

Section Detached.

Variables now sql_now : Q.

Lemma mark_row (reason : string) (s : Store) (id : string) (r : Row) :
  find_row s id = Some r ->
  find_row (mark no_fault now sql_now reason s id) id
  = Some (revoked_row now sql_now reason r).
Proof.
  intros Hr. unfold mark. rewrite Hr. simpl.
  now rewrite find_row_saved, Hr.
Qed.

Lemma marks_row (reason : string) (l : list string) (s : Store)
    (id : string) (r : Row) :
  NoDup l -> In id l -> find_row s id = Some r ->
  find_row (fold_left (mark no_fault now sql_now reason) l s) id
  = Some (revoked_row now sql_now reason r).
Proof.
  revert s. induction l as [|x l IH]; intros s Hnd Hin Hr; [contradiction|].
  inversion Hnd as [|? ? Hx Hnd']; subst. simpl.
  destruct (string_dec id x) as [-> | Hne].
  - rewrite marks_find_other by exact Hx. now apply mark_row.
  - destruct Hin as [-> | Hin]; [congruence|].
    apply IH; try assumption. now rewrite mark_find_other.
Qed.

Lemma revoke_tree_row (reason : string) (w : World) (t : tree) (id : string)
    (r : Row) :
  NoDup (nodes t) -> In id (nodes t) -> find_row (store w) id = Some r ->
  find_row (store (revoke_tree no_fault now sql_now reason w t)) id
  = Some (revoked_row now sql_now (reason_of reason t id) r).
Proof.
  intros Hnd Hin Hr. unfold revoke_tree. rewrite store_visits. simpl store.
  rewrite (nodes_root t) in Hnd, Hin.
  inversion Hnd as [|? ? Hroot Hnd']; subst. unfold reason_of.
  destruct (String.eqb id (root t)) eqn:E.
  - apply String.eqb_eq in E; subst id.
    rewrite marks_find_other by exact Hroot. now apply mark_row.
  - apply String.eqb_neq in E. destruct Hin as [Heq | Hin]; [congruence|].
    apply marks_row; try assumption. now rewrite mark_find_other.
Qed.

End Detached.

(** X6. Cancelling a stored tree of live tasks detaches it: every task the
    walk revokes is left without parent and without sub-type identifier
    (the write of line 744 passes neither), with the task type and start
    time it had, and with the clock as end time unless it had one. *)
Theorem cancel_detaches_tree (now sql_now : Q) (fuel : nat) (t : tree)
    (w w' : World) (ty : option string) (reason : string) (n : nat) :
  live_tree (store w) t = true ->
  NoDup (nodes t) ->
  depth t <= fuel ->
  cancel_job_and_children_recursive fuel no_fault now sql_now (root t) ty
    reason w = Done n w' ->
  forall id r,
    In id (nodes t) -> find_row (store w) id = Some r ->
    exists r',
      find_row (store w') id = Some r'
      /\ parent_task_id r' = None
      /\ sub_type_identifier r' = None
      /\ task_type r' = task_type r
      /\ start_time r'
         = Some (match start_time r with Some s => s | None => now end)
      /\ end_time r'
         = Some (match end_time r with Some e => e | None => now end).
Proof.
  intros Hl Hnd Hd Hrun id r Hin Hr.
  rewrite (cancel_walk no_fault now sql_now fuel t w ty reason Hd Hl Hnd)
    in Hrun.
  injection Hrun as _ <-.
  rewrite (revoke_tree_row now sql_now reason w t id r Hnd Hin Hr).
  eexists. split; [reflexivity|]. unfold revoked_row. simpl.
  repeat split.
  - now destruct (start_time r).
  - now destruct (end_time r).
Qed.

Lemma cancel_detaches_tree_witness :
  exists w' g,
    cancel_job_and_children_recursive 3 no_fault (2000 # 1) (2000 # 1) "R"
      None "stop" family_world = Done 2 w'
    /\ option_map parent_task_id (find_row (store family_world) "G")
       = Some (Some "C1")
    /\ find_row (store w') "G" = Some g
    /\ parent_task_id g = None
    /\ get_child_tasks_from_db (store w') "R" = [].
Proof.
  eexists.
  assert (Hl : live_tree (store family_world) family_tree = true)
    by reflexivity.
  assert (Hnd : NoDup (nodes family_tree))
    by (repeat constructor; simpl; intuition discriminate).
  assert (Hd : depth family_tree <= 3) by (simpl; lia).
  destruct (cancel_detaches_tree (2000 # 1) (2000 # 1) 3 family_tree
              family_world _ None "stop" 2 Hl Hnd Hd eq_refl "G"
              (sample_row "G" (Some "C1") "album_analysis" "PENDING")
              ltac:(simpl; tauto) eq_refl)
    as [g [Hg [Hp _]]].
  exists g. repeat split; try assumption; reflexivity.
Defined.

(** X7. The cancel endpoint on a stored tree of live tasks at least one of
    whose jobs takes a command answers 200 with [cancelled_jobs_count]
    equal to the number of such jobs. *)
Theorem cancel_endpoint_200_counts_commands (now sql_now : Q) (fuel : nat)
    (t : tree) (w : World) :
  live_tree (store w) t = true ->
  NoDup (nodes t) ->
  depth t <= fuel ->
  filter (commandable (queue w)) (nodes t) <> [] ->
  exists w',
    cancel_task_endpoint fuel no_fault now sql_now (root t) w
    = Done (body_initiated (root t)
              (List.length (filter (commandable (queue w)) (nodes t))), 200)
        w'
    /\ sent (queue w') = sent (queue w) ++ commands_for (queue w) (nodes t).
Proof.
  intros Hl Hnd Hd Hsome.
  assert (Hroot : still_live (store w) (root t) = true).
  { apply (live_tree_still_live _ t); [exact Hl|].
    rewrite (nodes_root t). now left. }
  exists (revoke_tree no_fault now sql_now
            ("Cancellation requested for task " ++ root t ++ " via API.")
            w t).
  split; [|now apply revoke_tree_queue].
  unfold cancel_task_endpoint, get_task_info_from_db.
  unfold still_live in Hroot.
  destruct (find_row (store w) (root t)) as [r|]; [|discriminate].
  cbn [ti_row]. apply negb_true_iff in Hroot. rewrite Hroot.
  rewrite (cancel_walk no_fault now sql_now fuel t w None _ Hd Hl Hnd).
  rewrite issued_along_count by exact Hnd.
  destruct (filter (commandable (queue w)) (nodes t)); [congruence|].
  reflexivity.
Qed.

Lemma cancel_endpoint_200_counts_commands_witness :
  filter (commandable (queue family_world)) (nodes family_tree) = ["R"; "G"]
  /\ exists w',
      cancel_task_endpoint 3 no_fault (2000 # 1) (2000 # 1) "R" family_world
      = Done (body_initiated "R" 2, 200) w'
      /\ sent (queue w') = [StopJob "R"; CancelJob "G"].
Proof.
  split; [reflexivity|].
  assert (Hl : live_tree (store family_world) family_tree = true)
    by reflexivity.
  assert (Hnd : NoDup (nodes family_tree))
    by (repeat constructor; simpl; intuition discriminate).
  assert (Hd : depth family_tree <= 3) by (simpl; lia).
  exact (cancel_endpoint_200_counts_commands (2000 # 1) (2000 # 1) 3
           family_tree family_world Hl Hnd Hd ltac:(discriminate)).
Defined.

(** X8. The bulk cancel endpoint on a table whose rows all have a task
    type, with fuel above the number of live rows and status writes that
    go through: it returns; every task of the given type whose status was
    set and non-terminal is REVOKED afterwards; and the answer is 200 when
    at least one command went to the engine and 404 "No active tasks ...
    found" when none did, revoked tasks or not. *)
Theorem cancel_all_revokes_every_match (now sql_now : Q) (fuel : nat)
    (task_type_prefix : string) (w : World) :
  typed_store (store w) = true ->
  count_live (store w) < fuel ->
  exists body code w',
    cancel_all_tasks_by_type_endpoint fuel no_fault now sql_now
      task_type_prefix w = Done (body, code) w'
    /\ (forall y r, find_row (store w) y = Some r ->
                    bulk_selected task_type_prefix r = true ->
                    exists r', find_row (store w') y = Some r'
                               /\ status r' = Some TASK_STATUS_REVOKED)
    /\ code = (if Nat.ltb (List.length (sent (queue w)))
                    (List.length (sent (queue w')))
               then 200 else 404).
Proof.
  intros Hty Hlt. unfold cancel_all_tasks_by_type_endpoint.
  destruct (cancel_all_loop_done now sql_now fuel
              ("Bulk cancellation for task type '" ++ task_type_prefix
               ++ "' via API.")
              (filter (bulk_selected task_type_prefix) (store w)) 0 [] w
              Hty Hlt) as [total [ids [w' [Hloop [_ [Hsent Hall]]]]]].
  { intros t Hin. apply filter_In in Hin. now apply In_has_row. }
  rewrite Hloop.
  assert (Hrev : forall y r, find_row (store w) y = Some r ->
                   bulk_selected task_type_prefix r = true ->
                   exists r', find_row (store w') y = Some r'
                              /\ status r' = Some TASK_STATUS_REVOKED).
  { intros y r Hr Hsel.
    rewrite <- (find_row_id _ _ _ Hr). apply Hall.
    apply filter_In. split; [now apply (find_row_In _ y) | exact Hsel]. }
  destruct (Nat.ltb 0 total) eqn:E.
  - eexists. eexists. eexists. split; [reflexivity|]. split; [exact Hrev|].
    apply Nat.ltb_lt in E.
    replace (Nat.ltb _ _) with true; [reflexivity|].
    symmetry. apply Nat.ltb_lt. lia.
  - eexists. eexists. eexists. split; [reflexivity|]. split; [exact Hrev|].
    apply Nat.ltb_ge in E.
    replace (Nat.ltb _ _) with false; [reflexivity|].
    symmetry. apply Nat.ltb_ge. lia.
Qed.

Lemma cancel_all_revokes_every_match_witness :
  typed_store (store bulk_world) = true
  /\ count_live (store bulk_world) < 4
  /\ exists w',
      cancel_all_tasks_by_type_endpoint 4 no_fault (2000 # 1) (2000 # 1)
        "main_analysis" bulk_world
      = Done (body_bulk_none "main_analysis", 404) w'
      /\ option_map status (find_row (store w') "M1")
         = Some (Some TASK_STATUS_REVOKED)
      /\ option_map status (find_row (store w') "M2")
         = Some (Some TASK_STATUS_REVOKED)
      /\ find_row (store w') "K" = find_row (store bulk_world) "K"
      /\ find_row (store w') "M0" = find_row (store bulk_world) "M0".
Proof.
  assert (Hty : typed_store (store bulk_world) = true) by reflexivity.
  assert (Hlt : count_live (store bulk_world) < 4) by (vm_compute; lia).
  split; [exact Hty|]. split; [exact Hlt|].
  destruct (cancel_all_revokes_every_match (2000 # 1) (2000 # 1) 4
              "main_analysis" bulk_world Hty Hlt)
    as [body [code [w' [Hrun _]]]].
  eexists. repeat split; vm_compute; reflexivity.
Defined.


(** ** Status reconciliation, further *)

Lemma response_from_job_state (id : string) (j : Job) (resp : Response) :
  response_from_job id j = Ok resp ->
  r_state resp = JStr (JobStatus.value (job_status j)).
Proof.
  unfold response_from_job, is_failed, is_finished, is_canceled.
  destruct (job_status j); simpl;
    try (intros [= <-]; reflexivity).
  destruct (dict_get_default (meta j) "details" (JDict []));
    try discriminate.
  intros [= <-]. reflexivity.
Qed.

Lemma job_state_known (st : JobStatus.t) :
  json_is_str (JStr (JobStatus.value st)) "UNKNOWN" = false.
Proof. destruct st; reflexivity. Qed.

(** X10. Whenever the status endpoint answers, it answers 404 exactly when
    the task is in neither the engine nor the table - then with the
    untouched UNKNOWN response - and 200 otherwise. *)
Theorem status_404_iff_nowhere (now : Q) (id : string) (w : World)
    (resp : Response) (code : nat) :
  get_task_status_endpoint now id w = Ok (resp, code) ->
  (code = 404 \/ code = 200)
  /\ (code = 404 <->
      fetch (queue w) id = None /\ find_row (store w) id = None)
  /\ (code = 404 -> resp = initial_response id).
Proof.
  unfold get_task_status_endpoint, get_task_info_from_db.
  destruct (fetch (queue w) id) as [j|] eqn:Hj.
  - destruct (response_from_job id j) as [resp0|e] eqn:Hseed; [|discriminate].
    pose proof (response_from_job_state id j resp0 Hseed) as Hs.
    destruct (find_row (store w) id) as [r|].
    + destruct (augment_with_db _ resp0); [|discriminate].
      intros [= <- <-]. split; [now right|]. split.
      * split; [discriminate | intros [H _]; discriminate].
      * discriminate.
    + rewrite Hs, job_state_known. intros [= <- <-].
      split; [now right|]. split.
      * split; [discriminate | intros [H _]; discriminate].
      * discriminate.
  - destruct (find_row (store w) id) as [r|].
    + destruct (augment_with_db _ (initial_response id)); [|discriminate].
      intros [= <- <-]. split; [now right|]. split.
      * split; [discriminate | intros [_ H]; discriminate].
      * discriminate.
    + simpl. intros [= <- <-]. split; [now left|]. split.
      * split; auto.
      * reflexivity.
Qed.

Lemma status_404_iff_nowhere_witness :
  get_task_status_endpoint (2000 # 1) "nobody" family_world
  = Ok (initial_response "nobody", 404)
  /\ fetch (queue family_world) "nobody" = None
  /\ find_row (store family_world) "nobody" = None.
Proof.
  split; [reflexivity|].
  destruct (status_404_iff_nowhere (2000 # 1) "nobody" family_world
              (initial_response "nobody") 404 eq_refl) as [_ [[H _] _]].
  exact (H eq_refl).
Defined.

(** [{**a, **b}]: the keys of [b] win. *)
Lemma dict_merge_get (a b : dict) (k : string) :
  unique_keys b ->
  dict_get (dict_merge a b) k
  = match dict_get b k with
    | Some v => Some v
    | None => dict_get a k
    end.
Proof.
  unfold dict_merge, unique_keys. revert a.
  induction b as [|[k0 v0] b IH]; intros a Hnd; simpl; [reflexivity|].
  inversion Hnd as [|? ? Hk Hnd']; subst.
  rewrite IH by exact Hnd'. rewrite dict_get_set.
  destruct (String.eqb k k0) eqn:E.
  - apply String.eqb_eq in E; subst k0.
    destruct (dict_get b k) eqn:Hb; [|reflexivity].
    exfalso. apply Hk. clear -Hb.
    induction b as [|[k1 v1] b IH]; simpl in *; [discriminate|].
    destruct (String.eqb k k1) eqn:E1.
    + apply String.eqb_eq in E1. now left.
    + right. now apply IH.
  - reflexivity.
Qed.

Lemma truncate_log_view_get (d : dict) (k : string) :
  exists d',
    truncate_log_view (JDict d) = JDict d'
    /\ dict_get d' k
       = if String.eqb k "log" then view_log (dict_get d "log")
         else dict_get d k.
Proof.
  unfold truncate_log_view, view_log, log_summary.
  destruct (dict_get d "log") as [[| | | | |l|]|] eqn:Hlog;
    try (exists d; split; [reflexivity|];
         destruct (String.eqb k "log") eqn:E; [|reflexivity];
         apply String.eqb_eq in E; subst k; exact Hlog).
  destruct (Nat.ltb 10 (List.length l)).
  - eexists. split; [reflexivity|]. rewrite dict_get_set.
    now destruct (String.eqb k "log").
  - exists d. split; [reflexivity|].
    destruct (String.eqb k "log") eqn:E; [|reflexivity].
    apply String.eqb_eq in E; subst k. exact Hlog.
Qed.

Lemma finish_response_get (r : Response) (d : dict) (k : string) :
  r_details r = JDict d ->
  k <> "checked_album_ids" ->
  exists d',
    r_details (finish_response r) = JDict d'
    /\ dict_get d' k
       = if String.eqb k "log" then view_log (dict_get d "log")
         else dict_get d k.
Proof.
  intros Hd Hk. unfold finish_response. simpl. rewrite Hd.
  assert (Hp : exists d0,
             prune_checked_album_ids (r_task_type_from_db r) (JDict d)
             = JDict d0
             /\ forall k', k' <> "checked_album_ids" ->
                           dict_get d0 k' = dict_get d k').
  { unfold prune_checked_album_ids.
    destruct (r_task_type_from_db r); try (exists d; now split).
    destruct (negb (String.eqb s "") && str_contains "analysis" s);
      [|exists d; now split].
    eexists. split; [reflexivity|]. intros k' Hk'. rewrite dict_get_pop.
    apply String.eqb_neq in Hk'. now rewrite Hk'. }
  destruct Hp as [d0 [-> Hd0]].
  destruct (truncate_log_view_get d0 k) as [d' [-> Hget]].
  exists d'. split; [reflexivity|]. rewrite Hget.
  rewrite (Hd0 "log") by discriminate. now rewrite (Hd0 k Hk).
Qed.

(** The answer for a task that only the table knows. *)
Lemma store_only_response (now : Q) (id : string) (w : World) (r : Row)
    (stored : dict) :
  fetch (queue w) id = None ->
  find_row (store w) id = Some r ->
  status_in [TASK_STATUS_REVOKED] (status r) = false ->
  db_details (details r) = Ok (JDict stored) ->
  exists resp,
    get_task_status_endpoint now id w = Ok (resp, 200)
    /\ r_state resp = opt_str_json (status r)
    /\ r_progress resp = opt_int_json (progress r)
    /\ r_task_type_from_db resp = JStr (task_type r)
    /\ r_running_time_seconds resp = running_time now r
    /\ r_status_message resp = JStr "Task ID not found in RQ or DB."
    /\ exists shown,
         r_details resp = JDict shown
         /\ forall k, k <> "checked_album_ids" ->
              dict_get shown k
              = if String.eqb k "log" then view_log (dict_get stored "log")
                else dict_get stored k.
Proof.
  intros Hj Hr Hnr Hdb.
  set (aug := {| r_task_id := id;
                 r_state := opt_str_json (status r);
                 r_status_message := JStr "Task ID not found in RQ or DB.";
                 r_progress := opt_int_json (progress r);
                 r_details := JDict stored;
                 r_task_type_from_db := JStr (task_type r);
                 r_running_time_seconds := running_time now r |}).
  assert (Haug : augment_with_db
                   {| ti_row := r; running_time_seconds := running_time now r |}
                   (initial_response id) = Ok aug).
  { unfold augment_with_db. cbn [ti_row running_time_seconds].
    rewrite Hdb. simpl merge_details. now rewrite Hnr. }
  unfold get_task_status_endpoint, get_task_info_from_db.
  rewrite Hj, Hr, Haug. exists (finish_response aug).
  split; [reflexivity|]. repeat (split; [reflexivity|]).
  destruct (finish_response_get aug stored "log" eq_refl ltac:(discriminate))
    as [shown [Hshown _]].
  exists shown. split; [exact Hshown|]. intros k Hk.
  destruct (finish_response_get aug stored k eq_refl Hk) as [d' [Hd' Hget]].
  rewrite Hshown in Hd'. injection Hd' as <-. exact Hget.
Qed.

(** X11. A task the engine no longer knows but the table still has (not
    REVOKED, details an object, NULL or empty) is answered 200 with the
    stored status and progress and the running time derived from its
    timestamps - and with the message "Task ID not found in RQ or DB.",
    which only the REVOKED override ever replaces. *)
Theorem status_of_purged_job (now : Q) (id : string) (w : World) (r : Row) :
  fetch (queue w) id = None ->
  find_row (store w) id = Some r ->
  status_in [TASK_STATUS_REVOKED] (status r) = false ->
  details_object (details r) = true ->
  exists resp,
    get_task_status_endpoint now id w = Ok (resp, 200)
    /\ r_state resp = opt_str_json (status r)
    /\ r_progress resp = opt_int_json (progress r)
    /\ r_task_type_from_db resp = JStr (task_type r)
    /\ r_running_time_seconds resp = running_time now r
    /\ r_status_message resp = JStr "Task ID not found in RQ or DB.".
Proof.
  intros Hj Hr Hnr Hd.
  destruct (details_object_decodes _ Hd) as [dd Hdd].
  destruct (store_only_response now id w r dd Hj Hr Hnr Hdd)
    as [resp [H [Hs [Hp [Ht [Hrt [Hm _]]]]]]].
  exists resp. repeat split; assumption.
Qed.

Lemma status_of_purged_job_witness :
  fetch (queue forgotten_world) "C2" = None
  /\ exists resp,
      get_task_status_endpoint (2000 # 1) "C2" forgotten_world = Ok (resp, 200)
      /\ r_state resp = JStr "PENDING"
      /\ r_progress resp = JInt 40
      /\ r_status_message resp = JStr "Task ID not found in RQ or DB.".
Proof.
  split; [reflexivity|].
  destruct (status_of_purged_job (2000 # 1) "C2" forgotten_world
              (sample_row "C2" (Some "R") "album_analysis" "PENDING")
              eq_refl eq_refl eq_refl eq_refl)
    as [resp [H [Hs [Hp [_ [_ Hm]]]]]].
  exists resp. repeat split; assumption.
Defined.

(** X12. For a job the engine still holds in a non-terminal state and a
    row that is not REVOKED, the answer takes state and progress from the
    table and the message from the job (the state name when the job has
    none); its details are the stored ones overridden key by key by the
    job's, a log of more than ten entries being shown as one summary line
    and the last ten; [checked_album_ids] apart. *)
Theorem status_of_running_job (now : Q) (id : string) (w : World) (j : Job)
    (r : Row) (live stored : dict) :
  fetch (queue w) id = Some j ->
  job_final j = false ->
  dict_get_default (meta j) "details" (JDict []) = JDict live ->
  unique_keys live ->
  find_row (store w) id = Some r ->
  status_in [TASK_STATUS_REVOKED] (status r) = false ->
  db_details (details r) = Ok (JDict stored) ->
  exists resp shown,
    get_task_status_endpoint now id w = Ok (resp, 200)
    /\ r_state resp = opt_str_json (status r)
    /\ r_progress resp = opt_int_json (progress r)
    /\ r_status_message resp
       = dict_get_default (meta j) "status_message"
           (JStr (JobStatus.value (job_status j)))
    /\ r_details resp = JDict shown
    /\ forall k, k <> "checked_album_ids" ->
         dict_get shown k
         = if String.eqb k "log"
           then view_log (merged_get stored live "log")
           else merged_get stored live k.
Proof.
  intros Hj Hfin Hlive Huniq Hr Hnr Hdb.
  assert (Hobj : job_details_object j = true)
    by (unfold job_details_object; now rewrite Hlive).
  destruct (response_from_job_ok id j Hobj)
    as [resp0 [d0 [Hseed [Hd0 [Hs0 [Hm0 Hp0]]]]]].
  rewrite Hfin in Hm0.
  assert (Hd0' : d0 = live).
  { unfold response_from_job in Hseed. unfold job_final in Hfin.
    apply orb_false_iff in Hfin. destruct Hfin as [Hfin Hc].
    apply orb_false_iff in Hfin. destruct Hfin as [Hf Hfl].
    rewrite Hfl, Hf, Hc, Hlive in Hseed. injection Hseed as <-.
    simpl in Hd0. congruence. }
  subst d0.
  assert (Hnf : rq_final_state (r_state resp0) = false).
  { rewrite Hs0. unfold job_final, is_finished, is_failed, is_canceled in Hfin.
    destruct (job_status j); try discriminate; reflexivity. }
  set (aug := {| r_task_id := r_task_id resp0;
                 r_state := opt_str_json (status r);
                 r_status_message := r_status_message resp0;
                 r_progress := opt_int_json (progress r);
                 r_details := JDict (dict_merge stored live);
                 r_task_type_from_db := JStr (task_type r);
                 r_running_time_seconds := running_time now r |}).
  assert (Haug : augment_with_db
                   {| ti_row := r; running_time_seconds := running_time now r |}
                   resp0 = Ok aug).
  { unfold augment_with_db. cbn [ti_row running_time_seconds].
    now rewrite Hdb, Hd0, merge_details_objects, Hnr, Hnf. }
  unfold get_task_status_endpoint, get_task_info_from_db.
  rewrite Hj, Hseed, Hr, Haug.
  exists (finish_response aug).
  assert (Hshown : exists shown,
             r_details (finish_response aug) = JDict shown) .
  { destruct (finish_response_get aug (dict_merge stored live) "log"
                eq_refl ltac:(discriminate)) as [d' [H _]].
    now exists d'. }
  destruct Hshown as [shown Hshown]. exists shown.
  split; [reflexivity|]. split; [reflexivity|]. split; [reflexivity|].
  split; [exact Hm0|]. split; [exact Hshown|].
  intros k Hk.
  destruct (finish_response_get aug (dict_merge stored live) k eq_refl Hk)
    as [d' [Hd' Hget]].
  rewrite Hshown in Hd'. injection Hd' as <-.
  rewrite Hget, !dict_merge_get by exact Huniq. reflexivity.
Qed.

Lemma status_of_running_job_witness :
  exists resp shown,
    get_task_status_endpoint (2000 # 1) "P" polling_world = Ok (resp, 200)
    /\ r_state resp = JStr "PROGRESS"
    /\ r_progress resp = JInt 25
    /\ r_status_message resp = JStr "started"
    /\ r_details resp = JDict shown
    /\ dict_get shown "total" = Some (JInt 80)
    /\ dict_get shown "current_album" = Some (JStr "X")
    /\ dict_get shown "log"
       = Some (JList (JStr "... (2 earlier log entries truncated)"
                      :: skipn 2 (log_lines 12))).
Proof.
  destruct (status_of_running_job (2000 # 1) "P" polling_world
              {| job_status := JobStatus.STARTED;
                 meta := [("progress", JInt 30);
                          ("details",
                           JDict [("log", JList (log_lines 12));
                                  ("current_album", JStr "X")])];
                 exc_info := None;
                 accepts_commands := true |}
              {| task_id := "P";
                 parent_task_id := None;
                 task_type := "main_clustering";
                 sub_type_identifier := None;
                 status := Some "PROGRESS";
                 progress := Some 25%Z;
                 details := Some (Encoded (JDict [("log", JList (log_lines 3));
                                                  ("total", JInt 80)]));
                 timestamp := Some (1000 # 1)%Q;
                 start_time := Some (1000 # 1)%Q;
                 end_time := None |}
              [("log", JList (log_lines 12)); ("current_album", JStr "X")]
              [("log", JList (log_lines 3)); ("total", JInt 80)]
              eq_refl eq_refl eq_refl
              ltac:(repeat constructor; simpl; intuition discriminate)
              eq_refl eq_refl eq_refl)
    as [resp [shown [Hrun [Hs [Hp [Hm [Hd Hget]]]]]]].
  exists resp, shown. split; [exact Hrun|].
  split; [exact Hs|]. split; [exact Hp|]. split; [exact Hm|].
  split; [exact Hd|].
  split; [exact (Hget "total" ltac:(discriminate))|].
  split; [exact (Hget "current_album" ltac:(discriminate))|].
  exact (Hget "log" ltac:(discriminate)).
Defined.

(** ** The status write path, further *)

Lemma last_n_short {A : Type} (n : nat) (l : list A) :
  List.length (last_n n l) <= n.
Proof. unfold last_n. rewrite length_skipn. lia. Qed.

Lemma trim_details_dict (st : string) (d : dict) :
  exists d',
    trim_details st (Some (JDict d)) = Some (JDict d')
    /\ (forall k, k <> "log" -> k <> "log_storage_info" ->
                  dict_get d' k = dict_get d k)
    /\ (forall l, st <> TASK_STATUS_SUCCESS ->
          dict_get d "log" = Some (JList l) ->
          dict_get d' "log" = Some (JList (last_n 10 l))
          /\ dict_get d' "log_storage_info"
             = if Nat.ltb 10 (List.length l)
               then Some (JStr (truncation_note (List.length l)))
               else None).
Proof.
  unfold trim_details.
  destruct (String.eqb st TASK_STATUS_SUCCESS) eqn:Est.
  - apply String.eqb_eq in Est. cbn [negb].
    set (d1 := dict_pop d "log_storage_info").
    assert (Hd1 : forall k, k <> "log_storage_info" ->
                            dict_get d1 k = dict_get d k).
    { intros k Hk. unfold d1. rewrite dict_get_pop.
      apply String.eqb_neq in Hk. now rewrite Hk. }
    destruct (dict_get d "log") as [[| | | | |l|]|];
      destruct (dict_get d1 "log") as [[| | | | |[|e l1]|]|];
      eexists; (split; [reflexivity|]); (split; [|intros; congruence]);
      intros k H1 H2; rewrite ?dict_get_set; apply String.eqb_neq in H1;
      rewrite ?H1; now apply Hd1.
  - apply String.eqb_neq in Est. cbn [negb].
    destruct (dict_get d "log") as [[| | | | |l|]|] eqn:Hlog;
      try (exists d; split; [reflexivity|]; split; [reflexivity|];
           intros; discriminate).
    unfold MAX_LOG_ENTRIES_STORED.
    destruct (Nat.ltb 10 (List.length l)) eqn:Elen.
    + eexists. split; [reflexivity|]. split.
      * intros k H1 H2. rewrite !dict_get_set.
        apply String.eqb_neq in H1, H2. now rewrite H1, H2.
      * intros l0 _ [= <-]. rewrite Elen. now rewrite !dict_get_set.
    + eexists. split; [reflexivity|]. split.
      * intros k H1 H2. rewrite dict_get_pop.
        apply String.eqb_neq in H2. now rewrite H2.
      * intros l0 _ [= <-]. rewrite Elen. rewrite !dict_get_pop. simpl.
        rewrite Hlog. apply Nat.ltb_ge in Elen.
        now rewrite last_n_all.
Qed.

(** The answer for a task the engine no longer has, whatever its stored
    status: a REVOKED row is answered REVOKED with progress 100. *)
Lemma store_only_response_any (now : Q) (id : string) (w : World) (r : Row)
    (stored : dict) :
  fetch (queue w) id = None ->
  find_row (store w) id = Some r ->
  db_details (details r) = Ok (JDict stored) ->
  exists resp shown,
    get_task_status_endpoint now id w = Ok (resp, 200)
    /\ r_state resp
       = (if status_in [TASK_STATUS_REVOKED] (status r)
          then JStr "REVOKED" else opt_str_json (status r))
    /\ r_progress resp
       = (if status_in [TASK_STATUS_REVOKED] (status r)
          then JInt 100 else opt_int_json (progress r))
    /\ r_task_type_from_db resp = JStr (task_type r)
    /\ r_details resp = JDict shown
    /\ forall k, k <> "checked_album_ids" ->
         dict_get shown k
         = if String.eqb k "log" then view_log (dict_get stored "log")
           else dict_get stored k.
Proof.
  intros Hj Hr Hdb.
  assert (Haug : exists aug,
             augment_with_db
               {| ti_row := r; running_time_seconds := running_time now r |}
               (initial_response id) = Ok aug
             /\ r_state aug
                = (if status_in [TASK_STATUS_REVOKED] (status r)
                   then JStr "REVOKED" else opt_str_json (status r))
             /\ r_progress aug
                = (if status_in [TASK_STATUS_REVOKED] (status r)
                   then JInt 100 else opt_int_json (progress r))
             /\ r_task_type_from_db aug = JStr (task_type r)
             /\ r_details aug = JDict stored).
  { unfold augment_with_db. cbn [ti_row running_time_seconds].
    rewrite Hdb. simpl merge_details.
    destruct (status_in [TASK_STATUS_REVOKED] (status r));
      eexists; (split; [reflexivity|]); repeat split. }
  destruct Haug as [aug [Haug [Hs [Hp [Ht Hd]]]]].
  unfold get_task_status_endpoint, get_task_info_from_db.
  rewrite Hj, Hr, Haug.
  destruct (finish_response_get aug stored "log" Hd ltac:(discriminate))
    as [shown [Hshown _]].
  exists (finish_response aug), shown.
  split; [reflexivity|]. split; [exact Hs|]. split; [exact Hp|].
  split; [exact Ht|]. split; [exact Hshown|].
  intros k Hk.
  destruct (finish_response_get aug stored k Hd Hk) as [d' [Hd' Hget]].
  rewrite Hshown in Hd'. injection Hd' as <-. exact Hget.
Qed.

(** X13. What a status write stores reads back through the status
    endpoint once the engine has dropped the job: the state written, the
    progress written - 100 when the status written is REVOKED, whatever
    progress came with it -, the task type the row had (or, for a new row,
    the one written), the details keys as written, and - for a status
    other than SUCCESS - the last ten log entries with no summary line,
    the annotation telling whether older ones were cut. *)
Theorem saved_status_reads_back (id : string) (a : SaveArgs)
    (now sql_now later : Q) (s : Store) (q : Queue) (d : dict) :
  a_details a = Some (JDict d) ->
  fetch q id = None ->
  exists resp shown,
    get_task_status_endpoint later id
      {| store := so_store (save_task_status NoFault id a now sql_now s);
         queue := q |}
    = Ok (resp, 200)
    /\ r_state resp = JStr (a_status a)
    /\ r_progress resp
       = JInt (if String.eqb (a_status a) TASK_STATUS_REVOKED
               then 100 else a_progress a)
    /\ r_task_type_from_db resp
       = JStr (match find_row s id with
               | Some r => task_type r
               | None => a_task_type a
               end)
    /\ r_details resp = JDict shown
    /\ (forall k, k <> "log" -> k <> "log_storage_info" ->
                  k <> "checked_album_ids" ->
                  dict_get shown k = dict_get d k)
    /\ (forall l, a_status a <> TASK_STATUS_SUCCESS ->
          dict_get d "log" = Some (JList l) ->
          dict_get shown "log" = Some (JList (last_n 10 l))
          /\ dict_get shown "log_storage_info"
             = if Nat.ltb 10 (List.length l)
               then Some (JStr (truncation_note (List.length l)))
               else None).
Proof.
  intros Hd Hq.
  destruct (trim_details_dict (a_status a) d) as [d' [Htrim [Hkeys Hlog]]].
  set (w := {| store := so_store (save_task_status NoFault id a now sql_now s);
               queue := q |}).
  set (row := match find_row s id with
              | Some r =>
                  update_row (a_parent_task_id a) (a_sub_type_identifier a)
                    (a_status a) (a_progress a)
                    (details_json (a_status a) (a_details a)) now sql_now r
              | None =>
                  insert_row id (a_parent_task_id a) (a_task_type a)
                    (a_sub_type_identifier a) (a_status a) (a_progress a)
                    (details_json (a_status a) (a_details a)) now sql_now
              end).
  assert (Hrow : find_row (store w) id = Some row)
    by (simpl; apply find_row_saved).
  assert (Hst : status row = Some (a_status a))
    by (unfold row; now destruct (find_row s id)).
  assert (Hpr : progress row = Some (a_progress a))
    by (unfold row; now destruct (find_row s id)).
  assert (Hdt : details row = Some (Encoded (JDict d'))).
  { assert (details row = details_json (a_status a) (a_details a))
      by (unfold row; now destruct (find_row s id)).
    unfold details_json in H. now rewrite Hd, Htrim in H. }
  assert (Hty : task_type row
                = match find_row s id with
                  | Some r => task_type r
                  | None => a_task_type a
                  end)
    by (unfold row; now destruct (find_row s id)).
  assert (Hrev : status_in [TASK_STATUS_REVOKED] (status row)
                 = String.eqb (a_status a) TASK_STATUS_REVOKED).
  { rewrite Hst. unfold status_in, existsb. apply orb_false_r. }
  destruct (store_only_response_any later id w row d' Hq Hrow)
    as [resp [shown [Hrun [Hs [Hp [Ht [Hshown Hget]]]]]]].
  { now rewrite Hdt. }
  rewrite Hrev in Hs, Hp.
  exists resp, shown. split; [exact Hrun|]. split; [|split].
  - rewrite Hs, Hst.
    destruct (String.eqb (a_status a) TASK_STATUS_REVOKED) eqn:E;
      [|reflexivity].
    apply String.eqb_eq in E. now rewrite E.
  - rewrite Hp, Hpr.
    now destruct (String.eqb (a_status a) TASK_STATUS_REVOKED).
  - split; [rewrite Ht; f_equal; exact Hty|]. split; [exact Hshown|]. split.
    + intros k H1 H2 H3. rewrite (Hget k H3).
      rewrite (proj2 (String.eqb_neq _ _) H1). now apply Hkeys.
    + intros l Hns Hl. destruct (Hlog l Hns Hl) as [Hl' Hinfo]. split.
      * rewrite (Hget "log") by discriminate. simpl. rewrite Hl'.
        unfold view_log.
        pose proof (last_n_short 10 l) as Hshort.
        apply Nat.ltb_ge in Hshort. now rewrite Hshort.
      * rewrite (Hget "log_storage_info") by discriminate. exact Hinfo.
Qed.

Lemma saved_status_reads_back_witness :
  exists resp shown,
    get_task_status_endpoint (3000 # 1) "T"
      {| store := so_store
                    (save_task_status NoFault "T"
                       (progress_args TASK_STATUS_REVOKED (log_lines 15))
                       (2000 # 1) (2000 # 1) family_store);
         queue := family_queue |}
    = Ok (resp, 200)
    /\ r_state resp = JStr "REVOKED"
    /\ r_progress resp = JInt 100
    /\ r_details resp = JDict shown
    /\ dict_get shown "log" = Some (JList (skipn 5 (log_lines 15))).
Proof.
  destruct (saved_status_reads_back "T"
              (progress_args TASK_STATUS_REVOKED (log_lines 15))
              (2000 # 1) (2000 # 1) (3000 # 1) family_store family_queue
              [("log", JList (log_lines 15))] eq_refl eq_refl)
    as [resp [shown [Hrun [Hs [Hp [_ [Hd [_ Hlog]]]]]]]].
  exists resp, shown. repeat split; try assumption.
  destruct (Hlog (log_lines 15) ltac:(discriminate) eq_refl) as [H _].
  exact H.
Defined.

Lemma upsert_ids (new : Row) (upd : Row -> Row) (s : Store) :
  (forall r, task_id (upd r) = task_id r) ->
  map task_id (upsert new upd s)
  = if has_row s (task_id new) then map task_id s
    else map task_id s ++ [task_id new].
Proof.
  intros Hupd. unfold has_row.
  induction s as [|r s IH]; simpl; [reflexivity|].
  destruct (String.eqb (task_id r) (task_id new)) eqn:E; simpl.
  - now rewrite Hupd.
  - rewrite IH. now destruct (find_row s (task_id new)).
Qed.

Lemma has_row_In (s : Store) (id : string) :
  has_row s id = false -> ~ In id (map task_id s).
Proof.
  unfold has_row. induction s as [|r s IH]; simpl; [tauto|].
  destruct (String.eqb (task_id r) id) eqn:E; [discriminate|].
  apply String.eqb_neq in E. intros H [Heq | Hin]; [congruence|].
  now apply IH.
Qed.

(** X14. A status write that goes through keeps the table a table: task
    ids stay unique, every other task keeps its row, the table grows by
    one row exactly when the task had none, and a task that had a row
    keeps the task type of that row whatever type the call passes. *)
Theorem save_keeps_table (id : string) (a : SaveArgs) (now sql_now : Q)
    (s : Store) :
  NoDup (map task_id s) ->
  let s' := so_store (save_task_status NoFault id a now sql_now s) in
  NoDup (map task_id s')
  /\ (forall y, y <> id -> find_row s' y = find_row s y)
  /\ List.length s' = List.length s + (if has_row s id then 0 else 1)
  /\ option_map task_type (find_row s' id)
     = Some (match find_row s id with
             | Some r => task_type r
             | None => a_task_type a
             end).
Proof.
  intros Hnd s'. subst s'. simpl so_store. unfold save_statement.
  match goal with
  | |- context [upsert ?n ?u s] =>
      pose proof (upsert_ids n u s (fun _ => eq_refl)) as Hids;
      pose proof (find_row_upsert_same n u s (fun _ => eq_refl)) as Hsame;
      pose proof (fun y => find_row_upsert_other n u s y (fun _ => eq_refl))
        as Hother
  end.
  simpl task_id in Hids, Hsame, Hother.
  split; [|split; [|split]].
  - rewrite Hids. destruct (has_row s id) eqn:Hrow; [exact Hnd|].
    apply NoDup_app; [exact Hnd | repeat constructor; simpl; tauto |].
    intros x Hx [Heq | []]. subst x. now apply (has_row_In s id).
  - intros y Hy. now apply Hother.
  - rewrite <- (length_map task_id), Hids.
    destruct (has_row s id); rewrite ?length_app, !length_map; simpl; lia.
  - rewrite Hsame. simpl. now destruct (find_row s id).
Qed.

Lemma save_keeps_table_witness :
  NoDup (map task_id family_store)
  /\ option_map task_type
       (find_row (so_store
                    (save_task_status NoFault "C1"
                       (progress_args TASK_STATUS_PROGRESS [])
                       (2000 # 1) (2000 # 1) family_store)) "C1")
     = Some "album_analysis"
  /\ a_task_type (progress_args TASK_STATUS_PROGRESS []) = "main_analysis".
Proof.
  assert (Hnd : NoDup (map task_id family_store))
    by (repeat constructor; simpl; intuition discriminate).
  split; [exact Hnd|]. split; [|reflexivity].
  destruct (save_keeps_table "C1" (progress_args TASK_STATUS_PROGRESS [])
              (2000 # 1) (2000 # 1) family_store Hnd) as [_ [_ [_ H]]].
  exact H.
Defined.

(** ** The archival sweep, further *)

Section SweepFurther.

Variable py_str : json -> string.
Variable sql_now : Q.

Lemma sweep_row_columns (r : Row) :
  task_id (sweep_row py_str sql_now r) = task_id r
  /\ start_time (sweep_row py_str sql_now r) = start_time r
  /\ end_time (sweep_row py_str sql_now r) = end_time r
  /\ parent_task_id (sweep_row py_str sql_now r) = parent_task_id r
  /\ task_type (sweep_row py_str sql_now r) = task_type r.
Proof.
  unfold sweep_row, archived_row.
  destruct (archivable r); [|repeat split].
  destruct (status r) as [st|]; [|repeat split].
  destruct (original_status_message py_str st (details r)); repeat split.
Qed.

Lemma find_row_swept (s : Store) (id : string) :
  find_row (map (sweep_row py_str sql_now) s) id
  = option_map (sweep_row py_str sql_now) (find_row s id).
Proof.
  induction s as [|r s IH]; simpl; [reflexivity|].
  destruct (sweep_row_columns r) as [-> _].
  now destruct (String.eqb (task_id r) id).
Qed.

Lemma active_root_archivable (r : Row) :
  is_active_root r = true -> archivable r = true.
Proof.
  unfold is_active_root, archivable, status_in.
  destruct (is_root r); [|discriminate]. simpl.
  destruct (status r) as [st|]; [|discriminate]. simpl.
  rewrite !andb_true_r, !orb_false_r.
  destruct (String.eqb st TASK_STATUS_PENDING),
    (String.eqb st TASK_STATUS_STARTED),
    (String.eqb st TASK_STATUS_PROGRESS); simpl; auto; discriminate.
Qed.

Lemma archive_task_raises (t : Row) (working : Store) :
  archivable t = true ->
  details_wellformed (details t) = false ->
  archive_task py_str sql_now t working = Raise AttributeError.
Proof.
  intros Ha Hw. unfold archivable in Ha. apply andb_prop in Ha.
  destruct Ha as [Hst _]. unfold archive_task.
  destruct (status t) as [st|]; [|discriminate].
  unfold original_status_message, details_wellformed in *.
  destruct (details t) as [[j|raw]|]; try discriminate.
  destruct j; try discriminate; reflexivity.
Qed.

Lemma archive_loop_raises (tasks : list Row) :
  forall (working : Store) (count : nat),
    (exists t, In t tasks /\ archivable t = true
               /\ details_wellformed (details t) = false) ->
    exists e, archive_loop py_str sql_now tasks working count = Raise e.
Proof.
  induction tasks as [|t tasks IH]; intros working count [b [Hin [Ha Hw]]];
    [contradiction|].
  simpl. destruct (archive_task py_str sql_now t working) as [w'|e] eqn:E.
  - destruct Hin as [-> | Hin].
    + rewrite archive_task_raises in E by assumption. discriminate.
    + apply IH. now exists b.
  - now exists e.
Qed.

End SweepFurther.

(** X15. Right after a sweep of a table with unique task ids and
    well-formed details, the active-task view answers the empty object:
    no root task is left PENDING, STARTED or PROGRESS. *)
Theorem no_active_task_after_sweep (py_str : json -> string)
    (sql_now later : Q) (s : Store) :
  NoDup (map task_id s) ->
  sweepable s = true ->
  get_active_tasks_endpoint later
    (cl_store (clean_up_previous_main_tasks py_str sql_now s))
  = Ok (None, 200).
Proof.
  intros Hnd Hsw.
  destruct (clean_up_store py_str sql_now s Hnd Hsw) as [-> _].
  unfold get_active_tasks_endpoint.
  replace (filter is_active_root (map (sweep_row py_str sql_now) s))
    with (@nil Row); [reflexivity|].
  symmetry.
  pose proof (sweep_leaves_nothing py_str sql_now s Hsw) as Hnone.
  induction (map (sweep_row py_str sql_now) s) as [|r l IH];
    simpl in *; [reflexivity|].
  destruct (archivable r) eqn:Ea; [discriminate|].
  destruct (is_active_root r) eqn:Eact.
  - rewrite (active_root_archivable r Eact) in Ea. discriminate.
  - now apply IH.
Qed.

Lemma no_active_task_after_sweep_witness :
  (exists view, get_active_tasks_endpoint (3000 # 1) history_store
                = Ok (Some view, 200))
  /\ get_active_tasks_endpoint (3000 # 1)
       (cl_store (clean_up_previous_main_tasks sample_str (2000 # 1)
                    history_store))
     = Ok (None, 200).
Proof.
  split; [eexists; reflexivity|].
  apply no_active_task_after_sweep; [|reflexivity].
  repeat constructor; simpl; intuition discriminate.
Defined.

(** X16. The sweep sets neither a start nor an end time: after it every
    task reads the running time and the end time it read before. A stale
    run archived without an end time is therefore REVOKED and still
    counting with the clock. *)
Theorem sweep_keeps_running_time (py_str : json -> string)
    (sql_now later : Q) (s : Store) (id : string) :
  NoDup (map task_id s) ->
  sweepable s = true ->
  let s' := cl_store (clean_up_previous_main_tasks py_str sql_now s) in
  option_map running_time_seconds (get_task_info_from_db later s' id)
  = option_map running_time_seconds (get_task_info_from_db later s id)
  /\ option_map (fun i => end_time (ti_row i))
       (get_task_info_from_db later s' id)
     = option_map (fun i => end_time (ti_row i))
         (get_task_info_from_db later s id).
Proof.
  intros Hnd Hsw s'. subst s'.
  destruct (clean_up_store py_str sql_now s Hnd Hsw) as [-> _].
  unfold get_task_info_from_db. rewrite find_row_swept.
  destruct (find_row s id) as [r|]; simpl; [|split; reflexivity].
  destruct (sweep_row_columns py_str sql_now r) as [_ [Hs [He _]]].
  unfold running_time. rewrite Hs, He. split; reflexivity.
Qed.

Lemma sweep_keeps_running_time_witness :
  let s' := cl_store (clean_up_previous_main_tasks sample_str (2000 # 1)
                        stale_store) in
  option_map status (find_row s' "S") = Some (Some TASK_STATUS_REVOKED)
  /\ option_map running_time_seconds (get_task_info_from_db (3000 # 1) s' "S")
     = Some (2000 # 1)%Q
  /\ option_map running_time_seconds (get_task_info_from_db (4000 # 1) s' "S")
     = Some (3000 # 1)%Q.
Proof.
  assert (Hnd : NoDup (map task_id stale_store))
    by (repeat constructor; simpl; intuition discriminate).
  intros s'. subst s'. split; [reflexivity|]. split.
  - destruct (sweep_keeps_running_time sample_str (2000 # 1) (3000 # 1)
                stale_store "S" Hnd eq_refl) as [H _].
    exact (eq_trans H eq_refl).
  - destruct (sweep_keeps_running_time sample_str (2000 # 1) (4000 # 1)
                stale_store "S" Hnd eq_refl) as [H _].
    exact (eq_trans H eq_refl).
Defined.

(** X17. One selected row whose details decode to something that is not
    an object (a list, a number, null) makes the whole sweep roll back:
    the table is left as it was and nothing is archived, the well-formed
    rows included. *)
Theorem sweep_rolls_back_on_stray_details (py_str : json -> string)
    (sql_now : Q) (s : Store) :
  sweepable s = false ->
  cl_store (clean_up_previous_main_tasks py_str sql_now s) = s
  /\ cl_archived (clean_up_previous_main_tasks py_str sql_now s) = None.
Proof.
  intros Hsw.
  assert (Hbad : exists t, In t (filter archivable s)
                           /\ archivable t = true
                           /\ details_wellformed (details t) = false).
  { unfold sweepable in Hsw. induction s as [|r s IH]; [discriminate|].
    simpl in Hsw. apply andb_false_iff in Hsw. destruct Hsw as [Hr | Hs].
    - apply orb_false_iff in Hr. destruct Hr as [Ha Hw].
      apply negb_false_iff in Ha. exists r. simpl. rewrite Ha.
      split; [now left | now split].
    - destruct (IH Hs) as [t [Hin Ht]]. exists t. split; [|exact Ht].
      simpl. destruct (archivable r); [now right | exact Hin]. }
  unfold clean_up_previous_main_tasks.
  destruct (archive_loop_raises py_str sql_now (filter archivable s) s 0 Hbad)
    as [e ->].
  split; reflexivity.
Qed.

Lemma sweep_rolls_back_on_stray_details_witness :
  sweepable stray_store = false
  /\ filter archivable stray_store = stray_store
  /\ cl_store (clean_up_previous_main_tasks sample_str (2000 # 1) stray_store)
     = stray_store.
Proof.
  split; [reflexivity|]. split; [reflexivity|].
  destruct (sweep_rolls_back_on_stray_details sample_str (2000 # 1)
              stray_store eq_refl) as [H _].
  exact H.
Defined.

(** ** The track tables *)

Lemma remove_nul_clean (s : string) : has_nul (remove_nul s) = false.
Proof.
  induction s as [|c s IH]; simpl; [reflexivity|].
  destruct (Ascii.eqb c Ascii.zero) eqn:E; [exact IH|].
  simpl. rewrite E. exact IH.
Qed.

Lemma remove_nul_id (s : string) : has_nul s = false -> remove_nul s = s.
Proof.
  induction s as [|c s IH]; simpl; [reflexivity|].
  destruct (Ascii.eqb c Ascii.zero); simpl; [discriminate|].
  intros H. now rewrite IH.
Qed.

Lemma sanitize_clean_copy (x : option string) : clean_copy x (sanitize x).
Proof.
  destruct x as [s|]; unfold clean_copy, sanitize; simpl; [|auto].
  destruct (String.eqb s "") eqn:E.
  - apply String.eqb_eq in E. subst s. simpl. auto.
  - simpl. rewrite remove_nul_clean. split; [reflexivity|].
    intros H. apply negb_true_iff in H. now rewrite remove_nul_id.
Qed.

Lemma append_empty (a b : string) : (a ++ b)%string = "" -> a = "".
Proof. destruct a; simpl; [reflexivity|discriminate]. Qed.

Lemma concat_empty (sep x : string) (xs : list string) :
  String.concat sep (x :: xs) = "" -> x = "".
Proof.
  destruct xs; simpl; [auto|]. apply append_empty.
Qed.

Lemma mood_str_filled (fmt3 : Q -> string) (moods : list (string * Q)) :
  filled (Some (mood_str fmt3 moods)) = negb (is_nil moods).
Proof.
  destruct moods as [|[k v] rest]; [reflexivity|].
  simpl. apply negb_true_iff. apply String.eqb_neq. intros H.
  unfold mood_str in H. simpl map in H. apply concat_empty in H.
  destruct k; simpl in H; discriminate.
Qed.

Lemma upsert_score_In (new x : Score) (s : list Score) :
  NoDup (map item_id s) ->
  In x (upsert_score new s) -> item_id x = item_id new -> x = new.
Proof.
  induction s as [|y s IH]; simpl; intros Hnd Hin Hid.
  - destruct Hin as [H|[]]. now symmetry.
  - inversion Hnd as [|? ? Hni Hnd']; subst.
    destruct (String.eqb (item_id y) (item_id new)) eqn:E.
    + destruct Hin as [H|H]; [now symmetry|].
      apply String.eqb_eq in E. exfalso. apply Hni.
      rewrite E, <- Hid. now apply in_map.
    + destruct Hin as [H|H].
      * subst y. rewrite Hid, String.eqb_refl in E. discriminate.
      * now apply IH.
Qed.

Lemma upsert_score_new (new : Score) (s : list Score) :
  In new (upsert_score new s).
Proof.
  induction s as [|y s IH]; simpl; [now left|].
  destruct (String.eqb (item_id y) (item_id new)); simpl; auto.
Qed.

Lemma upsert_score_other (new x : Score) (s : list Score) :
  item_id x <> item_id new ->
  (In x (upsert_score new s) <-> In x s).
Proof.
  intros Hne. induction s as [|y s IH]; simpl.
  - split; [intros [H|[]]; subst; now elim Hne | intros []].
  - destruct (String.eqb (item_id y) (item_id new)) eqn:E; simpl.
    + apply String.eqb_eq in E. split; intros [H|H]; auto.
      * subst x. now elim Hne.
      * subst x. now elim Hne.
    + rewrite IH. tauto.
Qed.

Lemma upsert_score_ids (new : Score) (s : list Score) :
  NoDup (map item_id s) -> NoDup (map item_id (upsert_score new s)).
Proof.
  induction s as [|y s IH]; simpl; intros Hnd.
  - constructor; [intros []|constructor].
  - inversion Hnd as [|? ? Hni Hnd']; subst.
    destruct (String.eqb (item_id y) (item_id new)) eqn:E; simpl.
    + apply String.eqb_eq in E. rewrite <- E. now constructor.
    + constructor; [|now apply IH].
      intros Hin. apply in_map_iff in Hin. destruct Hin as [x [Hx Hin]].
      apply upsert_score_other in Hin.
      * apply Hni. rewrite <- Hx. now apply in_map.
      * rewrite Hx. intros Heq. rewrite Heq, String.eqb_refl in E.
        discriminate.
Qed.

Lemma existsb_upsert_score (g : Score -> bool) (new : Score)
    (s : list Score) :
  NoDup (map item_id s) ->
  (forall x, g x = true -> item_id x = item_id new) ->
  existsb g (upsert_score new s) = g new.
Proof.
  intros Hnd Hg. apply eq_true_iff_eq. rewrite existsb_exists. split.
  - intros [x [Hin Hx]].
    now rewrite <- (upsert_score_In new x s Hnd Hin (Hg x Hx)).
  - intros H. exists new. split; [apply upsert_score_new|exact H].
Qed.

Lemma existsb_upsert_score_other (g : Score -> bool) (new : Score)
    (s : list Score) :
  (forall x, g x = true -> item_id x <> item_id new) ->
  existsb g (upsert_score new s) = existsb g s.
Proof.
  intros Hg. apply eq_true_iff_eq. rewrite !existsb_exists.
  split; intros [x [Hin Hx]]; exists x; split; auto;
    now apply (upsert_score_other new x s (Hg x Hx)).
Qed.

Lemma has_upsert_embedding {bytes : Type} (new : Embedding bytes)
    (l : list (Embedding bytes)) (id : string) :
  existsb (fun e => String.eqb id (e_item_id e)) (upsert_embedding new l)
  = String.eqb id (e_item_id new)
    || existsb (fun e => String.eqb id (e_item_id e)) l.
Proof.
  induction l as [|e l IH]; simpl; [reflexivity|].
  destruct (String.eqb (e_item_id e) (e_item_id new)) eqn:E; simpl.
  - apply String.eqb_eq in E. rewrite E.
    now destruct (String.eqb id (e_item_id new)).
  - rewrite IH.
    destruct (String.eqb id (e_item_id e)), (String.eqb id (e_item_id new));
      reflexivity.
Qed.

Lemma track_exists_join {bytes : Type} (l : Library bytes) (id : string) :
  track_exists l id = existsb (analyzed id) (scores l) && has_embedding l id.
Proof.
  unfold track_exists, has_embedding.
  induction (scores l) as [|s ss IH]; simpl; [reflexivity|].
  rewrite IH. unfold analyzed at 1 3.
  destruct (String.eqb (item_id s) id) eqn:E; simpl.
  - apply String.eqb_eq in E. rewrite E.
    destruct (existsb (fun e => String.eqb id (e_item_id e)) (embeddings l));
      rewrite ?andb_true_r, ?andb_false_r, ?orb_false_l; reflexivity.
  - reflexivity.
Qed.

Section TracksFurther.

Variables ndarray bytes : Type.
Variable size : ndarray -> nat.
Variable tobytes : ndarray -> bytes.
Variable fmt3 : Q -> string.
Variable to_real : Q -> Q.

Lemma present_map {A B : Type} (f : A -> B) (x : option A) :
  present (option_map f x) = present x.
Proof. now destruct x. Qed.

Lemma saved_embeddings (a : TrackArgs ndarray) (l : Library bytes)
    (id : string) :
  match save_track_analysis_and_embedding size tobytes fmt3 to_real false a
          l with
  | Saved l' =>
      has_embedding l' id
      = String.eqb id (t_item_id a)
          && non_empty_array size (t_embedding_vector a)
        || has_embedding l id
  | SaveRaised _ => False
  end.
Proof.
  unfold save_track_analysis_and_embedding, has_embedding; simpl.
  destruct (t_embedding_vector a) as [v|]; simpl.
  - destruct (Nat.ltb 0 (size v)).
    + rewrite has_upsert_embedding. simpl. now rewrite andb_true_r.
    + now rewrite andb_false_r.
  - now rewrite andb_false_r.
Qed.

(** X18. After [save_track_analysis_and_embedding] has committed a track,
    [track_exists] answers for that track exactly when tempo and energy
    were given, the features text is still non-empty once its NUL
    characters are removed, at least one mood was given, and the track has
    an embedding (a non-empty array was passed now, or a row was there
    before); the answer for every other track is what it was. *)
Theorem track_exists_after_save (a : TrackArgs ndarray) (l : Library bytes) :
  NoDup (map item_id (scores l)) ->
  exists l',
    save_track_analysis_and_embedding size tobytes fmt3 to_real false a l
    = Saved l'
    /\ NoDup (map item_id (scores l'))
    /\ track_exists l' (t_item_id a)
       = present (t_tempo a) && present (t_energy a)
         && filled (sanitize (t_other_features a))
         && negb (is_nil (t_moods a))
         && (non_empty_array size (t_embedding_vector a)
             || has_embedding l (t_item_id a))
    /\ (forall id, id <> t_item_id a ->
                   track_exists l' id = track_exists l id).
Proof.
  intros Hnd.
  pose proof (saved_embeddings a l) as Hemb.
  destruct (save_track_analysis_and_embedding size tobytes fmt3 to_real
              false a l)
    as [l'|l'] eqn:Hs; [|destruct (Hemb "")].
  exists l'. split; [reflexivity|].
  assert (Hsc : scores l'
                = upsert_score
                    {| item_id := t_item_id a;
                       title := sanitize (t_title a);
                       author := sanitize (t_author a);
                       tempo := option_map to_real (t_tempo a);
                       key := sanitize (t_key a);
                       scale := sanitize (t_scale a);
                       mood_vector := Some (mood_str fmt3 (t_moods a));
                       energy := option_map to_real (t_energy a);
                       other_features := sanitize (t_other_features a) |}
                    (scores l)).
  { unfold save_track_analysis_and_embedding in Hs. simpl in Hs.
    injection Hs as <-. reflexivity. }
  split; [rewrite Hsc; now apply upsert_score_ids|].
  split.
  - rewrite track_exists_join, Hemb, String.eqb_refl, Hsc. simpl andb.
    rewrite existsb_upsert_score; [|exact Hnd|].
    + unfold analyzed. cbn [item_id other_features energy mood_vector tempo].
      rewrite String.eqb_refl, mood_str_filled, !present_map. simpl andb.
      destruct (present (t_tempo a)), (present (t_energy a)),
        (filled (sanitize (t_other_features a))),
        (negb (is_nil (t_moods a))); reflexivity.
    + intros x Hx. unfold analyzed in Hx.
      destruct (String.eqb (item_id x) (t_item_id a)) eqn:E;
        [|discriminate].
      now apply String.eqb_eq in E.
  - intros id Hne. rewrite !track_exists_join, Hemb, Hsc.
    rewrite (proj2 (String.eqb_neq _ _) Hne). simpl orb.
    rewrite existsb_upsert_score_other; [reflexivity|].
    intros x Hx. unfold analyzed in Hx. simpl.
    destruct (String.eqb (item_id x) id) eqn:E; [|discriminate].
    apply String.eqb_eq in E. now rewrite E.
Qed.

(** X19. The row [save_track_analysis_and_embedding] leaves for a track
    holds no NUL character in title, author, key, scale and features text,
    and an argument without NUL characters is stored as it was given. *)
Theorem saved_track_has_no_nul (a : TrackArgs ndarray) (l : Library bytes)
    (l' : Library bytes) (r : Score) :
  NoDup (map item_id (scores l)) ->
  save_track_analysis_and_embedding size tobytes fmt3 to_real false a l
  = Saved l' ->
  In r (scores l') -> item_id r = t_item_id a ->
  clean_copy (t_title a) (title r)
  /\ clean_copy (t_author a) (author r)
  /\ clean_copy (t_key a) (key r)
  /\ clean_copy (t_scale a) (scale r)
  /\ clean_copy (t_other_features a) (other_features r).
Proof.
  intros Hnd Hs Hin Hid.
  unfold save_track_analysis_and_embedding in Hs. simpl in Hs.
  injection Hs as <-. simpl in Hin.
  apply upsert_score_In in Hin; [|exact Hnd|exact Hid].
  subst r. simpl.
  repeat split; try apply sanitize_clean_copy.
Qed.

End TracksFurther.

Lemma track_exists_after_save_witness :
  exists l',
    save_track_analysis_and_embedding (@List.length Z) (fun v => v)
      sample_fmt3 sample_to_real false sample_track sample_library
    = Saved l'
    /\ NoDup (map item_id (scores l'))
    /\ track_exists l' (t_item_id sample_track)
       = present (t_tempo sample_track) && present (t_energy sample_track)
         && filled (sanitize (t_other_features sample_track))
         && negb (is_nil (t_moods sample_track))
         && (non_empty_array (@List.length Z)
               (t_embedding_vector sample_track)
             || has_embedding sample_library (t_item_id sample_track))
    /\ (forall id, id <> t_item_id sample_track ->
                   track_exists l' id = track_exists sample_library id).
Proof.
  apply (track_exists_after_save (list Z) (list Z) (@List.length Z)
           (fun v => v) sample_fmt3 sample_to_real sample_track
           sample_library).
  repeat constructor; simpl; intuition discriminate.
Defined.

Lemma saved_track_has_no_nul_witness :
  clean_copy (t_title sample_track) (title sample_saved_row)
  /\ clean_copy (t_author sample_track) (author sample_saved_row)
  /\ clean_copy (t_key sample_track) (key sample_saved_row)
  /\ clean_copy (t_scale sample_track) (scale sample_saved_row)
  /\ clean_copy (t_other_features sample_track)
       (other_features sample_saved_row).
Proof.
  apply (saved_track_has_no_nul (list Z) (list Z) (@List.length Z)
           (fun v => v) sample_fmt3 sample_to_real sample_track
           sample_library sample_saved_library sample_saved_row).
  - repeat constructor; simpl; intuition discriminate.
  - vm_compute. reflexivity.
  - simpl. auto.
  - reflexivity.
Defined.

(** ** The sonic fingerprint endpoint *)

Lemma find_app_first {A : Type} (p : A -> bool) (l1 l2 : list A) :
  find p (l1 ++ l2)
  = match find p l1 with Some x => Some x | None => find p l2 end.
Proof.
  induction l1 as [|x l1 IH]; simpl; [reflexivity|].
  now destruct (p x).
Qed.

Lemma find_absent {A : Type} (p : A -> bool) (l : list A) :
  (forall x, In x l -> p x = false) -> find p l = None.
Proof.
  induction l as [|x l IH]; simpl; intros H; [reflexivity|].
  rewrite (H x (or_introl eq_refl)). apply IH. intros y Hy. apply H. now right.
Qed.

Lemma find_rev_unique {A : Type} (f : A -> string) (id : string)
    (l : list A) :
  NoDup (map f l) ->
  find (fun x => String.eqb (f x) id) (rev l)
  = find (fun x => String.eqb (f x) id) l.
Proof.
  induction l as [|x l IH]; simpl; intros Hnd; [reflexivity|].
  inversion Hnd as [|? ? Hni Hnd']; subst.
  rewrite find_app_first, (IH Hnd'). simpl.
  destruct (String.eqb (f x) id) eqn:E.
  - apply String.eqb_eq in E. rewrite find_absent; [reflexivity|].
    intros y Hy. apply String.eqb_neq. intros Hfy. apply Hni.
    rewrite E, <- Hfy. now apply in_map.
  - now destruct (find (fun x0 => String.eqb (f x0) id) l).
Qed.

Lemma find_unique {A : Type} (f : A -> string) (x : A) (l : list A) :
  NoDup (map f l) -> In x l ->
  find (fun y => String.eqb (f y) (f x)) l = Some x.
Proof.
  induction l as [|y l IH]; simpl; intros Hnd Hin; [destruct Hin|].
  inversion Hnd as [|? ? Hni Hnd']; subst.
  destruct Hin as [->|Hin].
  - now rewrite String.eqb_refl.
  - destruct (String.eqb (f y) (f x)) eqn:E.
    + apply String.eqb_eq in E. exfalso. apply Hni. rewrite E.
      now apply in_map.
    + now apply IH.
Qed.

Lemma find_filter_implied {A : Type} (p q : A -> bool) (l : list A) :
  (forall x, p x = true -> q x = true) ->
  find p (filter q l) = find p l.
Proof.
  intros Hpq. induction l as [|x l IH]; simpl; [reflexivity|].
  destruct (q x) eqn:Eq; simpl.
  - now rewrite IH.
  - destruct (p x) eqn:Ep; [|exact IH].
    rewrite (Hpq x Ep) in Eq. discriminate.
Qed.

Lemma NoDup_key_filter {A : Type} (f : A -> string) (q : A -> bool)
    (l : list A) :
  NoDup (map f l) -> NoDup (map f (filter q l)).
Proof.
  induction l as [|x l IH]; simpl; intros Hnd; [constructor|].
  inversion Hnd as [|? ? Hni Hnd']; subst.
  destruct (q x); simpl; [|now apply IH].
  constructor; [|now apply IH].
  intros Hin. apply Hni. apply in_map_iff in Hin.
  destruct Hin as [y [Hy Hin]]. apply filter_In in Hin.
  rewrite <- Hy. apply in_map. tauto.
Qed.

Lemma details_of_selected (scores : list Score) (ids : list string)
    (id : string) :
  NoDup (map item_id scores) -> In id ids ->
  details_map_get (filter (id_in ids) scores) id = score_of scores id.
Proof.
  intros Hnd Hin. unfold details_map_get, score_of.
  rewrite find_rev_unique; [|now apply NoDup_key_filter].
  apply find_filter_implied. intros x Hx. apply String.eqb_eq in Hx.
  unfold id_in. apply existsb_exists. exists id. split; [exact Hin|].
  now apply String.eqb_eq.
Qed.

Lemma distance_of_neighbor (rs : list Neighbor) (r : Neighbor) :
  NoDup (map n_item_id rs) -> In r rs ->
  distance_map_get rs (n_item_id r) = Some (n_distance r).
Proof.
  intros Hnd Hin. unfold distance_map_get.
  rewrite find_rev_unique; [|exact Hnd].
  now rewrite (find_unique n_item_id r rs Hnd Hin).
Qed.

Lemma distance_known (rs : list Neighbor) (id : string) :
  In id (map n_item_id rs) -> distance_map_get rs id <> None.
Proof.
  intros Hin. apply in_map_iff in Hin. destruct Hin as [r [Hr Hin]].
  unfold distance_map_get.
  destruct (find (fun r0 => String.eqb (n_item_id r0) id) (rev rs)) eqn:E;
    [discriminate|].
  exfalso.
  pose proof (find_none _ _ E r (proj1 (in_rev rs r) Hin)) as Hf.
  simpl in Hf. rewrite Hr, String.eqb_refl in Hf. discriminate.
Qed.

Lemma final_results_ranked (scores : list Score) (ids : list string)
    (rs rs' : list Neighbor) :
  NoDup (map item_id scores) -> NoDup (map n_item_id rs) ->
  incl rs' rs -> incl (map n_item_id rs') ids ->
  final_results (filter (id_in ids) scores) rs (map n_item_id rs')
  = Some (ranked_entries scores rs').
Proof.
  intros Hs Hr. induction rs' as [|r rs' IH]; simpl; intros Hin Hids;
    [reflexivity|].
  rewrite details_of_selected;
    [|exact Hs|apply Hids; now left].
  rewrite IH;
    [|intros x Hx; apply Hin; now right
     |intros x Hx; apply Hids; now right].
  destruct (score_of scores (n_item_id r)) as [s|]; [|reflexivity].
  rewrite distance_of_neighbor; [reflexivity|exact Hr|apply Hin; now left].
Qed.

Lemma final_results_total (details : list Score) (rs : list Neighbor)
    (ids : list string) :
  incl ids (map n_item_id rs) ->
  final_results details rs ids <> None.
Proof.
  induction ids as [|id ids IH]; simpl; intros Hin; [discriminate|].
  assert (Hrest : final_results details rs ids <> None).
  { apply IH. intros x Hx. apply Hin. now right. }
  destruct (details_map_get details id); [|exact Hrest].
  pose proof (distance_known rs id (Hin id (or_introl eq_refl))) as Hd.
  destruct (distance_map_get rs id); [|now elim Hd].
  destruct (final_results details rs ids); [discriminate|now elim Hrest].
Qed.

Lemma final_results_no_details (rs : list Neighbor) (ids : list string) :
  final_results [] rs ids = Some [].
Proof. induction ids as [|id ids IH]; simpl; auto. Qed.

Lemma score_data_selected (ids : list string) (scores : list Score) :
  get_score_data_by_ids ReadOk ids scores
  = Some (filter (id_in ids) scores).
Proof.
  destruct ids as [|id ids]; [|reflexivity]. simpl. f_equal.
  induction scores as [|s scores IH]; simpl; auto.
Qed.

Lemma score_data_query_fails (ids : list string) (scores : list Score) :
  get_score_data_by_ids QueryFails ids scores = Some [].
Proof. now destruct ids. Qed.

Section SonicFurther.

Variable cfg : Config.
Variable resolve_jellyfin_user : string -> string -> option (option string).
Variable generate_sonic_fingerprint :
  option Z -> list (string * string) -> option (list Neighbor).

(** X20. When the credentials are accepted and the fingerprint gives a
    ranking with distinct item ids, the endpoint answers 200 with the
    neighbours in the order of the ranking, each with the title and author
    of its [score] row and its own distance; a neighbour without a [score]
    row is dropped and the others keep their places. *)
Theorem fingerprint_keeps_ranking (scores : list Score) (req : Request)
    (creds : list (string * string)) (rs : list Neighbor) :
  user_credentials cfg resolve_jellyfin_user req = inr creds ->
  generate_sonic_fingerprint (arg_n req) creds = Some rs ->
  NoDup (map n_item_id rs) ->
  NoDup (map item_id scores) ->
  generate_sonic_fingerprint_endpoint cfg resolve_jellyfin_user
    generate_sonic_fingerprint ReadOk scores req
  = (JList (ranked_entries scores rs), 200).
Proof.
  intros Hc Hg Hr Hs. unfold generate_sonic_fingerprint_endpoint.
  rewrite Hc, Hg. destruct rs as [|r rs]; [reflexivity|].
  rewrite score_data_selected.
  rewrite (final_results_ranked scores (map n_item_id (r :: rs)) (r :: rs)
             (r :: rs) Hs Hr (incl_refl _) (incl_refl _)).
  reflexivity.
Qed.

(** X21. An error of the score query is not reported: whatever the
    ranking, the endpoint then answers 200 with the empty list, as if
    nothing had been found. A failure to reach the store, with a non-empty
    ranking, gives the 500 answer. *)
Theorem fingerprint_hides_query_error (scores : list Score) (req : Request)
    (creds : list (string * string)) (rs : list Neighbor) :
  user_credentials cfg resolve_jellyfin_user req = inr creds ->
  generate_sonic_fingerprint (arg_n req) creds = Some rs ->
  generate_sonic_fingerprint_endpoint cfg resolve_jellyfin_user
    generate_sonic_fingerprint QueryFails scores req
  = (JList [], 200)
  /\ (rs <> [] ->
      generate_sonic_fingerprint_endpoint cfg resolve_jellyfin_user
        generate_sonic_fingerprint ConnectFails scores req
      = UNEXPECTED_ERROR).
Proof.
  intros Hc Hg. unfold generate_sonic_fingerprint_endpoint.
  rewrite Hc, Hg. destruct rs as [|r rs].
  - split; [reflexivity|]. intros H. now elim H.
  - split; [|reflexivity].
    now rewrite score_data_query_fails, final_results_no_details.
Qed.

(** X22. The 500 answer is only given for an exception of a
    collaborator: when the user resolver and the fingerprint generator
    return and the store can be reached, the status code is 200 or 400 for
    every request, every configuration and every content of the tables. *)
Theorem fingerprint_500_only_on_exception (flt : read_fault)
    (scores : list Score) (req : Request) :
  (forall u t, resolve_jellyfin_user u t <> None) ->
  (forall n c, generate_sonic_fingerprint n c <> None) ->
  flt <> ConnectFails ->
  let code :=
    snd (generate_sonic_fingerprint_endpoint cfg resolve_jellyfin_user
           generate_sonic_fingerprint flt scores req) in
  code = 200 \/ code = 400.
Proof.
  intros Hres Hgen Hflt. unfold generate_sonic_fingerprint_endpoint.
  destruct (user_credentials cfg resolve_jellyfin_user req)
    as [resp|creds] eqn:Hc.
  - right. unfold user_credentials in Hc.
    destruct (String.eqb (MEDIASERVER_TYPE cfg) "jellyfin").
    + destruct (args_get (args req) "jellyfin_user_identifier") as [u|];
        [|now inversion Hc].
      destruct (String.eqb u ""); [now inversion Hc|].
      destruct (String.eqb _ ""); [now inversion Hc|].
      match type of Hc with
      | context [resolve_jellyfin_user ?a ?b] =>
          pose proof (Hres a b) as Hr;
          destruct (resolve_jellyfin_user a b) as [[ru|]|]
      end; [|now inversion Hc|now elim Hr].
      destruct (String.eqb ru ""); [now inversion Hc|discriminate].
    + destruct (String.eqb (MEDIASERVER_TYPE cfg) "navidrome");
        [|discriminate].
      destruct (_ || _); [now inversion Hc|discriminate].
  - pose proof (Hgen (arg_n req) creds) as Hg.
    destruct (generate_sonic_fingerprint (arg_n req) creds) as [rs|];
      [|now elim Hg].
    destruct rs as [|r rs]; [now left|].
    destruct (get_score_data_by_ids flt (map n_item_id (r :: rs)) scores)
      as [details|] eqn:Hd.
    + pose proof (final_results_total details (r :: rs)
                    (map n_item_id (r :: rs)) (incl_refl _)) as Hf.
      destruct (final_results details (r :: rs) (map n_item_id (r :: rs)));
        [now left|now elim Hf].
    + simpl in Hd. destruct flt; try discriminate. now elim Hflt.
Qed.

End SonicFurther.

Lemma fingerprint_keeps_ranking_witness :
  generate_sonic_fingerprint_endpoint navidrome_cfg sample_resolve
    sample_generate ReadOk (scores sample_saved_library) sample_request
  = (JList (ranked_entries (scores sample_saved_library) sample_ranking),
     200).
Proof.
  apply (fingerprint_keeps_ranking navidrome_cfg sample_resolve
           sample_generate (scores sample_saved_library) sample_request
           [("user", "alice"); ("password", "secret")] sample_ranking).
  - reflexivity.
  - reflexivity.
  - repeat constructor; simpl; intuition discriminate.
  - repeat constructor; simpl; intuition discriminate.
Defined.

Lemma fingerprint_hides_query_error_witness :
  generate_sonic_fingerprint_endpoint navidrome_cfg sample_resolve
    sample_generate QueryFails (scores sample_saved_library) sample_request
  = (JList [], 200)
  /\ (sample_ranking <> [] ->
      generate_sonic_fingerprint_endpoint navidrome_cfg sample_resolve
        sample_generate ConnectFails (scores sample_saved_library)
        sample_request
      = UNEXPECTED_ERROR).
Proof.
  apply (fingerprint_hides_query_error navidrome_cfg sample_resolve
           sample_generate (scores sample_saved_library) sample_request
           [("user", "alice"); ("password", "secret")] sample_ranking).
  - reflexivity.
  - reflexivity.
Defined.

Lemma fingerprint_500_only_on_exception_witness :
  let code :=
    snd (generate_sonic_fingerprint_endpoint navidrome_cfg sample_resolve
           sample_generate QueryFails (scores sample_saved_library)
           sample_request) in
  code = 200 \/ code = 400.
Proof.
  apply (fingerprint_500_only_on_exception navidrome_cfg sample_resolve
           sample_generate QueryFails (scores sample_saved_library)
           sample_request).
  - discriminate.
  - discriminate.
  - discriminate.
Defined.

(** ** The playlist table *)

Lemma Permutation_filter_same {A : Type} (f : A -> bool) (l l' : list A) :
  Permutation l l' -> Permutation (filter f l) (filter f l').
Proof.
  induction 1 as [|x l l' H IH|x y l|l l' l'' H1 IH1 H2 IH2]; simpl.
  - constructor.
  - destruct (f x); [now constructor|exact IH].
  - destruct (f x), (f y); try apply Permutation_refl. apply perm_swap.
  - now apply (Permutation_trans IH1).
Qed.

Lemma existsb_conflicts (name item : string) (t : list PlaylistRow) :
  existsb (conflicts name item) t
  = existsb (String.eqb item) (map p_item_id (filter (by_name name) t)).
Proof.
  induction t as [|r t IH]; simpl; [reflexivity|].
  unfold conflicts at 1, by_name at 1.
  destruct (String.eqb (playlist_name r) name); simpl.
  - rewrite IH. now rewrite (String.eqb_sym item (p_item_id r)).
  - exact IH.
Qed.

Lemma first_of_each_seen (seen seen' : list string) (c : list track) :
  (forall x, existsb (String.eqb x) seen = existsb (String.eqb x) seen') ->
  first_of_each seen c = first_of_each seen' c.
Proof.
  revert seen seen'. induction c as [|[[item ti] au] c IH]; simpl;
    intros seen seen' H; [reflexivity|].
  rewrite <- (H item). destruct (existsb (String.eqb item) seen).
  - now apply IH.
  - f_equal. apply IH. intros x. simpl. now rewrite H.
Qed.

Lemma filter_by_name_last (name name' : string) (t : list PlaylistRow)
    (tr : track) :
  filter (by_name name') (t ++ [row_of name tr])
  = filter (by_name name') t
    ++ (if String.eqb name name' then [row_of name tr] else []).
Proof.
  rewrite filter_app. f_equal. simpl. unfold by_name.
  destruct tr as [[item ti] au]. simpl.
  now destruct (String.eqb name name').
Qed.

Lemma insert_track_unfold (name item : string) (ti au : option string)
    (t : list PlaylistRow) :
  insert_track name t (item, ti, au)
  = if existsb (String.eqb item) (map p_item_id (filter (by_name name) t))
    then t
    else t ++ [row_of name (item, ti, au)].
Proof. unfold insert_track. now rewrite existsb_conflicts. Qed.

Lemma insert_cluster_same (name : string) (c : list track)
    (t : list PlaylistRow) :
  filter (by_name name) (fold_left (insert_track name) c t)
  = filter (by_name name) t
    ++ map (row_of name)
         (first_of_each (map p_item_id (filter (by_name name) t)) c).
Proof.
  revert t. induction c as [|[[item ti] au] c IH]; intros t.
  - simpl. now rewrite app_nil_r.
  - cbn [fold_left first_of_each]. rewrite IH, insert_track_unfold.
    destruct (existsb (String.eqb item)
                (map p_item_id (filter (by_name name) t))) eqn:E.
    + reflexivity.
    + rewrite filter_by_name_last, String.eqb_refl, <- app_assoc.
      f_equal. cbn [map app]. f_equal. f_equal.
      apply first_of_each_seen. intros x.
      rewrite map_app, existsb_app. simpl.
      now destruct (String.eqb x item),
        (existsb (String.eqb x) (map p_item_id (filter (by_name name) t))).
Qed.

Lemma insert_cluster_other (name name' : string) (c : list track)
    (t : list PlaylistRow) :
  name <> name' ->
  filter (by_name name') (fold_left (insert_track name) c t)
  = filter (by_name name') t.
Proof.
  intros Hne. revert t. induction c as [|[[item ti] au] c IH]; intros t;
    [reflexivity|].
  cbn [fold_left]. rewrite IH, insert_track_unfold.
  destruct (existsb (String.eqb item)
              (map p_item_id (filter (by_name name) t))); [reflexivity|].
  rewrite filter_by_name_last, (proj2 (String.eqb_neq _ _) Hne).
  apply app_nil_r.
Qed.

Lemma insert_playlists_other (name : string)
    (playlists : list (string * list track)) (t : list PlaylistRow) :
  ~ In name (map fst playlists) ->
  filter (by_name name) (insert_playlists playlists t)
  = filter (by_name name) t.
Proof.
  unfold insert_playlists. revert t.
  induction playlists as [|[n c] ps IH]; intros t Hni; simpl;
    [reflexivity|].
  rewrite IH; [|intros H; apply Hni; now right].
  apply insert_cluster_other. intros H. apply Hni. now left.
Qed.

Lemma insert_playlists_same (name : string) (cluster : list track)
    (playlists : list (string * list track)) (t : list PlaylistRow) :
  NoDup (map fst playlists) -> In (name, cluster) playlists ->
  filter (by_name name) (insert_playlists playlists t)
  = filter (by_name name) t
    ++ map (row_of name)
         (first_of_each (map p_item_id (filter (by_name name) t)) cluster).
Proof.
  unfold insert_playlists. revert t.
  induction playlists as [|[n c] ps IH]; intros t Hnd Hin; simpl;
    [destruct Hin|].
  inversion Hnd as [|? ? Hni Hnd']; subst.
  destruct Hin as [Heq|Hin].
  - injection Heq as -> ->.
    pose proof (insert_playlists_other name ps
                  (fold_left (insert_track name) cluster t) Hni) as Ho.
    unfold insert_playlists in Ho. rewrite Ho.
    apply insert_cluster_same.
  - rewrite (IH _ Hnd' Hin).
    assert (Hne : n <> name).
    { intros ->. apply Hni. simpl.
      change name with (fst (name, cluster)). now apply in_map. }
    now rewrite (insert_cluster_other n name c t Hne).
Qed.

Lemma listing_get_append (d : list (string * list json)) (n name : string)
    (x : json) :
  listing_get (append_to d n x) name
  = if String.eqb n name
    then Some (match listing_get d name with
               | Some l => l ++ [x]
               | None => [x]
               end)
    else listing_get d name.
Proof.
  induction d as [|[k l] d IH]; simpl.
  - now destruct (String.eqb n name).
  - destruct (String.eqb k n) eqn:Ekn; simpl.
    + apply String.eqb_eq in Ekn. subst k.
      now destruct (String.eqb n name).
    + rewrite IH. destruct (String.eqb k name) eqn:Ek; [|reflexivity].
      apply String.eqb_eq in Ek. subst k.
      now rewrite (String.eqb_sym n name), Ekn.
Qed.

Lemma listing_of_rows (rows : list PlaylistRow)
    (d : list (string * list json)) (name : string) :
  listing_get
    (fold_left (fun d row => append_to d (playlist_name row) (track_json row))
       rows d)
    name
  = match listing_get d name,
          map track_json (filter (by_name name) rows) with
    | Some l, extra => Some (l ++ extra)
    | None, [] => None
    | None, extra => Some extra
    end.
Proof.
  revert d. induction rows as [|r rows IH]; intros d; simpl.
  - destruct (listing_get d name); [now rewrite app_nil_r|reflexivity].
  - rewrite IH, listing_get_append.
    change (by_name name r) with (String.eqb (playlist_name r) name).
    destruct (String.eqb (playlist_name r) name); simpl.
    + destruct (listing_get d name); [now rewrite <- app_assoc|reflexivity].
    + reflexivity.
Qed.

Lemma track_json_row (name : string) (tr : track) :
  track_json (row_of name tr) = json_of_track tr.
Proof. now destruct tr as [[item ti] au]. Qed.

(** X23. What [update_playlist_table] has committed is what
    [get_playlists_endpoint] lists: the playlists of the earlier run are
    gone; every playlist of the call with at least one track is listed with
    one entry for each of its item ids, taken from the first track with
    that id, in the order the database sorts them; a playlist without
    tracks is not listed. *)
Theorem playlists_round_trip
    (order_by_name_title : list PlaylistRow -> list PlaylistRow)
    (playlists : list (string * list track)) (old : list PlaylistRow) :
  (forall t, Permutation (order_by_name_title t) t) ->
  NoDup (map fst playlists) ->
  let listing :=
    fst (get_playlists_endpoint order_by_name_title
           (update_playlist_table false playlists old)) in
  (forall name cluster,
      In (name, cluster) playlists ->
      match listing_get listing name with
      | Some l =>
          cluster <> []
          /\ Permutation l (map json_of_track (first_of_each [] cluster))
      | None => cluster = []
      end)
  /\ (forall name,
         ~ In name (map fst playlists) -> listing_get listing name = None).
Proof.
  intros Hord Hnd listing.
  assert (Hl : forall name,
             exists rows,
               Permutation rows
                 (filter (by_name name) (insert_playlists playlists []))
               /\ listing_get listing name
                  = match map track_json rows with
                    | [] => None
                    | extra => Some extra
                    end).
  { intros name.
    exists (filter (by_name name)
              (order_by_name_title (insert_playlists playlists []))).
    split; [apply Permutation_filter_same, Hord|].
    unfold listing, get_playlists_endpoint, update_playlist_table. simpl fst.
    now rewrite listing_of_rows. }
  split.
  - intros name cluster Hin. destruct (Hl name) as [rows [Hp Hg]].
    rewrite (insert_playlists_same name cluster playlists [] Hnd Hin) in Hp.
    simpl in Hp. rewrite Hg.
    destruct rows as [|r rows].
    + simpl. apply Permutation_nil in Hp. apply map_eq_nil in Hp.
      destruct cluster as [|[[item ti] au] c]; [reflexivity|].
      simpl in Hp. discriminate.
    + simpl map at 1. cbv iota. split.
      * intros ->. simpl in Hp. apply Permutation_sym in Hp.
        apply Permutation_nil in Hp. discriminate.
      * apply (Permutation_map track_json) in Hp.
        rewrite map_map in Hp.
        rewrite (map_ext _ _ (track_json_row name)) in Hp. exact Hp.
  - intros name Hni. destruct (Hl name) as [rows [Hp Hg]].
    rewrite (insert_playlists_other name playlists [] Hni) in Hp.
    simpl in Hp. apply Permutation_sym in Hp. apply Permutation_nil in Hp.
    subst rows. exact Hg.
Qed.

Lemma playlists_round_trip_witness :
  let listing :=
    fst (get_playlists_endpoint (fun t => rev t)
           (update_playlist_table false sample_playlists
              sample_old_playlists)) in
  (forall name cluster,
      In (name, cluster) sample_playlists ->
      match listing_get listing name with
      | Some l =>
          cluster <> []
          /\ Permutation l (map json_of_track (first_of_each [] cluster))
      | None => cluster = []
      end)
  /\ (forall name,
         ~ In name (map fst sample_playlists) ->
         listing_get listing name = None).
Proof.
  apply (playlists_round_trip (fun t => rev t) sample_playlists
           sample_old_playlists).
  - intros t. apply Permutation_sym, Permutation_rev.
  - repeat constructor; simpl; intuition discriminate.
Defined.

(** ** The active-task view and the reload listener *)

Lemma pruned_best_params (d : dict) :
  dict_get (dict_pop (dict_pop d "clustering_run_job_ids") "checked_album_ids")
    "best_params"
  = dict_get d "best_params".
Proof. now rewrite !dict_get_pop. Qed.

(** X24. In the view of the active main task, [initial_centroids] is only
    removed when the [params] object of the clustering configuration has
    itself a key called [params]: for the usual configuration, without such
    a key, the details are sent with the two top-level keys removed and the
    whole of [best_params], [initial_centroids] included. *)
Theorem active_view_keeps_initial_centroids (now : Q) (s : Store) (row : Row)
    (d bp cmc pd : dict) :
  latest (filter is_active_root s) = Some row ->
  details row = Some (Encoded (JDict d)) ->
  dict_get d "best_params" = Some (JDict bp) ->
  dict_get bp "clustering_method_config" = Some (JDict cmc) ->
  dict_get cmc "params" = Some (JDict pd) ->
  dict_has pd "params" = false ->
  exists v d',
    get_active_tasks_endpoint now s = Ok (Some v, 200)
    /\ v_details v = JDict d'
    /\ d' = dict_pop (dict_pop d "clustering_run_job_ids") "checked_album_ids"
    /\ dict_get d' "best_params" = Some (JDict bp).
Proof.
  intros Hl Hd Hbp Hcmc Hp Hpd. unfold get_active_tasks_endpoint.
  rewrite Hl, Hd. unfold active_task_details. simpl text_truthy. cbv iota.
  unfold prune_active_details.
  rewrite pruned_best_params, Hbp, Hcmc, Hp. simpl contains_params.
  rewrite Hpd. eexists. eexists. split; [reflexivity|]. simpl v_details.
  split; [reflexivity|]. split; [reflexivity|].
  now rewrite pruned_best_params.
Qed.

Lemma active_view_keeps_initial_centroids_witness :
  exists v d',
    get_active_tasks_endpoint (1500 # 1)
      [clustering_row kmeans_config] = Ok (Some v, 200)
    /\ v_details v = JDict d'
    /\ d' = dict_pop
              (dict_pop (clustering_details kmeans_config)
                 "clustering_run_job_ids")
              "checked_album_ids"
    /\ dict_get d' "best_params"
       = Some (JDict [("clustering_method_config", JDict kmeans_config)]).
Proof.
  apply (active_view_keeps_initial_centroids (1500 # 1)
           [clustering_row kmeans_config] (clustering_row kmeans_config)
           (clustering_details kmeans_config)
           [("clustering_method_config", JDict kmeans_config)]
           kmeans_config kmeans_params); reflexivity.
Defined.

(** X25. When the clustering configuration in the details of the active
    main task has no [params] key, the active-task view raises KeyError
    instead of answering. *)
Theorem active_view_raises_without_params (now : Q) (s : Store) (row : Row)
    (d bp cmc : dict) :
  latest (filter is_active_root s) = Some row ->
  details row = Some (Encoded (JDict d)) ->
  dict_get d "best_params" = Some (JDict bp) ->
  dict_get bp "clustering_method_config" = Some (JDict cmc) ->
  dict_get cmc "params" = None ->
  get_active_tasks_endpoint now s = Raise KeyError.
Proof.
  intros Hl Hd Hbp Hcmc Hp. unfold get_active_tasks_endpoint.
  rewrite Hl, Hd. unfold active_task_details. simpl text_truthy. cbv iota.
  unfold prune_active_details.
  now rewrite pruned_best_params, Hbp, Hcmc, Hp.
Qed.

Lemma active_view_raises_without_params_witness :
  get_active_tasks_endpoint (1500 # 1)
    [clustering_row [("method", JStr "dbscan")]]
  = Raise KeyError.
Proof.
  apply (active_view_raises_without_params (1500 # 1)
           [clustering_row [("method", JStr "dbscan")]]
           (clustering_row [("method", JStr "dbscan")])
           (clustering_details [("method", JStr "dbscan")])
           [("clustering_method_config", JDict [("method", JStr "dbscan")])]
           [("method", JStr "dbscan")]); reflexivity.
Defined.

Section ListenFurther.

Variable load : nat -> bool.

Lemma listener_stopped (ms : list Message) (evs : list reload_event) :
  fold_left (listen_step load) ms {| reloads := evs; running := false |}
  = {| reloads := evs; running := false |}.
Proof. induction ms as [|m ms IH]; simpl; auto. Qed.

Lemma listener_runs (ms : list Message) (evs : list reload_event) :
  forallb (fun m => negb (undecodable m)) ms = true ->
  fold_left (listen_step load) ms {| reloads := evs; running := true |}
  = {| reloads :=
         evs ++ map (event_of load)
                  (seq (List.length evs)
                     (List.length (filter is_reload ms)));
       running := true |}.
Proof.
  revert evs. induction ms as [|m ms IH]; intros evs Hd.
  - simpl. now rewrite app_nil_r.
  - simpl in Hd. apply andb_true_iff in Hd. destruct Hd as [Hm Hd].
    cbn [fold_left filter]. unfold listen_step at 2. cbn [running reloads].
    unfold undecodable in Hm. unfold is_reload.
    destruct (String.eqb (m_type m) "message"); simpl andb.
    + destruct (m_data m) as [data|]; [|discriminate].
      destruct (String.eqb data "reload").
      * rewrite (IH _ Hd). f_equal.
        rewrite <- app_assoc, length_app. simpl List.length.
        rewrite Nat.add_1_r. reflexivity.
      * now rewrite (IH _ Hd).
    + now rewrite (IH _ Hd).
Qed.

(** X26. While every payload on the channel decodes, the listener keeps
    running and has attempted exactly one reload for each [reload] payload,
    whether or not an earlier reload raised; the first payload that is not
    UTF-8 ends the thread, and no message after it leads to a reload. *)
Theorem listener_reloads_until_undecodable (ms1 ms2 : list Message)
    (m : Message) :
  forallb (fun m => negb (undecodable m)) ms1 = true ->
  listen_for_index_reloads load ms1
  = {| reloads :=
         map (event_of load) (seq 0 (List.length (filter is_reload ms1)));
       running := true |}
  /\ (undecodable m = true ->
      listen_for_index_reloads load (ms1 ++ m :: ms2)
      = {| reloads :=
             map (event_of load)
               (seq 0 (List.length (filter is_reload ms1)));
           running := false |}).
Proof.
  intros Hd. unfold listen_for_index_reloads.
  pose proof (listener_runs ms1 [] Hd) as Hr. simpl in Hr.
  split; [exact Hr|].
  intros Hm. rewrite fold_left_app, Hr. cbn [fold_left].
  unfold listen_step at 2. cbn [running reloads].
  unfold undecodable in Hm.
  destruct (String.eqb (m_type m) "message"); [|discriminate].
  destruct (m_data m); [discriminate|].
  apply listener_stopped.
Qed.

End ListenFurther.

Lemma listener_reloads_until_undecodable_witness :
  listen_for_index_reloads sample_load sample_messages
  = {| reloads :=
         map (event_of sample_load)
           (seq 0 (List.length (filter is_reload sample_messages)));
       running := true |}
  /\ (undecodable {| m_type := "message"; m_data := None |} = true ->
      listen_for_index_reloads sample_load
        (sample_messages
         ++ {| m_type := "message"; m_data := None |}
            :: [{| m_type := "message"; m_data := Some "reload" |}])
      = {| reloads :=
             map (event_of sample_load)
               (seq 0 (List.length (filter is_reload sample_messages)));
           running := false |}).
Proof.
  apply (listener_reloads_until_undecodable sample_load sample_messages
           [{| m_type := "message"; m_data := Some "reload" |}]
           {| m_type := "message"; m_data := None |}).
  reflexivity.
Defined.
